(** * trapperkeeper: the trap ingestion callback

    A shallow embedding of [trapperkeeper/callbacks.py]: the class
    [TrapperCallback] ([__call__], [_call], [_send_mail],
    [_index_to_elasticsearch]) and the function [transform_varbind].

    The callback is effectful Python: it bumps process-wide counters
    ([stats.incr]), writes log lines, talks to a SQLAlchemy session, to a
    mail transport and to a search index, and uses exceptions for control
    flow.  The embedding threads an explicit [World] (counters and a journal
    of every externally visible action) through an error monad whose failure
    case is a raised Python exception.  The libraries the callback calls
    (pysnmp, pyasn1, the models, the utilities, the enrichment plugin) are
    fields of an [Env] record: each is a function from its arguments to what
    the call yields, which is either a value or a raised exception. *)

From Stdlib Require Import ZArith String List Lia.
From stdpp Require Import base option list gmap strings pretty.

Open Scope Z_scope.
Open Scope string_scope.
Open Scope list_scope.

(** ** Python values and exceptions *)

Module Py.

(** The exception classes the callback names in an [except] clause, and
    the ones the interpreter raises on the operations it performs.  Every
    constructor stands for a subclass of Python's [Exception];
    [OtherException] covers every other such subclass. *)
Inductive exn_class : Type :=
| ProtocolError          (* pysnmp.proto.error *)
| ValueConstraintError   (* pyasn1.type.error *)
| OperationalError       (* sqlalchemy.exc *)
| InvalidRequestError    (* sqlalchemy.exc *)
| IntegrityError         (* sqlalchemy.exc *)
| socket_error           (* socket.error *)
| KeyError
| TypeError
| OverflowError
| OtherException.

Global Instance exn_class_eq_dec : EqDecision exn_class.
Proof. solve_decision. Defined.

Record exn : Type := Exn { exn_cls : exn_class; exn_str : string }.

(** The classes of [BaseException] that are not subclasses of [Exception].
    No [except] clause of the callback names one of them, and
    [except Exception] does not catch them. *)
Inductive base_class : Type :=
| SystemExit
| KeyboardInterrupt
| GeneratorExit.

Record base_exn : Type :=
  BaseExn { base_cls : base_class; base_str : string }.

(** What a call yields: a value, a raised instance of [Exception], or a
    raised exception that is not an instance of [Exception]. *)
Inductive outcome (A : Type) : Type :=
| Return (a : A)
| Raise (e : exn)
| RaiseBase (b : base_exn).
Global Arguments Return {A} a.
Global Arguments Raise {A} e.
Global Arguments RaiseBase {A} b.

(** The scalar values stored in the dictionaries of the callback. *)
Inductive val : Type :=
| VNone
| VInt (z : Z)
| VStr (s : string).

(** [isinstance(e, (c1, c2, ...))] *)
Definition isinstance (e : exn) (cs : list exn_class) : bool :=
  bool_decide (exn_cls e ∈ cs).

End Py.
Export Py.

(** ** The data model *)

(** [VarBind.to_dict(pretty=True)], with the keys listed in the comment of
    [transform_varbind]. *)
Record VarBind : Type := {
  vb_name : string;
  vb_notification_id : val;
  vb_oid : string;
  vb_pretty_value : val;
  vb_value : val;
  vb_value_type : val;
}.

(** [trapperkeeper.models.Notification].  Times are [datetime]s, counted in
    microseconds since [datetime.min]; [n_id] is the identifier the store
    assigns on commit. *)
Record Notification : Type := {
  n_id : option Z;
  n_host : string;
  n_version : string;
  n_oid : string;
  n_sent : Z;
  n_varbinds : list VarBind;
  n_severity : option string;
  n_manager : option string;
  n_expires : option Z;
}.

Definition set_severity (s : string) (t : Notification) : Notification :=
  {| n_id := n_id t; n_host := n_host t; n_version := n_version t;
     n_oid := n_oid t; n_sent := n_sent t; n_varbinds := n_varbinds t;
     n_severity := Some s; n_manager := n_manager t;
     n_expires := n_expires t |}.

Definition set_manager (m : string) (t : Notification) : Notification :=
  {| n_id := n_id t; n_host := n_host t; n_version := n_version t;
     n_oid := n_oid t; n_sent := n_sent t; n_varbinds := n_varbinds t;
     n_severity := n_severity t; n_manager := Some m;
     n_expires := n_expires t |}.

Definition set_expires (e : Z) (t : Notification) : Notification :=
  {| n_id := n_id t; n_host := n_host t; n_version := n_version t;
     n_oid := n_oid t; n_sent := n_sent t; n_varbinds := n_varbinds t;
     n_severity := n_severity t; n_manager := n_manager t;
     n_expires := Some e |}.

Definition set_id (i : Z) (t : Notification) : Notification :=
  {| n_id := Some i; n_host := n_host t; n_version := n_version t;
     n_oid := n_oid t; n_sent := n_sent t; n_varbinds := n_varbinds t;
     n_severity := n_severity t; n_manager := n_manager t;
     n_expires := n_expires t |}.

(** A handler (the per-OID policy) is a Python dict used as a record.  The
    keys the callback reads with [handler[...]] are plain fields; the keys it
    reads with [handler.get(...)] may be missing and are options.  A falsy
    ["mail"] entry is [None]; a missing or empty ["recipients"] is [[]]. *)
Record MailRule : Type := {
  recipients : list string;
  subject : string;
}.

Record Handler : Type := {
  severity : string;
  expiration : option string;
  blackhole : option bool;
  mail_on_duplicate : bool;
  mail : option MailRule;
}.

(** [trapperkeeper.dde.DdeNotification(trap, handler)] *)
Record DdeNotification : Type := {
  dde_notification : Notification;
  dde_handler : Handler;
}.

(** A pysnmp protocol module and the parts of a decoded message the
    callback looks at. *)
Record ProtoModule : Type := {
  pm_version : Z;
  pm_TrapPDU : Z;   (* the tag of [proto_module.TrapPDU()] *)
}.

Record Pdu : Type := {
  pdu_tag : Z;
  pdu_body : list Byte.byte;
}.

Record Message : Type := {
  msg_community : string;
  msg_pdu : Pdu;
}.

(** ** The world: counters and the journal of visible actions *)

Inductive log_fn : Type := debug | info | warning | error | exception.

(** An argument of a log call, kept unrendered. *)
Inductive log_arg : Type :=
| AStr (s : string)
| AInt (z : Z)
| AExn (e : exn)
| APdu (p : Pdu).

Inductive Event : Type :=
| Log (f : log_fn) (fmt : string) (args : list log_arg)
| Print (s : string)
| PPrint (d : gmap string val)
| TrapPPrint (t : Notification)
| ConnAdd (t : Notification)
| ConnCommit
| ConnRollback
| SendTrapEmail (rcpts : list string) (sender subj : string)
    (ctxt_trap : Notification) (ctxt_dest_host : string)
| IndexTrap (doc : gmap string val).

Record World : Type := {
  stats : gmap string Z;
  journal : list Event;
}.

(** The value of a counter; a counter never incremented reads 0. *)
Definition counter (name : string) (w : World) : Z :=
  default 0 (stats w !! name).

(** ** The monad of the callback *)

Definition M (A : Type) : Type := World -> outcome A * World.

Definition ret {A} (a : A) : M A := fun w => (Return a, w).

Definition bind {A B} (c : M A) (k : A -> M B) : M B :=
  fun w =>
    match c w with
    | (Return a, w') => k a w'
    | (Raise e, w') => (Raise e, w')
    | (RaiseBase b, w') => (RaiseBase b, w')
    end.

(** Lifts what an external call yielded. *)
Definition call {A} (o : outcome A) : M A := fun w => (o, w).

(** The [except] clauses of a [try] statement, in order: the first clause
    whose classes match the exception handles it; an exception no clause
    matches passes through.  The clauses name subclasses of [Exception]
    only, so an exception outside [Exception] passes through as well. *)
Fixpoint select_clause {A} (e : exn)
    (clauses : list (list exn_class * (exn -> M A))) : M A :=
  match clauses with
  | [] => fun w => (Raise e, w)
  | (cs, handler) :: rest =>
      if isinstance e cs then handler e else select_clause e rest
  end.

Definition try_except {A} (body : M A)
    (clauses : list (list exn_class * (exn -> M A))) : M A :=
  fun w =>
    match body w with
    | (Return a, w') => (Return a, w')
    | (Raise e, w') => select_clause e clauses w'
    | (RaiseBase b, w') => (RaiseBase b, w')
    end.

(** [try: body  except Exception as err: handler err] *)
Definition try_except_Exception {A} (body : M A) (handler : exn -> M A)
    : M A :=
  fun w =>
    match body w with
    | (Return a, w') => (Return a, w')
    | (Raise e, w') => handler e w'
    | (RaiseBase b, w') => (RaiseBase b, w')
    end.

Declare Scope py_scope.
Delimit Scope py_scope with py.
Notation "x <- c ;; k" := (bind c (fun x => k))
  (at level 100, c at next level, right associativity) : py_scope.
Notation "c ;;; k" := (bind c (fun _ => k))
  (at level 100, right associativity) : py_scope.
Open Scope py_scope.

Definition emit (e : Event) : M unit :=
  fun w => (Return tt, {| stats := stats w; journal := journal w ++ [e] |}).

(** [stats.incr(name, n)] *)
Definition stats_incr (name : string) (n : Z) : M unit :=
  fun w => (Return tt,
            {| stats := <[name := counter name w + n]> (stats w);
               journal := journal w |}).

Definition logging (f : log_fn) (fmt : string) (args : list log_arg)
    : M unit :=
  emit (Log f fmt args).

(** [d[k]] on a dict *)
Definition getitem {V} (d : gmap string V) (k : string) : outcome V :=
  match d !! k with
  | Some v => Return v
  | None => Raise (Exn KeyError k)
  end.

Definition getitem_int {V} (d : gmap Z V) (k : Z) : outcome V :=
  match d !! k with
  | Some v => Return v
  | None => Raise (Exn KeyError (pretty k))
  end.

(** A call to an external collaborator: the journal records that the call
    was made, then the call yields its value or raises. *)
Definition extern {A} (ev : Event) (o : outcome A) : M A :=
  bind (emit ev) (fun _ => call o).

(** ** The environment: the callback object and its collaborators *)

Record Env : Type := {
  (* the fields of [TrapperCallback] *)
  conn_add : Notification -> outcome unit;
  conn_commit : Notification -> outcome Z;
  hostname : string;
  hostname_or_ip : string -> string;
  community : string;
  handlers : gmap string Handler;
  default_handler : Handler;
  (* pysnmp and pyasn1 *)
  decodeMessageVersion : list Byte.byte -> outcome Z;
  protoModules : gmap Z ProtoModule;
  protoVersion1 : Z;
  protoVersion2c : Z;
  decode : list Byte.byte -> ProtoModule ->
           outcome (Message * list Byte.byte);
  (* oid_translate *)
  ObjectId_name : string -> string;
  (* trapperkeeper.constants, .models, .utils, and the plugin *)
  SNMP_VERSIONS : gmap Z string;
  from_pdu : string -> ProtoModule -> string -> Pdu ->
             outcome (option Notification);
  to_dict : Notification -> gmap string val;
  parse_time_string : string -> outcome (list (string * Z));
  send_trap_email : list string -> string -> string -> Notification ->
                    string -> outcome unit;
  index_trap_to_elasticsearch : gmap string val -> outcome unit;
  dde_run : DdeNotification -> outcome DdeNotification;
  (* the interpreter's [template % mapping] on strings *)
  percent_format : string -> list (string * string) -> outcome string;
}.

(** The fallback of lines 20-25: without a plugin, [dde_run] is a no-op. *)
Definition dde_run_noop (d : DdeNotification) : outcome DdeNotification :=
  Return d.

(** ** [transform_varbind] *)

(** The dict display [{k1: v1, k2: v2, k3: v3}] inserts left to right, so a
    later key replaces an equal earlier one; [result.update] on the empty
    dict then yields that dict. *)
Definition transform_varbind (d : VarBind) : gmap string val :=
  let result : gmap string val := ∅ in
  (<[vb_name d +:+ ":type" := vb_value_type d]>
     (<[vb_oid d := vb_value d]>
        (<[vb_name d := vb_pretty_value d]> ∅))) ∪ result.

(** [for vb in varbinds: trap_index.update(transform_varbind(vb))] *)
Fixpoint update_varbinds (trap_index : gmap string val)
    (vbs : list VarBind) : gmap string val :=
  match vbs with
  | [] => trap_index
  | vb :: rest => update_varbinds (transform_varbind vb ∪ trap_index) rest
  end.

(** The document of lines 186-194 before ["id"] is read: the base fields
    overlaid by every variable binding in order. *)
Definition merged_fields (env : Env) (trap : Notification)
    : gmap string val :=
  update_varbinds (to_dict env trap ∪ ∅) (n_varbinds trap).

Definition finish_index (env : Env) (trap : Notification)
    (trap_index : gmap string val) (idv : val) : gmap string val :=
  delete "id"
    (<["mib_name" := VStr (ObjectId_name env (n_oid trap))]>
       (<["notification_id" := idv]> trap_index)).

Fixpoint pprint_varbinds (vbs : list VarBind) : M unit :=
  match vbs with
  | [] => ret tt
  | vb :: rest =>
      emit (PPrint
              (list_to_map
                 [("name", VStr (vb_name vb));
                  ("notification_id", vb_notification_id vb);
                  ("oid", VStr (vb_oid vb));
                  ("pretty_value", vb_pretty_value vb);
                  ("value", vb_value vb);
                  ("value_type", vb_value_type vb)])) ;;;
      pprint_varbinds rest
  end.

Definition rule (c : string) (n : nat) : string :=
  String.concat "" (repeat c n).

(** ** [TrapperCallback._index_to_elasticsearch] *)
Definition _index_to_elasticsearch (env : Env) (trap : Notification)
    : M unit :=
  emit (Print (rule "=" 150)) ;;;
  emit (PPrint (to_dict env trap)) ;;;
  emit (Print (rule "vb" 25)) ;;;
  pprint_varbinds (n_varbinds trap) ;;;
  let trap_index := merged_fields env trap in
  idv <- call (getitem trap_index "id") ;;
  let trap_index := finish_index env trap trap_index idv in
  emit (Print (rule "-" 25)) ;;;
  emit (PPrint trap_index) ;;;
  emit (TrapPPrint trap) ;;;
  extern (IndexTrap trap_index) (index_trap_to_elasticsearch env trap_index).

(** ** [datetime.timedelta] and [datetime + timedelta] *)

Definition us_per_day : Z := 86400 * 1000000.

(** The keyword arguments [timedelta] accepts, in microseconds. *)
Definition timedelta_unit (k : string) : option Z :=
  if bool_decide (k = "days") then Some us_per_day
  else if bool_decide (k = "seconds") then Some 1000000
  else if bool_decide (k = "microseconds") then Some 1
  else if bool_decide (k = "milliseconds") then Some 1000
  else if bool_decide (k = "minutes") then Some (60 * 1000000)
  else if bool_decide (k = "hours") then Some (3600 * 1000000)
  else if bool_decide (k = "weeks") then Some (7 * us_per_day)
  else None.

Fixpoint timedelta_sum (kwargs : list (string * Z)) : outcome Z :=
  match kwargs with
  | [] => Return 0
  | (k, v) :: rest =>
      match timedelta_unit k with
      | None =>
          Raise (Exn TypeError
                   (k +:+ " is an invalid keyword argument for timedelta"))
      | Some u =>
          match timedelta_sum rest with
          | Return d => Return (u * v + d)
          | Raise e => Raise e
          | RaiseBase b => RaiseBase b
          end
      end
  end.

(** [timedelta] applied to the keyword arguments: the magnitude is limited
    to 999999999 days. *)
Definition timedelta (kwargs : list (string * Z)) : outcome Z :=
  match timedelta_sum kwargs with
  | Return d =>
      if bool_decide (- 999999999 * us_per_day <= d
                      < 1000000000 * us_per_day)
      then Return d
      else Raise (Exn OverflowError "days out of range")
  | Raise e => Raise e
  | RaiseBase b => RaiseBase b
  end.

(** [datetime.max] is the last microsecond of the year 9999, day 3652059. *)
Definition datetime_end : Z := 3652059 * us_per_day.

Definition datetime_add (t d : Z) : outcome Z :=
  if bool_decide (0 <= t + d < datetime_end) then Return (t + d)
  else Raise (Exn OverflowError "date value out of range").

(** The mapping the subject template is formatted with. *)
Definition subject_mapping (env : Env) (trap : Notification)
    : list (string * string) :=
  [("trap_oid", n_oid trap);
   ("trap_name", ObjectId_name env (n_oid trap));
   ("ipaddress", n_host trap);
   ("hostname", hostname_or_ip env (n_host trap))].

(** ** [TrapperCallback._send_mail] *)
Definition _send_mail (env : Env) (handler : Handler) (trap : Notification)
    (is_duplicate : bool) : M unit :=
  if is_duplicate && negb (mail_on_duplicate handler) then ret tt else
  match mail handler with
  | None => ret tt
  | Some mail =>
      let recipients := recipients mail in
      if bool_decide (recipients = []) then ret tt else
      subject <- call (percent_format env (subject mail)
                         (subject_mapping env trap)) ;;
      try_except
        (stats_incr "mail_sent_attempted" 1 ;;;
         extern (SendTrapEmail recipients "trapperkeeper" subject trap
                   (hostname env))
           (send_trap_email env recipients "trapperkeeper" subject trap
              (hostname env)) ;;;
         stats_incr "mail_sent_successful" 1)
        [([socket_error],
          fun err =>
            stats_incr "mail_sent_failed" 1 ;;;
            logging warning "Failed to send e-mail for trap: %s" [AExn err])]
  end.

(** ** The stages of [TrapperCallback._call] *)

(** Lines 78-118: decoding and the admission rules.  [None] is an early
    [return]; [Some trap] lets the pipeline go on. *)
Definition validate (env : Env) (transport_address : string * Z)
    (whole_msg : list Byte.byte) : M (option Notification) :=
  msg_version <- call (decodeMessageVersion env whole_msg) ;;
  match protoModules env !! msg_version with
  | None =>
      stats_incr "unsupported-notification" 1 ;;;
      logging error "Unsupported SNMP version %s" [AInt msg_version] ;;;
      ret None
  | Some proto_module =>
      let host := transport_address.1 in
      version <- call (getitem_int (SNMP_VERSIONS env) msg_version) ;;
      decoded <-
        try_except
          (r <- call (decode env whole_msg proto_module) ;; ret (Some r))
          [([ProtocolError; ValueConstraintError],
            fun err =>
              stats_incr "unsupported-notification" 1 ;;;
              logging warning "Failed to receive trap (%s) from %s: %s"
                [AStr version; AStr host; AExn err] ;;;
              ret None)] ;;
      match decoded with
      | None => ret None
      | Some (req_msg, whole_msg) =>
          let req_pdu := msg_pdu req_msg in
          let community' := msg_community req_msg in
          if negb (bool_decide (community env = ""))
             && negb (bool_decide (community' = community env))
          then
            stats_incr "unauthenticated-notification" 1 ;;;
            logging warning
              "Received trap from %s with invalid community: %s... discarding"
              [AStr host; AStr community'] ;;;
            ret None
          else if negb (bool_decide (pdu_tag req_pdu = pm_TrapPDU proto_module))
          then
            stats_incr "unsupported-notification" 1 ;;;
            logging warning "Received non-trap notification from %s"
              [AStr host] ;;;
            ret None
          else if negb (bool_decide
                          (msg_version ∈ [protoVersion1 env;
                                          protoVersion2c env]))
          then
            stats_incr "unsupported-notification" 1 ;;;
            logging warning "Received trap not in v1 or v2c" [] ;;;
            ret None
          else
            trap <- call (from_pdu env host proto_module version req_pdu) ;;
            match trap with
            | None =>
                stats_incr "unsupported-notification" 1 ;;;
                logging warning "Invalid trap from %s: %s"
                  [AStr host; APdu req_pdu] ;;;
                ret None
            | Some trap => ret (Some trap)
            end
      end
  end.

(** Modelled from the spec: [self.config.handlers] belongs to
    [trapperkeeper.config], which is not among the sources; the spec has the
    policy table looked up by exact OID match, the default policy applying
    when no entry matches. *)
Definition handlers_getitem (env : Env) (oid : string) : Handler :=
  default (default_handler env) (handlers env !! oid).

(** [handler.get("expiration", None)] is truthy for a non-empty string. *)
Definition expiration_configured (handler : Handler) : option string :=
  match expiration handler with
  | Some s => if bool_decide (s = "") then None else Some s
  | None => None
  end.

(** Lines 124-130: the policy applied to the trap. *)
Definition apply_policy (env : Env) (handler : Handler)
    (trap : Notification) : outcome Notification :=
  let trap := set_severity (severity handler) trap in
  let trap := set_manager (hostname env) trap in
  match expiration_configured handler with
  | Some s =>
      match parse_time_string env s with
      | Return expires =>
          match timedelta expires with
          | Return expires =>
              match datetime_add (n_sent trap) expires with
              | Return e => Return (set_expires e trap)
              | Raise err => Raise err
              | RaiseBase b => RaiseBase b
              end
          | Raise err => Raise err
          | RaiseBase b => RaiseBase b
          end
      | Raise err => Raise err
      | RaiseBase b => RaiseBase b
      end
  | None => Return trap
  end.

(** Lines 120-130: the policy lookup, the enrichment hook, and the policy
    applied to the trap.  The hook receives the trap object itself, so what
    it does to the trap is seen by the rest of the pipeline. *)
Definition resolve_policy (env : Env) (trap : Notification)
    : M (Handler * Notification) :=
  let dde := {| dde_notification := trap;
                dde_handler := handlers_getitem env (n_oid trap) |} in
  dde <- call (dde_run env dde) ;;
  let trap := dde_notification dde in
  let handler := dde_handler dde in
  trap <- call (apply_policy env handler trap) ;;
  ret (handler, trap).

(** Lines 143-164: the write and its three [except] clauses.  Yields the
    [duplicate] flag and the trap, which a successful commit has given its
    identifier. *)
Definition persist (env : Env) (host objid_name : string)
    (trap : Notification) : M (bool * Notification) :=
  try_except
    (stats_incr "db_write_attempted" 1 ;;;
     extern (ConnAdd trap) (conn_add env trap) ;;;
     i <- extern ConnCommit (conn_commit env trap) ;;
     stats_incr "db_write_successful" 1 ;;;
     ret (false, set_id i trap))
    [([OperationalError],
      fun err =>
        emit ConnRollback ;;;
        logging warning "Failed to commit: %s" [AExn err] ;;;
        stats_incr "db_write_failed" 1 ;;;
        ret (false, trap));
     ([InvalidRequestError],
      fun err =>
        stats_incr "db_write_failed" 1 ;;;
        emit ConnRollback ;;;
        logging warning "Bad state, rolling back transaction: %s"
          [AExn err] ;;;
        ret (false, trap));
     ([IntegrityError],
      fun err =>
        stats_incr "db_write_duplicate" 1 ;;;
        emit ConnRollback ;;;
        logging info
          "Duplicate Trap (%s) from %s. Likely inserted by another manager."
          [AStr objid_name; AStr host] ;;;
        logging debug "%s" [AExn err] ;;;
        ret (true, trap))].

(** Lines 166-169 *)
Definition fan_out (env : Env) (handler : Handler) (trap : Notification)
    (duplicate : bool) : M unit :=
  _send_mail env handler trap duplicate ;;;
  _index_to_elasticsearch env trap.

(** [handler.get("blackhole", False)] *)
Definition blackholed (handler : Handler) : bool :=
  default false (blackhole handler).

(** Lines 120-169, for a trap that passed validation. *)
Definition process (env : Env) (host : string) (trap : Notification)
    : M unit :=
  resolved <- resolve_policy env trap ;;
  let handler := resolved.1 in
  let trap := resolved.2 in
  stats_incr "traps_received" 1 ;;;
  let objid_name := ObjectId_name env (n_oid trap) in
  if blackholed handler then
    stats_incr "traps_blackholed" 1 ;;;
    logging debug "Blackholed %s from %s" [AStr objid_name; AStr host]
  else
    logging info "Trap Received (%s) from %s"
      [AStr objid_name; AStr host] ;;;
    stats_incr "traps_accepted" 1 ;;;
    written <- persist env host objid_name trap ;;
    let duplicate := written.1 in
    let trap := written.2 in
    fan_out env handler trap duplicate.

(** ** [TrapperCallback._call] *)
Definition _call (env : Env) (transport_address : string * Z)
    (whole_msg : list Byte.byte) : M unit :=
  if bool_decide (whole_msg = []) then ret tt else
  trap <- validate env transport_address whole_msg ;;
  match trap with
  | None => ret tt
  | Some trap => process env transport_address.1 trap
  end.

(** ** [TrapperCallback.__call__] *)
Definition __call__ (env : Env) (transport_address : string * Z)
    (whole_msg : list Byte.byte) : M unit :=
  try_except_Exception
    (_call env transport_address whole_msg)
    (fun err =>
       stats_incr "callback-failure" 1 ;;;
       logging exception "Callback Failed: %s" [AExn err]).

(** ** Reading a run *)

(** The change a straight run of statements makes to the world: each counter
    of [names] goes up by one, in order, and [evs] joins the journal. *)
Definition bump (names : list string) (evs : list Event) (w : World)
    : World :=
  {| stats := foldl (fun st n => <[n := default 0 (st !! n) + 1]> st)
                (stats w) names;
     journal := journal w ++ evs |}.

(** How often [name] occurs in [names]. *)
Definition tally (names : list string) (name : string) : Z :=
  Z.of_nat (length (filter (fun n => n = name) names)).

(** The notifications handed to [conn.add], the mails handed to the
    transport and the documents handed to the index, in journal order. *)
Definition conn_adds (j : list Event) : list Notification :=
  omap (fun e => match e with ConnAdd t => Some t | _ => None end) j.

Definition sent_mails (j : list Event) : list (list string * Notification) :=
  omap (fun e => match e with
                 | SendTrapEmail r _ _ t _ => Some (r, t)
                 | _ => None
                 end) j.

Definition indexed (j : list Event) : list (gmap string val) :=
  omap (fun e => match e with IndexTrap d => Some d | _ => None end) j.

Definition rollbacks (j : list Event) : nat :=
  length (omap (fun e => match e with ConnRollback => Some tt | _ => None end)
            j).

Definition commits (j : list Event) : nat :=
  length (omap (fun e => match e with ConnCommit => Some tt | _ => None end)
            j).

(** The events that are calls of the store. *)
Definition touches_store (e : Event) : bool :=
  match e with
  | ConnAdd _ | ConnCommit | ConnRollback => true
  | _ => false
  end.

Definition store_free (evs : list Event) : Prop :=
  Forall (fun e => touches_store e = false) evs.

(** The counters of [_send_mail]. *)
Definition mail_counters : list string :=
  ["mail_sent_attempted"; "mail_sent_successful"; "mail_sent_failed"].

(** ** How far a message gets *)

(** The message is not empty and passes the validator, which yields
    [trap0]. *)
Definition admitted (env : Env) (addr : string * Z)
    (msg : list Byte.byte) (w : World) (trap0 : Notification) : Prop :=
  msg ≠ [] ∧ validate env addr msg w = (Return (Some trap0), w).

(** What the enrichment hook is called with for [trap0]. *)
Definition dde_of (env : Env) (trap0 : Notification) : DdeNotification :=
  {| dde_notification := trap0;
     dde_handler := handlers_getitem env (n_oid trap0) |}.

(** The message reaches the end of the policy resolver with policy
    [handler] and the trap in state [trap]. *)
Definition resolved (env : Env) (addr : string * Z) (msg : list Byte.byte)
    (w : World) (handler : Handler) (trap : Notification) : Prop :=
  ∃ trap0, admitted env addr msg w trap0 ∧
           resolve_policy env trap0 w = (Return (handler, trap), w).

(** The log line of an accepted trap. *)
Definition received_line (env : Env) (addr : string * Z)
    (trap : Notification) : Event :=
  Log info "Trap Received (%s) from %s"
    [AStr (ObjectId_name env (n_oid trap)); AStr addr.1].

(** The world in which the write of an accepted trap starts. *)
Definition accepted_world (env : Env) (addr : string * Z)
    (trap : Notification) (w : World) : World :=
  bump ["traps_received"; "traps_accepted"] [received_line env addr trap] w.

(** The message reaches the fan-out stage in world [w2], with policy
    [handler], the trap in state [trap] and the flag [duplicate]. *)
Definition at_fan_out (env : Env) (addr : string * Z) (msg : list Byte.byte)
    (w : World) (handler : Handler) (trap : Notification)
    (duplicate : bool) (w2 : World) : Prop :=
  ∃ trap1, resolved env addr msg w handler trap1 ∧
           blackholed handler = false ∧
           persist env addr.1 (ObjectId_name env (n_oid trap1)) trap1
             (accepted_world env addr trap1 w)
           = (Return (duplicate, trap), w2).

(** What the try block of the write yields: [conn.add], then
    [conn.commit]. *)
Definition write_outcome (env : Env) (trap : Notification) : outcome Z :=
  match conn_add env trap with
  | Return _ => conn_commit env trap
  | Raise e => Raise e
  | RaiseBase b => RaiseBase b
  end.

Definition write_events (env : Env) (trap : Notification) : list Event :=
  match conn_add env trap with
  | Return _ => [ConnAdd trap; ConnCommit]
  | Raise _ | RaiseBase _ => [ConnAdd trap]
  end.

(** The call of the mail transport for [trap] under the rule [rule], with
    the rendered subject [subj]. *)
Definition mail_call (env : Env) (rule : MailRule) (subj : string)
    (trap : Notification) : Event :=
  SendTrapEmail (recipients rule) "trapperkeeper" subj trap (hostname env).

Definition mail_answer (env : Env) (rule : MailRule) (subj : string)
    (trap : Notification) : outcome unit :=
  send_trap_email env (recipients rule) "trapperkeeper" subj trap
    (hostname env).

(** The mail rule [_send_mail] acts on: none when it returns at line 48
    (a duplicate the policy does not mail), 52 (no rule) or 56 (no
    recipients). *)
Definition mail_due (handler : Handler) (is_duplicate : bool)
    : option MailRule :=
  if is_duplicate && negb (mail_on_duplicate handler) then None else
  match mail handler with
  | None => None
  | Some rule =>
      if bool_decide (recipients rule = []) then None else Some rule
  end.

(** Whether [_send_mail] returns, read off what the interpreter's [%] and
    the transport answer: it does when no mail is due, when the mail is
    sent, and when the transport raises a [socket.error]. *)
Definition alerting_returns (env : Env) (handler : Handler)
    (trap : Notification) (is_duplicate : bool) : bool :=
  match mail_due handler is_duplicate with
  | None => true
  | Some rule =>
      match percent_format env (subject rule) (subject_mapping env trap) with
      | Return subj =>
          match mail_answer env rule subj trap with
          | Return _ => true
          | Raise e => isinstance e [socket_error]
          | RaiseBase _ => false
          end
      | Raise _ | RaiseBase _ => false
      end
  end.

(** The mails [_send_mail] hands to the transport: the due one, once its
    subject is rendered. *)
Definition mails_due (env : Env) (handler : Handler) (trap : Notification)
    (is_duplicate : bool) : list (list string * Notification) :=
  match mail_due handler is_duplicate with
  | None => []
  | Some rule =>
      match percent_format env (subject rule) (subject_mapping env trap) with
      | Return _ => [(recipients rule, trap)]
      | Raise _ | RaiseBase _ => []
      end
  end.

(** What the write hands to the fan-out, read off what the store answers:
    the flag [duplicate] and the trap.  Nothing is handed on when the store
    raises an exception that none of the three [except] clauses names. *)
Definition handed_on (env : Env) (trap : Notification)
    : option (bool * Notification) :=
  match write_outcome env trap with
  | Return i => Some (false, set_id i trap)
  | Raise e =>
      if isinstance e [OperationalError; InvalidRequestError]
      then Some (false, trap)
      else if isinstance e [IntegrityError] then Some (true, trap)
      else None
  | RaiseBase _ => None
  end.

(** The deployment [env] with another policy table and default policy. *)
Definition with_policies (tbl : gmap string Handler) (fallback : Handler)
    (env : Env) : Env :=
  {| conn_add := conn_add env;
     conn_commit := conn_commit env;
     hostname := hostname env;
     hostname_or_ip := hostname_or_ip env;
     community := community env;
     handlers := tbl;
     default_handler := fallback;
     decodeMessageVersion := decodeMessageVersion env;
     protoModules := protoModules env;
     protoVersion1 := protoVersion1 env;
     protoVersion2c := protoVersion2c env;
     decode := decode env;
     ObjectId_name := ObjectId_name env;
     SNMP_VERSIONS := SNMP_VERSIONS env;
     from_pdu := from_pdu env;
     to_dict := to_dict env;
     parse_time_string := parse_time_string env;
     send_trap_email := send_trap_email env;
     index_trap_to_elasticsearch := index_trap_to_elasticsearch env;
     dde_run := dde_run env;
     percent_format := percent_format env |}.

(** The warning of the [except] clause that handled the transient failure
    [e] of the store. *)
Definition transient_line (e : exn) : Event :=
  if bool_decide (exn_cls e = OperationalError)
  then Log warning "Failed to commit: %s" [AExn e]
  else Log warning "Bad state, rolling back transaction: %s" [AExn e].

(** The two log lines of a duplicate. *)
Definition duplicate_lines (env : Env) (addr : string * Z)
    (trap : Notification) (e : exn) : list Event :=
  [Log info
     "Duplicate Trap (%s) from %s. Likely inserted by another manager."
     [AStr (ObjectId_name env (n_oid trap)); AStr addr.1];
   Log debug "%s" [AExn e]].

(** ** The index document *)

Definition varbind_keys (vb : VarBind) : list string :=
  [vb_name vb; vb_oid vb; vb_name vb +:+ ":type"].

(** The document holds the three derived entries of [vb]. *)
Definition carries_varbind (doc : gmap string val) (vb : VarBind) : Prop :=
  doc !! vb_name vb = Some (vb_pretty_value vb) ∧
  doc !! vb_oid vb = Some (vb_value vb) ∧
  doc !! (vb_name vb +:+ ":type") = Some (vb_value_type vb).

(** The keys the end of [_index_to_elasticsearch] writes or removes. *)
Definition reserved_keys : list string :=
  ["id"; "notification_id"; "mib_name"].

(** None of the three keys of [vb] is written again after [vb]'s own
    entries: its OID is neither its name nor its type key, and no key is
    reserved or a key of a binding in [later]. *)
Definition unshadowed (vb : VarBind) (later : list VarBind) : Prop :=
  vb_oid vb ≠ vb_name vb ∧
  vb_oid vb ≠ vb_name vb +:+ ":type" ∧
  (∀ k, k ∈ varbind_keys vb → k ∉ reserved_keys) ∧
  (∀ k vb', k ∈ varbind_keys vb → vb' ∈ later → k ∉ varbind_keys vb').

(** The document [_index_to_elasticsearch] builds, when ["id"] is there. *)
Definition index_document (env : Env) (trap : Notification)
    : option (gmap string val) :=
  match merged_fields env trap !! "id" with
  | Some idv => Some (finish_index env trap (merged_fields env trap) idv)
  | None => None
  end.

Definition pprint_events (vbs : list VarBind) : list Event :=
  map (fun vb =>
         PPrint
           (list_to_map
              [("name", VStr (vb_name vb));
               ("notification_id", vb_notification_id vb);
               ("oid", VStr (vb_oid vb));
               ("pretty_value", vb_pretty_value vb);
               ("value", vb_value vb);
               ("value_type", vb_value_type vb)])) vbs.

(** What [_index_to_elasticsearch] prints before it builds the document. *)
Definition index_prologue (env : Env) (trap : Notification) : list Event :=
  [Print (rule "=" 150); PPrint (to_dict env trap); Print (rule "vb" 25)]
    ++ pprint_events (n_varbinds trap).

(** What it prints once the document [doc] is built, and the dispatch. *)
Definition index_epilogue (trap : Notification) (doc : gmap string val)
    : list Event :=
  [Print (rule "-" 25); PPrint doc; TrapPPrint trap; IndexTrap doc].

(** ** A concrete deployment

    One manager, one sender and one [linkDown] trap, used to run the
    callback on actual inputs.  The table, the hook and what the store and
    the mail transport answer are left open. *)

Module Demo.

Definition linkDown : string := "1.3.6.1.6.3.1.1.5.3".

Definition sysLocation : VarBind :=
  {| vb_name := "sysLocation.0";
     vb_notification_id := VNone;
     vb_oid := "1.3.6.1.2.1.1.6.0";
     vb_pretty_value := VStr "Lab-1";
     vb_value := VStr "Lab-1";
     vb_value_type := VStr "octet" |}.

Definition trap0 : Notification :=
  {| n_id := None;
     n_host := "192.0.2.7";
     n_version := "2c";
     n_oid := linkDown;
     n_sent := 63900000000000000;
     n_varbinds := [sysLocation];
     n_severity := None;
     n_manager := None;
     n_expires := None |}.

Definition v1 : ProtoModule := {| pm_version := 0; pm_TrapPDU := 4 |}.
Definition v2c : ProtoModule := {| pm_version := 1; pm_TrapPDU := 7 |}.

Definition whole_msg : list Byte.byte := [Byte.x30; Byte.x2c; Byte.x02].

Definition addr : string * Z := ("192.0.2.7", 162).

Definition noc : MailRule :=
  {| recipients := ["noc@example.com"];
     subject := "%(hostname)s: %(trap_name)s" |}.

Definition policy : Handler :=
  {| severity := "warning";
     expiration := Some "15m";
     blackhole := Some false;
     mail_on_duplicate := false;
     mail := Some noc |}.

Definition quiet : Handler :=
  {| severity := "informational";
     expiration := None;
     blackhole := None;
     mail_on_duplicate := false;
     mail := None |}.

Definition sink : Handler :=
  {| severity := "warning";
     expiration := Some "15m";
     blackhole := Some true;
     mail_on_duplicate := false;
     mail := Some noc |}.

(** [policy], mailing duplicates as well. *)
Definition insistent : Handler :=
  {| severity := "warning";
     expiration := Some "15m";
     blackhole := Some false;
     mail_on_duplicate := true;
     mail := Some noc |}.

(** A blackhole whose expiration is no duration. *)
Definition sink_forever : Handler :=
  {| severity := "warning";
     expiration := Some "forever";
     blackhole := Some true;
     mail_on_duplicate := false;
     mail := Some noc |}.

Definition opt_int (o : option Z) : val :=
  match o with Some z => VInt z | None => VNone end.

Definition opt_str (o : option string) : val :=
  match o with Some s => VStr s | None => VNone end.

Definition fields (t : Notification) : gmap string val :=
  list_to_map
    [("id", opt_int (n_id t)); ("host", VStr (n_host t));
     ("version", VStr (n_version t)); ("oid", VStr (n_oid t));
     ("sent", VInt (n_sent t)); ("severity", opt_str (n_severity t));
     ("manager", opt_str (n_manager t));
     ("expires", opt_int (n_expires t))].

Definition env (tbl : gmap string Handler)
    (hook : DdeNotification -> outcome DdeNotification)
    (commit : outcome Z) (send : outcome unit) : Env :=
  {| conn_add := fun _ => Return tt;
     conn_commit := fun _ => commit;
     hostname := "manager-1";
     hostname_or_ip := fun ip => ip;
     community := "public";
     handlers := tbl;
     default_handler := quiet;
     decodeMessageVersion := fun _ => Return 1;
     protoModules := {[ 0 := v1; 1 := v2c ]};
     protoVersion1 := 0;
     protoVersion2c := 1;
     decode := fun _ _ =>
       Return ({| msg_community := "public";
                  msg_pdu := {| pdu_tag := 7; pdu_body := [] |} |}, []);
     ObjectId_name := fun o =>
       if bool_decide (o = linkDown) then "IF-MIB::linkDown" else o;
     SNMP_VERSIONS := {[ 0 := "1"; 1 := "2c" ]};
     from_pdu := fun _ _ _ _ => Return (Some trap0);
     to_dict := fields;
     parse_time_string := fun s =>
       if bool_decide (s = "15m") then Return [("minutes", 15)]
       else Raise (Exn OtherException "unknown time string");
     send_trap_email := fun _ _ _ _ _ => send;
     index_trap_to_elasticsearch := fun _ => Return tt;
     dde_run := hook;
     percent_format := fun template _ => Return template |}.

Definition table : gmap string Handler := {[ linkDown := policy ]}.

Definition w0 : World := {| stats := ∅; journal := [] |}.

(** The trap once [policy] is applied: fifteen minutes to live. *)
Definition trap1 : Notification :=
  set_expires (63900000000000000 + 900000000)
    (set_manager "manager-1" (set_severity "warning" trap0)).

(** The trap once the default policy [quiet] is applied. *)
Definition trap_quiet : Notification :=
  set_manager "manager-1" (set_severity "informational" trap0).

Definition store_down : exn := Exn OperationalError "server has gone away".
Definition unique_violation : exn := Exn IntegrityError "duplicate entry".
Definition smtp_refused : exn := Exn OtherException "recipients refused".
(** What [sys.exit(3)] raises. *)
Definition plugin_exit : base_exn := BaseExn SystemExit "3".

(** The deployments the properties below are run on. *)
Definition plain : Env :=
  env table dde_run_noop (Return 40) (Return tt).
Definition exiting_plugin : Env :=
  env table (fun _ => RaiseBase plugin_exit) (Return 40) (Return tt).
Definition blackholing : Env :=
  env {[ linkDown := sink ]} dde_run_noop (Return 40) (Return tt).
Definition unlisted : Env :=
  env ∅ dde_run_noop (Return 40) (Return tt).
Definition store_unreachable : Env :=
  env table dde_run_noop (Raise store_down) (Return tt).
Definition peer_was_first : Env :=
  env table dde_run_noop (Raise unique_violation) (Return tt).
Definition store_down_mail_rejects : Env :=
  env table dde_run_noop (Raise store_down) (Raise smtp_refused).
Definition duplicate_mail_rejects : Env :=
  env {[ linkDown := insistent ]} dde_run_noop (Raise unique_violation)
    (Raise smtp_refused).
Definition duplicate_mailed : Env :=
  env {[ linkDown := insistent ]} dde_run_noop (Raise unique_violation)
    (Return tt).
Definition blackholing_forever : Env :=
  env {[ linkDown := sink_forever ]} dde_run_noop (Return 40) (Return tt).
(** No entry for any OID; the default policy is [policy], respectively the
    blackhole [sink]. *)
Definition unlisted_alerting : Env := with_policies ∅ policy plain.
Definition unlisted_dropping : Env := with_policies ∅ sink plain.

(** A second binding of the OID of [sysLocation], with another value. *)
Definition sysLocation' : VarBind :=
  {| vb_name := "sysLocation.0";
     vb_notification_id := VNone;
     vb_oid := "1.3.6.1.2.1.1.6.0";
     vb_pretty_value := VStr "Lab-2";
     vb_value := VStr "Lab-2";
     vb_value_type := VStr "octet" |}.

Definition trap_twice : Notification :=
  {| n_id := Some 40;
     n_host := "192.0.2.7";
     n_version := "2c";
     n_oid := linkDown;
     n_sent := 63900000000000000;
     n_varbinds := [sysLocation; sysLocation'];
     n_severity := Some "warning";
     n_manager := Some "manager-1";
     n_expires := None |}.

(** What the index is sent for [trap_twice]. *)
Definition doc_twice : gmap string val :=
  finish_index plain trap_twice (merged_fields plain trap_twice) (VInt 40).

End Demo.

(** * The rest of the callback *)

(** Lines 96-118 as a function of what [decoder.decode] returned: the
    community check, the two checks of the PDU and the conversion, in the
    order of the source. *)
Definition admit_decoded (env : Env) (host : string) (msg_version : Z)
    (proto_module : ProtoModule) (version : string) (req_msg : Message)
    : M (option Notification) :=
  let req_pdu := msg_pdu req_msg in
  let community' := msg_community req_msg in
  if negb (bool_decide (community env = ""))
     && negb (bool_decide (community' = community env))
  then
    stats_incr "unauthenticated-notification" 1 ;;;
    logging warning
      "Received trap from %s with invalid community: %s... discarding"
      [AStr host; AStr community'] ;;;
    ret None
  else if negb (bool_decide (pdu_tag req_pdu = pm_TrapPDU proto_module))
  then
    stats_incr "unsupported-notification" 1 ;;;
    logging warning "Received non-trap notification from %s"
      [AStr host] ;;;
    ret None
  else if negb (bool_decide
                  (msg_version ∈ [protoVersion1 env; protoVersion2c env]))
  then
    stats_incr "unsupported-notification" 1 ;;;
    logging warning "Received trap not in v1 or v2c" [] ;;;
    ret None
  else
    trap <- call (from_pdu env host proto_module version req_pdu) ;;
    match trap with
    | None =>
        stats_incr "unsupported-notification" 1 ;;;
        logging warning "Invalid trap from %s: %s"
          [AStr host; APdu req_pdu] ;;;
        ret None
    | Some trap => ret (Some trap)
    end.

(** The message gets as far as [decoder.decode]: its version is one pysnmp
    has a module for and [SNMP_VERSIONS] has a name for. *)
Definition decodable (env : Env) (msg : list Byte.byte) (msg_version : Z)
    (proto_module : ProtoModule) (version : string) : Prop :=
  msg ≠ [] ∧
  decodeMessageVersion env msg = Return msg_version ∧
  protoModules env !! msg_version = Some proto_module ∧
  SNMP_VERSIONS env !! msg_version = Some version.

(** The message decodes to [req_msg]. *)
Definition decoded (env : Env) (msg : list Byte.byte) (msg_version : Z)
    (proto_module : ProtoModule) (version : string) (req_msg : Message)
    : Prop :=
  decodable env msg msg_version proto_module version ∧
  ∃ rest, decode env msg proto_module = Return (req_msg, rest).

(** The two counters of a rejected message. *)
Definition rejection_counters : list string :=
  ["unsupported-notification"; "unauthenticated-notification"].

Definition is_log (e : Event) : bool :=
  match e with Log _ _ _ => true | _ => false end.

(** ** What one invocation can add up to

    [names] are the counters an invocation bumped and [evs] the actions it
    took.  The counters of one stage bound those of the next, and the
    counters of the store and of the mail transport are the numbers of the
    calls made. *)
Definition run_shape (names : list string) (evs : list Event) : Prop :=
  let t := tally names in
  t "unsupported-notification" + t "unauthenticated-notification"
    + t "traps_received" <= 1 ∧
  t "traps_received" = t "traps_accepted" + t "traps_blackholed" ∧
  t "traps_accepted" = t "db_write_attempted" ∧
  t "db_write_successful" + t "db_write_failed" + t "db_write_duplicate"
    <= t "db_write_attempted" ∧
  t "mail_sent_attempted"
    <= t "db_write_successful" + t "db_write_failed"
       + t "db_write_duplicate" ∧
  t "mail_sent_successful" + t "mail_sent_failed"
    <= t "mail_sent_attempted" ∧
  Z.of_nat (length (conn_adds evs)) = t "db_write_attempted" ∧
  Z.of_nat (rollbacks evs) = t "db_write_failed" + t "db_write_duplicate" ∧
  t "db_write_successful" <= Z.of_nat (commits evs)
    <= t "db_write_attempted" ∧
  Z.of_nat (length (sent_mails evs)) = t "mail_sent_attempted" ∧
  Z.of_nat (length (indexed evs))
    <= t "db_write_successful" + t "db_write_failed"
       + t "db_write_duplicate" ∧
  t "callback-failure" = 0.

(** ** More deployments

    [Lab.front] varies what the decoder and the models answer before a trap
    exists, [Lab.back] what the collaborators answer once it does; everything
    else is as in [Demo]. *)

Module Lab.

Definition trap_pdu : Pdu := {| pdu_tag := 7; pdu_body := [] |}.
Definition response_pdu : Pdu := {| pdu_tag := 2; pdu_body := [] |}.

Definition public_trap : Message :=
  {| msg_community := "public"; msg_pdu := trap_pdu |}.
Definition private_trap : Message :=
  {| msg_community := "private"; msg_pdu := trap_pdu |}.
Definition public_response : Message :=
  {| msg_community := "public"; msg_pdu := response_pdu |}.
Definition private_response : Message :=
  {| msg_community := "private"; msg_pdu := response_pdu |}.

Definition v3 : ProtoModule := {| pm_version := 3; pm_TrapPDU := 7 |}.

Definition front (ver : outcome Z) (mods : gmap Z ProtoModule)
    (names : gmap Z string) (dec : outcome (Message * list Byte.byte))
    (secret : string) (conv : outcome (option Notification)) : Env :=
  {| conn_add := fun _ => Return tt;
     conn_commit := fun _ => Return 40;
     hostname := "manager-1";
     hostname_or_ip := fun ip => ip;
     community := secret;
     handlers := Demo.table;
     default_handler := Demo.quiet;
     decodeMessageVersion := fun _ => ver;
     protoModules := mods;
     protoVersion1 := 0;
     protoVersion2c := 1;
     decode := fun _ _ => dec;
     ObjectId_name := fun o =>
       if bool_decide (o = Demo.linkDown) then "IF-MIB::linkDown" else o;
     SNMP_VERSIONS := names;
     from_pdu := fun _ _ _ _ => conv;
     to_dict := Demo.fields;
     parse_time_string := fun s =>
       if bool_decide (s = "15m") then Return [("minutes", 15)]
       else Raise (Exn OtherException "unknown time string");
     send_trap_email := fun _ _ _ _ _ => Return tt;
     index_trap_to_elasticsearch := fun _ => Return tt;
     dde_run := dde_run_noop;
     percent_format := fun template _ => Return template |}.

Definition mods : gmap Z ProtoModule := {[ 0 := Demo.v1; 1 := Demo.v2c ]}.
Definition names : gmap Z string := {[ 0 := "1"; 1 := "2c" ]}.

Definition truncated : exn := Exn ProtocolError "truncated message".

Definition back (tbl : gmap string Handler)
    (hook : DdeNotification -> outcome DdeNotification)
    (parse : string -> outcome (list (string * Z)))
    (add : outcome unit) (commit : outcome Z)
    (fmt : string -> outcome string) (send : outcome unit)
    (dict : Notification -> gmap string val) (idx : outcome unit) : Env :=
  {| conn_add := fun _ => add;
     conn_commit := fun _ => commit;
     hostname := "manager-1";
     hostname_or_ip := fun ip => ip;
     community := "public";
     handlers := tbl;
     default_handler := Demo.quiet;
     decodeMessageVersion := fun _ => Return 1;
     protoModules := mods;
     protoVersion1 := 0;
     protoVersion2c := 1;
     decode := fun _ _ => Return (public_trap, []);
     ObjectId_name := fun o =>
       if bool_decide (o = Demo.linkDown) then "IF-MIB::linkDown" else o;
     SNMP_VERSIONS := names;
     from_pdu := fun _ _ _ _ => Return (Some Demo.trap0);
     to_dict := dict;
     parse_time_string := parse;
     send_trap_email := fun _ _ _ _ _ => send;
     index_trap_to_elasticsearch := fun _ => idx;
     dde_run := hook;
     percent_format := fun template _ => fmt template |}.

Definition quarter_hour (s : string) : outcome (list (string * Z)) :=
  if bool_decide (s = "15m") then Return [("minutes", 15)]
  else Raise (Exn OtherException "unknown time string").

Definition as_is (template : string) : outcome string := Return template.

Definition disk_full : exn := Exn OtherException "disk full".
Definition bad_template : exn := Exn KeyError "trap_nmae".
Definition bad_duration : exn := Exn OtherException "unparsable duration".

(** The policy of [Demo] without a mail rule. *)
Definition silent : Handler :=
  {| severity := "warning";
     expiration := Some "15m";
     blackhole := Some false;
     mail_on_duplicate := false;
     mail := None |}.

(** The base fields without the identifier. *)
Definition fields_without_id (t : Notification) : gmap string val :=
  delete "id" (Demo.fields t).

End Lab.

(** * [trapdoor/routes.py]

    [HANDLERS] is the routing table of the web front end: pairs of a regular
    expression and a handler class, handed to the web framework.  The
    framework tries the entries in order and takes the first whose pattern
    matches the whole request path, passing the named groups of the match to
    the handler as keyword arguments.  The patterns are kept as syntax trees
    of the fragment of Python's [re] they use, with the matcher of that
    fragment: backtracking, greedy, anchored at both ends. *)

Module Routes.

Inductive cls : Type :=
| dot      (* [.]: any character but a newline *)
| digit.   (* [\d] *)

Definition newline : Ascii.ascii := Ascii.ascii_of_nat 10.
Definition slash : Ascii.ascii := Ascii.ascii_of_nat 47.

Definition in_cls (k : cls) (c : Ascii.ascii) : bool :=
  match k with
  | dot => negb (Ascii.eqb c newline)
  | digit =>
      (48 <=? Ascii.nat_of_ascii c)%nat && (Ascii.nat_of_ascii c <=? 57)%nat
  end.

Inductive atom : Type :=
| Chr (c : Ascii.ascii)            (* a literal character *)
| Opt (a : atom)                   (* [a?] *)
| Star (k : cls)                   (* [k*] *)
| Plus (k : cls)                   (* [k+] *)
| Group (name : string) (a : atom).  (* [(?P<name>a)] *)

Definition pattern : Type := list atom.

Definition render_cls (k : cls) : string :=
  match k with dot => "." | digit => "\d" end.

Fixpoint render_atom (a : atom) : string :=
  match a with
  | Chr c => String c ""
  | Opt a => render_atom a +:+ "?"
  | Star k => render_cls k +:+ "*"
  | Plus k => render_cls k +:+ "+"
  | Group name a => "(?P<" +:+ name +:+ ">" +:+ render_atom a +:+ ")"
  end.

(** The pattern as it is written in the source. *)
Definition render (p : pattern) : string :=
  String.concat "" (map render_atom p).

(** The pattern of a string without special characters. *)
Definition lit (s : string) : pattern := map Chr (list_ascii_of_string s).

(** The ways [k*] can match at the head of [s], longest first: what it
    consumes and what it leaves. *)
Fixpoint star_cands (k : cls) (s : string) : list (string * string) :=
  match s with
  | String c s' =>
      if in_cls k c
      then map (fun mr => (String c mr.1, mr.2)) (star_cands k s') ++ [("", s)]
      else [("", s)]
  | EmptyString => [("", "")]
  end.

Definition nonempty (s : string) : bool :=
  match s with EmptyString => false | _ => true end.

(** The ways an atom can match at the head of [s], in the order the
    matcher tries them: what it consumes, the groups it binds, and what it
    leaves. *)
Fixpoint cands (a : atom) (s : string)
    : list (string * list (string * string) * string) :=
  match a with
  | Chr c =>
      match s with
      | String c' s' =>
          if Ascii.eqb c c' then [(String c "", [], s')] else []
      | EmptyString => []
      end
  | Opt a => cands a s ++ [("", [], s)]
  | Star k => map (fun mr => (mr.1, [], mr.2)) (star_cands k s)
  | Plus k =>
      map (fun mr => (mr.1, [], mr.2))
        (List.filter (fun mr => nonempty mr.1) (star_cands k s))
  | Group name a =>
      map (fun mbr => (mbr.1.1, mbr.1.2 ++ [(name, mbr.1.1)], mbr.2))
        (cands a s)
  end.

(** [$]: the end of the string, or just before a newline that ends it. *)
Definition at_end (s : string) : bool :=
  match s with
  | EmptyString => true
  | String c EmptyString => Ascii.eqb c newline
  | _ => false
  end.

(** The first alternative that succeeds. *)
Fixpoint first_some {A B} (f : A -> option B) (l : list A) : option B :=
  match l with
  | [] => None
  | x :: l' => match f x with Some y => Some y | None => first_some f l' end
  end.

(** [re.compile(pattern + "$").match(s)]: the named groups of the first
    match in backtracking order, if there is one. *)
Fixpoint match_pat (p : pattern) (s : string)
    : option (list (string * string)) :=
  match p with
  | [] => if at_end s then Some [] else None
  | a :: p' =>
      first_some
        (fun mbr =>
           match match_pat p' mbr.2 with
           | Some kw => Some (mbr.1.2 ++ kw)
           | None => None
           end)
        (cands a s)
  end.

(** The handler classes of [trapdoor.handlers]. *)
Inductive handler : Type := Index | Resolve | ResolveAll | ApiVarBinds | NotFound.

Definition HANDLERS : list (pattern * handler) :=
  [ (lit "/", Index);
    (lit "/resolve" ++ [Opt (Chr slash)], Resolve);
    (lit "/resolve_all" ++ [Opt (Chr slash)], ResolveAll);
    (* API *)
    (lit "/api/varbinds/" ++ [Group "notification_id" (Plus digit)],
     ApiVarBinds);
    (* Default *)
    (lit "/" ++ [Star dot], NotFound) ].

(** The handler a request path is given to, and its keyword arguments. *)
Definition dispatch (path : string)
    : option (handler * list (string * string)) :=
  first_some
    (fun ph =>
       match match_pat ph.1 path with
       | Some kw => Some (ph.2, kw)
       | None => None
       end)
    HANDLERS.

(** Every character of [s] is in the class [k]. *)
Fixpoint all_in (k : cls) (s : string) : bool :=
  match s with
  | EmptyString => true
  | String c s' => in_cls k c && all_in k s'
  end.

End Routes.

(** * Properties *)

(** ** The algebra of [bump] *)

Lemma bump_nil w : bump [] [] w = w.
Proof. destruct w as [st j]. unfold bump; simpl. by rewrite app_nil_r. Qed.

Lemma bump_bump names1 evs1 names2 evs2 w :
  bump names2 evs2 (bump names1 evs1 w)
  = bump (names1 ++ names2) (evs1 ++ evs2) w.
Proof. unfold bump; simpl. by rewrite foldl_app, app_assoc. Qed.

Lemma journal_bump names evs w : journal (bump names evs w) = journal w ++ evs.
Proof. done. Qed.

Lemma tally_cons n names name :
  tally (n :: names) name
  = (if bool_decide (n = name) then 1 else 0) + tally names name.
Proof.
  unfold tally. rewrite filter_cons.
  case_bool_decide; case_decide; try done; simpl length; lia.
Qed.

Lemma counter_bump names evs w name :
  counter name (bump names evs w) = counter name w + tally names name.
Proof.
  unfold counter, bump; simpl. generalize (stats w) as st.
  induction names as [|n names IH]; intros st; simpl.
  - unfold tally; simpl. lia.
  - rewrite IH, tally_cons. case_bool_decide as Hn.
    + subst n. rewrite lookup_insert_eq. simpl. lia.
    + rewrite lookup_insert_ne by done. lia.
Qed.

(** ** Running the primitives *)

Lemma stats_incr_run n w : stats_incr n 1 w = (Return tt, bump [n] [] w).
Proof.
  unfold stats_incr, bump, counter; simpl. by rewrite app_nil_r.
Qed.

Lemma emit_run e w : emit e w = (Return tt, bump [] [e] w).
Proof. done. Qed.

Lemma logging_run f fmt args w :
  logging f fmt args w = (Return tt, bump [] [Log f fmt args] w).
Proof. done. Qed.

Lemma bind_run {A B} (c : M A) (k : A -> M B) w a w' :
  c w = (Return a, w') -> bind c k w = k a w'.
Proof. unfold bind. by intros ->. Qed.

Lemma bind_raise {A B} (c : M A) (k : A -> M B) w e w' :
  c w = (Raise e, w') -> bind c k w = (Raise e, w').
Proof. unfold bind. by intros ->. Qed.

Lemma bind_raise_base {A B} (c : M A) (k : A -> M B) w b w' :
  c w = (RaiseBase b, w') -> bind c k w = (RaiseBase b, w').
Proof. unfold bind. by intros ->. Qed.

Lemma bind_stats_incr {B} n (k : unit -> M B) w :
  bind (stats_incr n 1) k w = k tt (bump [n] [] w).
Proof. apply bind_run, stats_incr_run. Qed.

Lemma bind_emit {B} e (k : unit -> M B) w :
  bind (emit e) k w = k tt (bump [] [e] w).
Proof. done. Qed.

Lemma bind_logging {B} f fmt args (k : unit -> M B) w :
  bind (logging f fmt args) k w = k tt (bump [] [Log f fmt args] w).
Proof. done. Qed.

Lemma bind_call {A B} (o : outcome A) (k : A -> M B) w :
  bind (call o) k w
  = match o with
    | Return a => k a w
    | Raise e => (Raise e, w)
    | RaiseBase b => (RaiseBase b, w)
    end.
Proof. unfold bind, call. by destruct o. Qed.

Lemma extern_run {A} ev (o : outcome A) w : extern ev o w = (o, bump [] [ev] w).
Proof. unfold extern. rewrite bind_emit. done. Qed.

Lemma bind_extern {A B} ev (o : outcome A) (k : A -> M B) w :
  bind (extern ev o) k w
  = match o with
    | Return a => k a (bump [] [ev] w)
    | Raise e => (Raise e, bump [] [ev] w)
    | RaiseBase b => (RaiseBase b, bump [] [ev] w)
    end.
Proof. unfold bind at 1. rewrite extern_run. by destruct o. Qed.

Lemma bind_ret {A B} (a : A) (k : A -> M B) w : bind (ret a) k w = k a w.
Proof. done. Qed.

(** One step of a run: the first statement is executed and its effect is
    merged into the [bump] that stands for the statements before it. *)
Ltac step :=
  first
    [ rewrite bind_stats_incr | rewrite bind_logging | rewrite bind_emit
    | rewrite bind_extern | rewrite bind_call | rewrite bind_ret
    | rewrite stats_incr_run | rewrite logging_run | rewrite emit_run
    | rewrite extern_run ];
  rewrite ?bump_bump; simpl app;
  rewrite <- ?app_assoc, ?app_nil_r; simpl app.

Ltac steps := repeat step.

Lemma isinstance_class e c cs :
  exn_cls e = c -> isinstance e cs = bool_decide (c ∈ cs).
Proof. by intros <-. Qed.

(** Evaluates the class tests of [except] clauses on a known class. *)
Ltac decide_classes :=
  repeat match goal with
         | |- context [bool_decide (?c ∈ ?cs)] =>
             let b := eval vm_compute in (bool_decide (c ∈ cs)) in
             change (bool_decide (c ∈ cs)) with b
         | |- context [bool_decide (?c = ?d :> exn_class)] =>
             let b := eval vm_compute in (bool_decide (c = d)) in
             change (bool_decide (c = d)) with b
         end;
  cbv beta iota.

(** ** C10 *)

(** C10. An empty message payload makes [_call] return at once: the world
    (every counter, the journal of log lines, store, mail and index actions)
    is left as it was, and so does [__call__]. *)
Theorem empty_payload_is_noop env addr w :
  _call env addr [] w = (Return tt, w) ∧
  __call__ env addr [] w = (Return tt, w).
Proof. split; reflexivity. Qed.

(** ** The validator *)

(** Case analysis on whatever the run scrutinises next. *)
Ltac branch :=
  match goal with
  | |- context [match ?x with _ => _ end] => destruct x eqn:?
  | |- context [if ?b then _ else _] => destruct b eqn:?
  | H : context [match ?x with _ => _ end] |- _ => destruct x eqn:?
  | H : context [if ?b then _ else _] |- _ => destruct b eqn:?
  end.

(** A message the validator lets through leaves no trace: no counter moves
    and nothing is logged before the policy resolver. *)
Lemma validate_accept env addr msg w t w1 :
  validate env addr msg w = (Return (Some t), w1) -> w1 = w.
Proof.
  unfold validate, try_except, select_clause, bind, call, ret.
  intros H. repeat (branch; simpl in *; simplify_eq; try done).
Qed.

Lemma _call_admitted env addr msg w trap0 :
  admitted env addr msg w trap0 ->
  _call env addr msg w = process env addr.1 trap0 w.
Proof.
  intros [Hne Hv]. unfold _call.
  rewrite bool_decide_eq_false_2 by done.
  by rewrite (bind_run _ _ _ _ _ Hv).
Qed.

(** ** The policy resolver *)

(** The resolver itself touches neither the counters nor the journal. *)
Lemma resolve_policy_world env trap w o w1 :
  resolve_policy env trap w = (o, w1) -> w1 = w.
Proof.
  unfold resolve_policy. rewrite bind_call.
  destruct (dde_run env _) as [d|e|b]; [|by intros [= _ <-]..].
  rewrite bind_call.
  destruct (apply_policy env _ _) as [t|e|b]; by intros [= _ <-].
Qed.


Lemma resolve_policy_run env trap0 d w :
  dde_run env (dde_of env trap0) = Return d ->
  resolve_policy env trap0 w
  = match apply_policy env (dde_handler d) (dde_notification d) with
    | Return t => (Return (dde_handler d, t), w)
    | Raise e => (Raise e, w)
    | RaiseBase b => (RaiseBase b, w)
    end.
Proof.
  intros H. unfold resolve_policy. fold (dde_of env trap0).
  rewrite bind_call, H, bind_call.
  by destruct (apply_policy env _ _).
Qed.

Lemma process_resolved env host trap0 w h trap :
  resolve_policy env trap0 w = (Return (h, trap), w) ->
  process env host trap0 w
  = if blackholed h then
      (Return tt,
       bump ["traps_received"; "traps_blackholed"]
         [Log debug "Blackholed %s from %s"
            [AStr (ObjectId_name env (n_oid trap)); AStr host]] w)
    else
      bind (persist env host (ObjectId_name env (n_oid trap)) trap)
        (fun written => fan_out env h written.2 written.1)
        (bump ["traps_received"; "traps_accepted"]
           [Log info "Trap Received (%s) from %s"
              [AStr (ObjectId_name env (n_oid trap)); AStr host]] w).
Proof.
  intros H. unfold process. rewrite (bind_run _ _ _ _ _ H). simpl.
  step. destruct (blackholed h); by steps.
Qed.

Lemma _call_resolved env addr msg w h trap :
  resolved env addr msg w h trap ->
  _call env addr msg w
  = if blackholed h then
      (Return tt,
       bump ["traps_received"; "traps_blackholed"]
         [Log debug "Blackholed %s from %s"
            [AStr (ObjectId_name env (n_oid trap)); AStr addr.1]] w)
    else
      bind (persist env addr.1 (ObjectId_name env (n_oid trap)) trap)
        (fun written => fan_out env h written.2 written.1)
        (accepted_world env addr trap w).
Proof.
  intros (trap0 & Ha & Hr).
  rewrite (_call_admitted _ _ _ _ _ Ha). by apply process_resolved.
Qed.

(** ** The write *)

Lemma try_body_write env trap w :
  (stats_incr "db_write_attempted" 1 ;;;
   extern (ConnAdd trap) (conn_add env trap) ;;;
   i <- extern ConnCommit (conn_commit env trap) ;;
   stats_incr "db_write_successful" 1 ;;;
   ret (false, set_id i trap)) w
  = match write_outcome env trap with
    | Return i =>
        (Return (false, set_id i trap),
         bump ["db_write_attempted"; "db_write_successful"]
           (write_events env trap) w)
    | Raise e =>
        (Raise e, bump ["db_write_attempted"] (write_events env trap) w)
    | RaiseBase b =>
        (RaiseBase b, bump ["db_write_attempted"] (write_events env trap) w)
    end.
Proof.
  unfold write_outcome, write_events. steps.
  destruct (conn_add env trap) as [[]|e|b]; [|done..]. steps.
  destruct (conn_commit env trap) as [i|e|b]; [|done..]. by steps.
Qed.

Lemma persist_committed env host name trap w i :
  write_outcome env trap = Return i ->
  persist env host name trap w
  = (Return (false, set_id i trap),
     bump ["db_write_attempted"; "db_write_successful"]
       (write_events env trap) w).
Proof.
  intros H. unfold persist, try_except.
  by rewrite try_body_write, H.
Qed.

Lemma persist_transient env host name trap w e :
  write_outcome env trap = Raise e ->
  exn_cls e ∈ [OperationalError; InvalidRequestError] ->
  persist env host name trap w
  = (Return (false, trap),
     bump ["db_write_attempted"; "db_write_failed"]
       (write_events env trap ++ [ConnRollback; transient_line e]) w).
Proof.
  intros H Hc. unfold persist, try_except.
  rewrite try_body_write, H. unfold select_clause, transient_line.
  rewrite !elem_of_cons in Hc.
  destruct Hc as [Hc|[Hc|Hc]]; [| |by apply elem_of_nil in Hc];
    rewrite !(isinstance_class _ _ _ Hc), Hc; decide_classes;
    by steps.
Qed.

Lemma persist_duplicate env host name trap w e :
  write_outcome env trap = Raise e ->
  exn_cls e = IntegrityError ->
  persist env host name trap w
  = (Return (true, trap),
     bump ["db_write_attempted"; "db_write_duplicate"]
       (write_events env trap ++
        [ConnRollback;
         Log info
           "Duplicate Trap (%s) from %s. Likely inserted by another manager."
           [AStr name; AStr host];
         Log debug "%s" [AExn e]]) w).
Proof.
  intros H Hc. unfold persist, try_except.
  rewrite try_body_write, H. unfold select_clause.
  rewrite !(isinstance_class _ _ _ Hc). decide_classes. by steps.
Qed.

Lemma persist_unhandled env host name trap w e :
  write_outcome env trap = Raise e ->
  exn_cls e ∉ [OperationalError; InvalidRequestError; IntegrityError] ->
  persist env host name trap w
  = (Raise e, bump ["db_write_attempted"] (write_events env trap) w).
Proof.
  intros H Hc. unfold persist, try_except.
  rewrite try_body_write, H. unfold select_clause, isinstance.
  rewrite !bool_decide_eq_false_2; [done|..];
    intros Hin; apply Hc;
    apply list_elem_of_In; apply list_elem_of_In in Hin;
    simpl in *; tauto.
Qed.

Lemma persist_exits env host name trap w b :
  write_outcome env trap = RaiseBase b ->
  persist env host name trap w
  = (RaiseBase b, bump ["db_write_attempted"] (write_events env trap) w).
Proof.
  intros H. unfold persist, try_except. by rewrite try_body_write, H.
Qed.

(** ** Alerting *)

Lemma _send_mail_suppressed env h trap w :
  mail_on_duplicate h = false ->
  _send_mail env h trap true w = (Return tt, w).
Proof. intros H. unfold _send_mail. by rewrite H. Qed.

Lemma _send_mail_unconfigured env h trap dup w :
  match mail h with Some rule => recipients rule = [] | None => True end ->
  _send_mail env h trap dup w = (Return tt, w).
Proof.
  intros H. unfold _send_mail.
  destruct (dup && negb (mail_on_duplicate h)); [done|].
  destruct (mail h) as [rule|]; [|done].
  by rewrite bool_decide_eq_true_2.
Qed.

Lemma _send_mail_due env h trap dup w rule subj :
  dup = false ∨ mail_on_duplicate h = true ->
  mail h = Some rule ->
  recipients rule ≠ [] ->
  percent_format env (subject rule) (subject_mapping env trap) = Return subj ->
  _send_mail env h trap dup w
  = match mail_answer env rule subj trap with
    | Return _ =>
        (Return tt,
         bump ["mail_sent_attempted"; "mail_sent_successful"]
           [mail_call env rule subj trap] w)
    | Raise e =>
        if isinstance e [socket_error] then
          (Return tt,
           bump ["mail_sent_attempted"; "mail_sent_failed"]
             [mail_call env rule subj trap;
              Log warning "Failed to send e-mail for trap: %s" [AExn e]] w)
        else
          (Raise e,
           bump ["mail_sent_attempted"] [mail_call env rule subj trap] w)
    | RaiseBase b =>
        (RaiseBase b,
         bump ["mail_sent_attempted"] [mail_call env rule subj trap] w)
    end.
Proof.
  intros Hd Hm Hr Hs. unfold _send_mail.
  replace (dup && negb (mail_on_duplicate h)) with false
    by (destruct Hd as [-> | ->]; [done | by destruct dup]).
  rewrite Hm, bool_decide_eq_false_2 by done.
  rewrite bind_call, Hs. unfold try_except, mail_answer, mail_call.
  steps.
  destruct (send_trap_email env _ _ _ _ _) as [[]|e|b]; [by steps| |done].
  unfold select_clause. destruct (isinstance e [socket_error]); by steps.
Qed.

(** ** Indexing *)

Lemma pprint_varbinds_run vbs w :
  pprint_varbinds vbs w = (Return tt, bump [] (pprint_events vbs) w).
Proof.
  revert w. induction vbs as [|vb vbs IH]; intros w; simpl.
  - by rewrite bump_nil.
  - step. rewrite IH. by rewrite bump_bump.
Qed.

Lemma _index_to_elasticsearch_run env trap w :
  _index_to_elasticsearch env trap w
  = match index_document env trap with
    | Some doc =>
        (index_trap_to_elasticsearch env doc,
         bump [] (index_prologue env trap ++ index_epilogue trap doc) w)
    | None =>
        (Raise (Exn KeyError "id"), bump [] (index_prologue env trap) w)
    end.
Proof.
  unfold _index_to_elasticsearch, index_document, index_prologue,
    index_epilogue.
  steps. rewrite (bind_run _ _ _ _ _ (pprint_varbinds_run _ _)).
  rewrite bump_bump. simpl app. step. unfold getitem.
  destruct (merged_fields env trap !! "id") as [idv|]; [|done].
  by steps.
Qed.

Lemma index_document_id env trap idv :
  merged_fields env trap !! "id" = Some idv ->
  index_document env trap
  = Some (finish_index env trap (merged_fields env trap) idv).
Proof. intros H. unfold index_document. by rewrite H. Qed.

(** ** What the journal projections see *)

Lemma conn_adds_app j1 j2 : conn_adds (j1 ++ j2) = conn_adds j1 ++ conn_adds j2.
Proof. apply omap_app. Qed.

Lemma sent_mails_app j1 j2 :
  sent_mails (j1 ++ j2) = sent_mails j1 ++ sent_mails j2.
Proof. apply omap_app. Qed.

Lemma indexed_app j1 j2 : indexed (j1 ++ j2) = indexed j1 ++ indexed j2.
Proof. apply omap_app. Qed.

Lemma rollbacks_app j1 j2 :
  rollbacks (j1 ++ j2) = (rollbacks j1 + rollbacks j2)%nat.
Proof. unfold rollbacks. by rewrite omap_app, length_app. Qed.

Lemma commits_app j1 j2 : commits (j1 ++ j2) = (commits j1 + commits j2)%nat.
Proof. unfold commits. by rewrite omap_app, length_app. Qed.

(** ** C2: the top-level boundary *)

(** C2, as amended.  The boundary of [__call__] is [except Exception]: what
    it does is decided by what the pipeline [_call] does.  When [_call]
    returns, the boundary adds nothing.  When [_call] raises an instance
    [err] of [Exception], the boundary catches it: the invocation returns
    normally, the counter ["callback-failure"] goes up by exactly 1, no other
    counter moves, and one [logging.exception] line carrying [err] joins the
    journal.  When [_call] raises an exception that is not an instance of
    [Exception], the boundary does not catch it: the invocation raises it to
    its caller, and nothing is counted or logged for it.  So an invocation
    never raises an instance of [Exception], whatever the message and
    whatever the collaborators do. *)
Theorem callback_boundary env addr msg w :
  (∀ err, (__call__ env addr msg w).1 ≠ Raise err) ∧
  match _call env addr msg w with
  | (Return _, w1) => __call__ env addr msg w = (Return tt, w1)
  | (Raise err, w1) =>
      ∃ w', __call__ env addr msg w = (Return tt, w') ∧
        counter "callback-failure" w' = counter "callback-failure" w1 + 1 ∧
        (∀ name, name ≠ "callback-failure" ->
                 counter name w' = counter name w1) ∧
        journal w' = journal w1 ++
                     [Log exception "Callback Failed: %s" [AExn err]]
  | (RaiseBase b, w1) => __call__ env addr msg w = (RaiseBase b, w1)
  end.
Proof.
  unfold __call__, try_except_Exception.
  destruct (_call env addr msg w) as [[[]|err|b] w1]; [done| |done].
  steps. split; [done|]. eexists; split; [done|].
  split_and!.
  - rewrite counter_bump, tally_cons. by rewrite bool_decide_eq_true_2.
  - intros name Hne. rewrite counter_bump, tally_cons.
    rewrite bool_decide_eq_false_2 by done. unfold tally; simpl. lia.
  - done.
Qed.

(** The claim of C2 fails when the pipeline raises an exception outside
    [Exception]: with a plugin that calls [sys.exit(3)] for an admitted
    trap, [__call__] does not return but raises [SystemExit] to its caller,
    ["callback-failure"] is not incremented and nothing is logged. *)
Lemma callback_can_raise :
  admitted Demo.exiting_plugin Demo.addr Demo.whole_msg Demo.w0 Demo.trap0 ∧
  dde_run Demo.exiting_plugin (dde_of Demo.exiting_plugin Demo.trap0)
  = RaiseBase Demo.plugin_exit ∧
  __call__ Demo.exiting_plugin Demo.addr Demo.whole_msg Demo.w0
  = (RaiseBase Demo.plugin_exit, Demo.w0) ∧
  ¬ (∃ w', __call__ Demo.exiting_plugin Demo.addr Demo.whole_msg Demo.w0
           = (Return tt, w')) ∧
  counter "callback-failure"
    (__call__ Demo.exiting_plugin Demo.addr Demo.whole_msg Demo.w0).2 = 0 ∧
  journal (__call__ Demo.exiting_plugin Demo.addr Demo.whole_msg Demo.w0).2
  = [].
Proof.
  assert (__call__ Demo.exiting_plugin Demo.addr Demo.whole_msg Demo.w0
          = (RaiseBase Demo.plugin_exit, Demo.w0)) as Hc
    by (vm_compute; reflexivity).
  split_and!.
  - split; [done | vm_compute; reflexivity].
  - reflexivity.
  - exact Hc.
  - intros (w' & Hr). rewrite Hc in Hr. discriminate.
  - by rewrite Hc.
  - by rewrite Hc.
Qed.

(** ** C1: a failing enrichment hook *)




(** ** C6: blackholed traps *)

(** C6, as amended.  Let the enrichment hook return, for an admitted trap,
    a policy with the blackhole flag set.  The policy is applied to the trap
    (lines 124-130) before the flag is tested (line 134).  When that
    succeeds, [_call] returns after counting the trap under
    ["traps_received"] and ["traps_blackholed"] and writing one debug line;
    when it raises, [_call] raises the same exception with the world
    untouched, so the trap is neither counted as blackholed nor logged.
    Either way the store is not called, no mail is sent, nothing is indexed,
    and no counter other than ["traps_received"] and ["traps_blackholed"]
    moves: in particular ["traps_accepted"] stays. *)
Theorem blackholed_trap_is_dropped env addr msg w trap0 d :
  admitted env addr msg w trap0 ->
  dde_run env (dde_of env trap0) = Return d ->
  blackhole (dde_handler d) = Some true ->
  let run := _call env addr msg w in
  match apply_policy env (dde_handler d) (dde_notification d) with
  | Return trap =>
      run = (Return tt,
             bump ["traps_received"; "traps_blackholed"]
               [Log debug "Blackholed %s from %s"
                  [AStr (ObjectId_name env (n_oid trap)); AStr addr.1]] w) ∧
      counter "traps_received" run.2 = counter "traps_received" w + 1 ∧
      counter "traps_blackholed" run.2 = counter "traps_blackholed" w + 1
  | Raise err => run = (Raise err, w)
  | RaiseBase b => run = (RaiseBase b, w)
  end ∧
  conn_adds (journal run.2) = conn_adds (journal w) ∧
  commits (journal run.2) = commits (journal w) ∧
  rollbacks (journal run.2) = rollbacks (journal w) ∧
  sent_mails (journal run.2) = sent_mails (journal w) ∧
  indexed (journal run.2) = indexed (journal w) ∧
  counter "traps_accepted" run.2 = counter "traps_accepted" w ∧
  (∀ name, name ∉ ["traps_received"; "traps_blackholed"] ->
           counter name run.2 = counter name w).
Proof.
  intros Ha Hd Hb run.
  assert (run = process env addr.1 trap0 w) as Hrun
    by apply (_call_admitted _ _ _ _ _ Ha).
  pose proof (resolve_policy_run env trap0 d w Hd) as Hres.
  destruct (apply_policy env (dde_handler d) (dde_notification d))
    as [trap|err|b] eqn:Hap.
  - rewrite (process_resolved _ _ _ _ _ _ Hres) in Hrun.
    unfold blackholed in Hrun. rewrite Hb in Hrun. simpl in Hrun.
    rewrite Hrun. cbn [snd]. split_and!.
    + done.
    + rewrite counter_bump. unfold tally; simpl. lia.
    + rewrite counter_bump. unfold tally; simpl. lia.
    + rewrite journal_bump, conn_adds_app. simpl. by rewrite app_nil_r.
    + rewrite journal_bump, commits_app. unfold commits at 2. simpl. lia.
    + rewrite journal_bump, rollbacks_app. unfold rollbacks at 2. simpl. lia.
    + rewrite journal_bump, sent_mails_app. simpl. by rewrite app_nil_r.
    + rewrite journal_bump, indexed_app. simpl. by rewrite app_nil_r.
    + rewrite counter_bump. unfold tally; simpl. lia.
    + intros name Hn. rewrite counter_bump, !tally_cons.
      rewrite !not_elem_of_cons in Hn. destruct Hn as (H1 & H2 & _).
      rewrite !bool_decide_eq_false_2 by done. unfold tally; simpl. lia.
  - unfold process in Hrun. rewrite (bind_raise _ _ _ _ _ Hres) in Hrun.
    by rewrite Hrun.
  - unfold process in Hrun. rewrite (bind_raise_base _ _ _ _ _ Hres) in Hrun.
    by rewrite Hrun.
Qed.

Lemma blackholed_trap_is_dropped_witness :
  _call Demo.blackholing Demo.addr Demo.whole_msg Demo.w0
  = (Return tt,
     bump ["traps_received"; "traps_blackholed"]
       [Log debug "Blackholed %s from %s"
          [AStr "IF-MIB::linkDown"; AStr "192.0.2.7"]] Demo.w0) ∧
  conn_adds (journal (_call Demo.blackholing Demo.addr Demo.whole_msg
                        Demo.w0).2) = [] ∧
  counter "traps_accepted"
    (_call Demo.blackholing Demo.addr Demo.whole_msg Demo.w0).2 = 0.
Proof.
  destruct (blackholed_trap_is_dropped Demo.blackholing Demo.addr
              Demo.whole_msg Demo.w0 Demo.trap0
              (dde_of Demo.blackholing Demo.trap0))
    as ((H1 & _) & H2 & _ & _ & _ & _ & H3 & _).
  - split; [done | vm_compute; reflexivity].
  - reflexivity.
  - reflexivity.
  - split_and!; [exact H1 | exact H2 | exact H3].
Defined.

(** The claim of C6 fails for a blackhole policy that cannot be applied:
    with an expiration that is no duration, the trap of a blackholed OID is
    not counted under ["traps_blackholed"] (nor under ["traps_received"])
    and no debug line is written; the pipeline raises, and the only trace is
    the count and the log line of the top-level boundary. *)
Lemma blackholed_trap_can_go_uncounted :
  admitted Demo.blackholing_forever Demo.addr Demo.whole_msg Demo.w0
    Demo.trap0 ∧
  dde_run Demo.blackholing_forever
    (dde_of Demo.blackholing_forever Demo.trap0)
  = Return {| dde_notification := Demo.trap0;
              dde_handler := Demo.sink_forever |} ∧
  blackhole Demo.sink_forever = Some true ∧
  _call Demo.blackholing_forever Demo.addr Demo.whole_msg Demo.w0
  = (Raise (Exn OtherException "unknown time string"), Demo.w0) ∧
  counter "traps_blackholed"
    (__call__ Demo.blackholing_forever Demo.addr Demo.whole_msg Demo.w0).2
  = 0 ∧
  journal (__call__ Demo.blackholing_forever Demo.addr Demo.whole_msg
             Demo.w0).2
  = [Log exception "Callback Failed: %s"
       [AExn (Exn OtherException "unknown time string")]].
Proof.
  split_and!.
  - split; [done | vm_compute; reflexivity].
  - reflexivity.
  - reflexivity.
  - vm_compute; reflexivity.
  - vm_compute; reflexivity.
  - vm_compute; reflexivity.
Qed.

(** ** What each stage leaves alone *)

Lemma store_free_app evs1 evs2 :
  store_free evs1 -> store_free evs2 -> store_free (evs1 ++ evs2).
Proof. unfold store_free. rewrite Forall_app. tauto. Qed.

Lemma store_free_conn_adds evs : store_free evs -> conn_adds evs = [].
Proof.
  induction 1 as [|e evs He _ IH]; [done|].
  unfold conn_adds in *. by destruct e; simpl in *.
Qed.

Lemma store_free_rollbacks evs : store_free evs -> rollbacks evs = 0%nat.
Proof.
  induction 1 as [|e evs He _ IH]; [done|].
  unfold rollbacks in *. by destruct e; simpl in *.
Qed.

Lemma store_free_commits evs : store_free evs -> commits evs = 0%nat.
Proof.
  induction 1 as [|e evs He _ IH]; [done|].
  unfold commits in *. by destruct e; simpl in *.
Qed.

Lemma store_free_pprint vbs : store_free (pprint_events vbs).
Proof. unfold store_free, pprint_events. by apply Forall_map, Forall_true. Qed.

Lemma tally_notin names name : name ∉ names -> tally names name = 0.
Proof.
  induction names as [|n names IH]; intros Hn; [done|].
  rewrite not_elem_of_cons in Hn. destruct Hn as [Hne Hn].
  rewrite tally_cons, IH by done. by rewrite bool_decide_eq_false_2.
Qed.

(** A name that is none of a list written out in full. *)
Ltac notin_lists :=
  let H := fresh in
  intros H; apply list_elem_of_In in H; simpl in H;
  repeat (destruct H as [H|H]; [done|]); done.

(** Inclusion between two lists written out in full. *)
Ltac incl_lists :=
  let x := fresh in
  let Hx := fresh in
  intros x Hx; apply list_elem_of_In in Hx; apply list_elem_of_In;
  simpl in *; tauto.

Lemma _send_mail_frame env h trap dup w :
  ∃ o names evs,
    _send_mail env h trap dup w = (o, bump names evs w) ∧
    store_free evs ∧ indexed evs = [] ∧ names ⊆ mail_counters.
Proof.
  destruct (dup && negb (mail_on_duplicate h)) eqn:Hd.
  { exists (Return tt), [], []. unfold _send_mail. rewrite Hd, bump_nil.
    split_and!; [done | constructor | done | incl_lists]. }
  destruct (mail h) as [rule|] eqn:Hm; cycle 1.
  { exists (Return tt), [], []. rewrite _send_mail_unconfigured, bump_nil.
    - split_and!; [done | constructor | done | incl_lists].
    - by rewrite Hm. }
  destruct (decide (recipients rule = [])) as [Hr|Hr].
  { exists (Return tt), [], []. rewrite _send_mail_unconfigured, bump_nil.
    - split_and!; [done | constructor | done | incl_lists].
    - by rewrite Hm. }
  destruct (percent_format env (subject rule) (subject_mapping env trap))
    as [subj|e|b] eqn:Hs.
  - erewrite _send_mail_due; [|by destruct dup, (mail_on_duplicate h); auto
                              |done..].
    destruct (mail_answer env rule subj trap) as [[]|e|b];
      [|destruct (isinstance e [socket_error])|];
      eexists _, _, _; (split; [done|]);
      (split_and!; [repeat constructor | done | incl_lists]).
  - exists (Raise e), [], []. rewrite bump_nil. unfold _send_mail.
    rewrite Hd, Hm, bool_decide_eq_false_2, bind_call, Hs by done.
    split_and!; [done | constructor | done | incl_lists].
  - exists (RaiseBase b), [], []. rewrite bump_nil. unfold _send_mail.
    rewrite Hd, Hm, bool_decide_eq_false_2, bind_call, Hs by done.
    split_and!; [done | constructor | done | incl_lists].
Qed.

Lemma sent_mails_pprint vbs : sent_mails (pprint_events vbs) = [].
Proof. by induction vbs. Qed.

Lemma index_events_store_free env trap doc :
  store_free (index_prologue env trap) ∧
  store_free (index_prologue env trap ++ index_epilogue trap doc).
Proof.
  assert (store_free (index_prologue env trap)) as Hp.
  { unfold index_prologue. apply store_free_app; [repeat constructor|].
    apply store_free_pprint. }
  split; [done|]. apply store_free_app; [done | repeat constructor].
Qed.

Lemma index_events_sent_mails env trap doc :
  sent_mails (index_prologue env trap) = [] ∧
  sent_mails (index_prologue env trap ++ index_epilogue trap doc) = [].
Proof.
  assert (sent_mails (index_prologue env trap) = []) as Hp.
  { unfold index_prologue. rewrite sent_mails_app, sent_mails_pprint. done. }
  split; [done|]. by rewrite sent_mails_app, Hp.
Qed.

Lemma _index_to_elasticsearch_frame env trap w :
  ∃ o evs,
    _index_to_elasticsearch env trap w = (o, bump [] evs w) ∧
    store_free evs ∧ sent_mails evs = [].
Proof.
  rewrite _index_to_elasticsearch_run.
  destruct (index_document env trap) as [doc|]; eexists _, _;
    (split; [done|]).
  - split; [apply index_events_store_free | apply index_events_sent_mails].
  - split; [apply (index_events_store_free env trap ∅)
           | apply (index_events_sent_mails env trap ∅)].
Qed.

Lemma fan_out_frame env h trap dup w :
  ∃ o names evs,
    fan_out env h trap dup w = (o, bump names evs w) ∧
    store_free evs ∧ names ⊆ mail_counters.
Proof.
  destruct (_send_mail_frame env h trap dup w)
    as (o & names & evs & Hm & Hf & _ & Hn).
  unfold fan_out, bind at 1. rewrite Hm. destruct o as [[]|e|b].
  - destruct (_index_to_elasticsearch_frame env trap (bump names evs w))
      as (o & evs' & Hi & Hf' & _).
    rewrite Hi, bump_bump, app_nil_r.
    eexists _, _, _. split; [done|]. split; [by apply store_free_app|done].
  - by eexists _, _, _.
  - by eexists _, _, _.
Qed.

(** Indexing follows alerting whenever alerting returns. *)
Lemma fan_out_indexes env h trap dup w w1 :
  _send_mail env h trap dup w = (Return tt, w1) ->
  fan_out env h trap dup w = _index_to_elasticsearch env trap w1.
Proof. intros H. unfold fan_out. by rewrite (bind_run _ _ _ _ _ H). Qed.

Lemma conn_adds_write_events env trap :
  conn_adds (write_events env trap) = [trap].
Proof. unfold write_events. by destruct (conn_add env trap). Qed.

Lemma commits_write_events env trap :
  (commits (write_events env trap) <= 1)%nat.
Proof.
  unfold write_events, commits. destruct (conn_add env trap); simpl; lia.
Qed.

(** Whatever the store answers, the write calls [conn.add] once, for the
    trap it was given, and counts one attempt. *)
Lemma persist_frame env host name trap w :
  ∃ o names evs,
    persist env host name trap w
    = (o, bump ("db_write_attempted" :: names) evs w) ∧
    conn_adds evs = [trap] ∧ (commits evs <= 1)%nat ∧
    names ⊆ ["db_write_successful"; "db_write_failed"; "db_write_duplicate"].
Proof.
  pose proof (conn_adds_write_events env trap) as Ha.
  pose proof (commits_write_events env trap) as Hc.
  destruct (write_outcome env trap) as [i|e|b] eqn:Hw; cycle 2.
  { rewrite (persist_exits _ _ _ _ _ _ Hw).
    exists (RaiseBase b), [], (write_events env trap).
    split; [done|]. split_and!; [done..|incl_lists]. }
  { rewrite (persist_committed _ _ _ _ _ _ Hw).
    eexists _, _, _. split; [done|]. split_and!; [done..|incl_lists]. }
  destruct (decide (exn_cls e ∈ [OperationalError; InvalidRequestError]))
    as [Ht|Ht].
  { rewrite (persist_transient _ _ _ _ _ _ Hw Ht).
    eexists _, _, _. split; [done|]. split_and!; [| |incl_lists].
    - rewrite conn_adds_app, Ha. unfold transient_line.
      by case_bool_decide.
    - rewrite commits_app. unfold transient_line.
      case_bool_decide; unfold commits at 2; simpl; lia. }
  destruct (decide (exn_cls e = IntegrityError)) as [Hi|Hi].
  { rewrite (persist_duplicate _ _ _ _ _ _ Hw Hi).
    eexists _, _, _. split; [done|]. split_and!; [| |incl_lists].
    - by rewrite conn_adds_app, Ha.
    - rewrite commits_app. unfold commits at 2; simpl; lia. }
  rewrite (persist_unhandled _ _ _ _ _ _ Hw).
  - exists (Raise e), [], (write_events env trap).
    split; [done|]. split_and!; [done..|incl_lists].
  - rewrite !elem_of_cons, elem_of_nil in *. tauto.
Qed.

(** An accepted trap is counted as accepted and handed to the store exactly
    once, in the state the policy resolver left it in, whatever happens in
    the write and in the fan-out. *)
Lemma accepted_trap_written env addr msg w h trap :
  resolved env addr msg w h trap ->
  blackholed h = false ->
  conn_adds (journal (_call env addr msg w).2)
  = conn_adds (journal w) ++ [trap] ∧
  counter "traps_accepted" (_call env addr msg w).2
  = counter "traps_accepted" w + 1 ∧
  counter "db_write_attempted" (_call env addr msg w).2
  = counter "db_write_attempted" w + 1.
Proof.
  intros Hr Hb. rewrite (_call_resolved _ _ _ _ _ _ Hr), Hb.
  unfold accepted_world.
  destruct (persist_frame env addr.1 (ObjectId_name env (n_oid trap)) trap
              (bump ["traps_received"; "traps_accepted"]
                 [received_line env addr trap] w))
    as (o & names & evs & Hp & Ha & _ & Hn).
  unfold bind. rewrite Hp, bump_bump. simpl app.
  assert (∀ names' evs',
    store_free evs' -> names' ⊆ mail_counters ->
    let w' := bump ("traps_received" :: "traps_accepted"
                      :: "db_write_attempted" :: names ++ names')
                (received_line env addr trap :: evs ++ evs') w in
    conn_adds (journal w') = conn_adds (journal w) ++ [trap] ∧
    counter "traps_accepted" w' = counter "traps_accepted" w + 1 ∧
    counter "db_write_attempted" w' = counter "db_write_attempted" w + 1)
    as Hfin.
  { intros names' evs' Hf Hn' w'. subst w'. split_and!.
    - rewrite journal_bump, conn_adds_app.
      change (received_line env addr trap :: evs ++ evs')
        with ([received_line env addr trap] ++ evs ++ evs').
      rewrite !conn_adds_app, Ha, (store_free_conn_adds _ Hf). done.
    - rewrite counter_bump, !tally_cons, tally_notin; [done|].
      rewrite not_elem_of_app. split; intros Hin.
      + apply Hn in Hin. apply list_elem_of_In in Hin. simpl in Hin.
        destruct Hin as [?|[?|[?|[]]]]; done.
      + apply Hn' in Hin. apply list_elem_of_In in Hin. simpl in Hin.
        destruct Hin as [?|[?|[?|[]]]]; done.
    - rewrite counter_bump, !tally_cons, tally_notin; [done|].
      rewrite not_elem_of_app. split; intros Hin.
      + apply Hn in Hin. apply list_elem_of_In in Hin. simpl in Hin.
        destruct Hin as [?|[?|[?|[]]]]; done.
      + apply Hn' in Hin. apply list_elem_of_In in Hin. simpl in Hin.
        destruct Hin as [?|[?|[?|[]]]]; done. }
  destruct o as [[dup t2]|e|b].
  - simpl. destruct (fan_out_frame env h t2 dup
             (bump ("traps_received" :: "traps_accepted"
                      :: "db_write_attempted" :: names)
                (received_line env addr trap :: evs) w))
      as (o & names' & evs' & Hfo & Hf & Hn').
    rewrite Hfo, bump_bump. simpl. by apply Hfin.
  - simpl. specialize (Hfin [] [] ltac:(constructor) ltac:(incl_lists)).
    by rewrite !app_nil_r in Hfin.
  - simpl. specialize (Hfin [] [] ltac:(constructor) ltac:(incl_lists)).
    by rewrite !app_nil_r in Hfin.
Qed.

Lemma indexed_pprint vbs : indexed (pprint_events vbs) = [].
Proof. by induction vbs. Qed.

Lemma indexed_index_events env trap doc :
  indexed (index_prologue env trap ++ index_epilogue trap doc) = [doc].
Proof.
  unfold index_prologue. by rewrite !indexed_app, indexed_pprint.
Qed.

Lemma indexed_write_events env trap : indexed (write_events env trap) = [].
Proof. unfold write_events. by destruct (conn_add env trap). Qed.

Lemma sent_mails_write_events env trap :
  sent_mails (write_events env trap) = [].
Proof. unfold write_events. by destruct (conn_add env trap). Qed.

Lemma rollbacks_write_events env trap :
  rollbacks (write_events env trap) = 0%nat.
Proof. unfold write_events. by destruct (conn_add env trap). Qed.

Lemma _call_at_fan_out env addr msg w h trap dup w2 :
  at_fan_out env addr msg w h trap dup w2 ->
  _call env addr msg w = fan_out env h trap dup w2.
Proof.
  intros (trap1 & Hr & Hb & Hp).
  rewrite (_call_resolved _ _ _ _ _ _ Hr), Hb.
  by rewrite (bind_run _ _ _ _ _ Hp).
Qed.

(** When a mail is due and its subject renders, the transport is called
    with the trap and the attempt is counted, whatever the transport then
    answers and whatever the indexing step does. *)
Lemma fan_out_alerts env h trap dup w rule subj :
  dup = false ∨ mail_on_duplicate h = true ->
  mail h = Some rule ->
  recipients rule ≠ [] ->
  percent_format env (subject rule) (subject_mapping env trap) = Return subj ->
  mail_call env rule subj trap ∈ journal (fan_out env h trap dup w).2.
Proof.
  intros Hd Hm Hr Hs.
  pose proof (_send_mail_due env h trap dup w rule subj Hd Hm Hr Hs) as Hrun.
  unfold fan_out, bind at 1.
  destruct (mail_answer env rule subj trap) as [[]|e|b];
    [|destruct (isinstance e [socket_error])|]; rewrite Hrun.
  1,2: match goal with
       | |- context [_index_to_elasticsearch ?e ?t ?w1] =>
           destruct (_index_to_elasticsearch_frame e t w1)
             as (o & evs & -> & _)
       end; simpl; rewrite <- app_assoc; apply elem_of_app; right;
       apply elem_of_cons; by left.
  all: simpl; apply elem_of_app; right; apply elem_of_cons; by left.
Qed.



(** ** What the fan-out does *)

Lemma indexed_index_prologue env trap :
  indexed (index_prologue env trap) = [].
Proof. unfold index_prologue. by rewrite indexed_app, indexed_pprint. Qed.

(** Alerting, whatever the collaborators answer: it returns exactly when
    [alerting_returns] says so, hands the transport the mail that is due,
    and touches neither the store nor the index. *)
Lemma _send_mail_effects env h trap dup w :
  ∃ o names evs,
    _send_mail env h trap dup w = (o, bump names evs w) ∧
    (o = Return tt ↔ alerting_returns env h trap dup = true) ∧
    sent_mails evs = mails_due env h trap dup ∧
    indexed evs = [] ∧ store_free evs ∧ names ⊆ mail_counters.
Proof.
  unfold alerting_returns, mails_due, mail_due.
  destruct (dup && negb (mail_on_duplicate h)) eqn:Hd.
  { exists (Return tt), [], []. unfold _send_mail. rewrite Hd, bump_nil.
    split_and!; [done..| constructor | incl_lists]. }
  destruct (mail h) as [rule|] eqn:Hm; cycle 1.
  { exists (Return tt), [], []. rewrite _send_mail_unconfigured, bump_nil.
    - split_and!; [done..| constructor | incl_lists].
    - by rewrite Hm. }
  case_bool_decide as Hr.
  { exists (Return tt), [], []. rewrite _send_mail_unconfigured, bump_nil.
    - split_and!; [done..| constructor | incl_lists].
    - by rewrite Hm. }
  destruct (percent_format env (subject rule) (subject_mapping env trap))
    as [subj|e|b] eqn:Hs.
  - erewrite _send_mail_due;
      [|by destruct dup, (mail_on_duplicate h); auto | done..].
    destruct (mail_answer env rule subj trap) as [[]|e|b];
      [|destruct (isinstance e [socket_error])|];
      eexists _, _, _; (split; [done|]);
      (split_and!; [split; intros; congruence | done | done
                   | repeat constructor | incl_lists]).
  - exists (Raise e), [], []. rewrite bump_nil. unfold _send_mail.
    rewrite Hd, Hm, bool_decide_eq_false_2, bind_call, Hs by done.
    split_and!; [done | split; intros; congruence | done | done
                | constructor | incl_lists].
  - exists (RaiseBase b), [], []. rewrite bump_nil. unfold _send_mail.
    rewrite Hd, Hm, bool_decide_eq_false_2, bind_call, Hs by done.
    split_and!; [done | split; intros; congruence | done | done
                | constructor | incl_lists].
Qed.

(** The fan-out, whatever the collaborators answer: the due mail is handed
    to the transport, and the document of the trap is handed to the index
    exactly when alerting returns and the document can be built; when
    alerting does not return, neither does the fan-out. *)
Lemma fan_out_effects env h trap dup w :
  ∃ o names evs,
    fan_out env h trap dup w = (o, bump names evs w) ∧
    names ⊆ mail_counters ∧ store_free evs ∧
    sent_mails evs = mails_due env h trap dup ∧
    indexed evs
    = (if alerting_returns env h trap dup
       then option_list (index_document env trap) else []) ∧
    (alerting_returns env h trap dup = false -> o ≠ Return tt).
Proof.
  destruct (_send_mail_effects env h trap dup w)
    as (o & names & evs & Hm & Hret & Hs & Hi & Hf & Hn).
  unfold fan_out, bind at 1. rewrite Hm.
  destruct (alerting_returns env h trap dup).
  - rewrite (proj2 Hret eq_refl), _index_to_elasticsearch_run.
    destruct (index_document env trap) as [doc|];
      rewrite bump_bump, app_nil_r; eexists _, _, _; (split; [done|]).
    + split_and!; [done| | | |done].
      * apply store_free_app; [done | apply index_events_store_free].
      * by rewrite sent_mails_app, Hs,
          (proj2 (index_events_sent_mails env trap doc)), app_nil_r.
      * by rewrite indexed_app, Hi, indexed_index_events.
    + split_and!; [done| | | |done].
      * apply store_free_app;
          [done | apply (index_events_store_free env trap ∅)].
      * by rewrite sent_mails_app, Hs,
          (proj1 (index_events_sent_mails env trap ∅)), app_nil_r.
      * by rewrite indexed_app, Hi, indexed_index_prologue.
  - destruct o as [[]|e|b].
    + by pose proof (proj1 Hret eq_refl).
    + eexists _, _, _. split; [done|]. by split_and!.
    + eexists _, _, _. split; [done|]. by split_and!.
Qed.

(** What a run that reaches the fan-out in world [w2] adds to [w2]. *)
Lemma _call_fans_out env addr msg w h trap dup w2 :
  at_fan_out env addr msg w h trap dup w2 ->
  let run := _call env addr msg w in
  sent_mails (journal run.2)
  = sent_mails (journal w2) ++ mails_due env h trap dup ∧
  indexed (journal run.2)
  = indexed (journal w2)
    ++ (if alerting_returns env h trap dup
        then option_list (index_document env trap) else []) ∧
  (alerting_returns env h trap dup = false -> run.1 ≠ Return tt) ∧
  conn_adds (journal run.2) = conn_adds (journal w2) ∧
  rollbacks (journal run.2) = rollbacks (journal w2) ∧
  (∀ name, name ∉ mail_counters -> counter name run.2 = counter name w2).
Proof.
  intros Hat run. subst run.
  rewrite (_call_at_fan_out _ _ _ _ _ _ _ _ Hat).
  destruct (fan_out_effects env h trap dup w2)
    as (o & names & evs & -> & Hn & Hf & Hs & Hi & Ho).
  cbn [fst snd]. rewrite journal_bump.
  split_and!.
  - by rewrite sent_mails_app, Hs.
  - by rewrite indexed_app, Hi.
  - done.
  - by rewrite conn_adds_app, (store_free_conn_adds _ Hf), app_nil_r.
  - rewrite rollbacks_app, (store_free_rollbacks _ Hf). lia.
  - intros name Hname. rewrite counter_bump, tally_notin; [lia|].
    intros Hin. by apply Hname, Hn.
Qed.

(** ** C4: a transient failure of the store *)

(** C4, as amended.  When the write of an accepted trap fails with
    [OperationalError] (store unreachable) or [InvalidRequestError] (invalid
    transactional state), the session is rolled back once in the whole
    invocation, ["db_write_failed"] goes up by 1 while the success and
    duplicate counters stay, [conn.add] is called exactly once (no retry),
    and the fan-out is entered with the in-memory trap and
    [duplicate = False].  Alerting runs: the due mail is handed to the
    transport.  The indexing step follows alerting: when alerting returns
    (no mail is due, the mail is sent, or the transport raises a
    [socket.error]) the document of the trap is handed to the index; when
    alerting raises (the subject cannot be rendered, or the transport raises
    anything else) the pipeline raises with it and nothing is indexed. *)
Theorem transient_failure_then_fan_out env addr msg w handler trap err :
  resolved env addr msg w handler trap ->
  blackholed handler = false ->
  write_outcome env trap = Raise err ->
  exn_cls err ∈ [OperationalError; InvalidRequestError] ->
  let w2 :=
    bump ["traps_received"; "traps_accepted"; "db_write_attempted";
          "db_write_failed"]
      (received_line env addr trap
         :: write_events env trap ++ [ConnRollback; transient_line err]) w in
  let run := _call env addr msg w in
  at_fan_out env addr msg w handler trap false w2 ∧
  run = fan_out env handler trap false w2 ∧
  rollbacks (journal run.2) = S (rollbacks (journal w)) ∧
  counter "db_write_failed" run.2 = counter "db_write_failed" w + 1 ∧
  counter "db_write_successful" run.2 = counter "db_write_successful" w ∧
  counter "db_write_duplicate" run.2 = counter "db_write_duplicate" w ∧
  conn_adds (journal run.2) = conn_adds (journal w) ++ [trap] ∧
  counter "db_write_attempted" run.2 = counter "db_write_attempted" w + 1 ∧
  sent_mails (journal run.2)
  = sent_mails (journal w) ++ mails_due env handler trap false ∧
  (alerting_returns env handler trap false = true ->
   ∀ doc, index_document env trap = Some doc ->
          indexed (journal run.2) = indexed (journal w) ++ [doc]) ∧
  (alerting_returns env handler trap false = false ->
   run.1 ≠ Return tt ∧ indexed (journal run.2) = indexed (journal w)).
Proof.
  intros Hr Hb Hw Hc w2 run.
  assert (at_fan_out env addr msg w handler trap false w2) as Hat.
  { exists trap. split_and!; [done..|].
    rewrite (persist_transient _ _ _ _ _ _ Hw Hc).
    unfold accepted_world. by rewrite bump_bump. }
  destruct (_call_fans_out _ _ _ _ _ _ _ _ Hat)
    as (Hs & Hi & Ho & Ha & Hrb & Hcnt).
  fold run in Hs, Hi, Ho, Ha, Hrb, Hcnt.
  assert (journal w2
          = journal w ++ [received_line env addr trap]
            ++ write_events env trap
            ++ [ConnRollback; transient_line err]) as Hj by done.
  assert (∀ name, name ∉ mail_counters -> counter name run.2
            = counter name w
              + tally ["traps_received"; "traps_accepted";
                       "db_write_attempted"; "db_write_failed"] name)
    as Hcnt'.
  { intros name Hn. rewrite (Hcnt _ Hn). subst w2. by rewrite counter_bump. }
  assert (sent_mails (journal w2) = sent_mails (journal w)) as Hs2.
  { rewrite Hj, !sent_mails_app, sent_mails_write_events.
    unfold transient_line. case_bool_decide; simpl; by rewrite app_nil_r. }
  assert (indexed (journal w2) = indexed (journal w)) as Hi2.
  { rewrite Hj, !indexed_app, indexed_write_events.
    unfold transient_line. case_bool_decide; simpl; by rewrite app_nil_r. }
  split_and!.
  - done.
  - by apply _call_at_fan_out.
  - rewrite Hrb, Hj, !rollbacks_app, rollbacks_write_events.
    unfold transient_line. case_bool_decide; unfold rollbacks; simpl; lia.
  - rewrite Hcnt' by notin_lists.
    unfold tally; simpl; lia.
  - rewrite Hcnt' by notin_lists.
    unfold tally; simpl; lia.
  - rewrite Hcnt' by notin_lists.
    unfold tally; simpl; lia.
  - rewrite Ha, Hj, !conn_adds_app, conn_adds_write_events.
    unfold transient_line. by case_bool_decide.
  - rewrite Hcnt' by notin_lists.
    unfold tally; simpl; lia.
  - by rewrite Hs, Hs2.
  - intros Hret doc Hdoc. by rewrite Hi, Hi2, Hret, Hdoc.
  - intros Hret. split; [by apply Ho|].
    by rewrite Hi, Hi2, Hret, app_nil_r.
Qed.

Lemma transient_failure_then_fan_out_witness :
  rollbacks (journal (_call Demo.store_unreachable Demo.addr Demo.whole_msg
                        Demo.w0).2) = 1%nat ∧
  conn_adds (journal (_call Demo.store_unreachable Demo.addr Demo.whole_msg
                        Demo.w0).2) = [Demo.trap1] ∧
  sent_mails (journal (_call Demo.store_unreachable Demo.addr Demo.whole_msg
                         Demo.w0).2)
  = [(["noc@example.com"], Demo.trap1)] ∧
  indexed (journal (_call Demo.store_unreachable Demo.addr Demo.whole_msg
                      Demo.w0).2)
  = [finish_index Demo.store_unreachable Demo.trap1
       (merged_fields Demo.store_unreachable Demo.trap1) VNone].
Proof.
  destruct (transient_failure_then_fan_out Demo.store_unreachable
              Demo.addr Demo.whole_msg Demo.w0 Demo.policy Demo.trap1
              Demo.store_down)
    as (_ & _ & Hrb & _ & _ & _ & Ha & _ & Hm & Hi & _).
  - exists Demo.trap0. split; [split; [done|]|]; vm_compute; reflexivity.
  - reflexivity.
  - reflexivity.
  - apply elem_of_cons. by left.
  - split_and!; [exact Hrb | exact Ha | exact Hm |].
    apply Hi; [reflexivity|].
    apply index_document_id. vm_compute. reflexivity.
Defined.

(** The claim of C4 fails when alerting raises after a transient failure of
    the store: the store is unreachable, the session is rolled back and the
    failure counted, the mail is handed to the transport, which refuses the
    recipients with an error that is no [socket.error]; the pipeline raises
    it, and the trap is never handed to the index. *)
Lemma transient_failure_can_skip_indexing :
  resolved Demo.store_down_mail_rejects Demo.addr Demo.whole_msg Demo.w0
    Demo.policy Demo.trap1 ∧
  write_outcome Demo.store_down_mail_rejects Demo.trap1
  = Raise Demo.store_down ∧
  exn_cls Demo.store_down = OperationalError ∧
  rollbacks (journal (_call Demo.store_down_mail_rejects Demo.addr
                        Demo.whole_msg Demo.w0).2) = 1%nat ∧
  counter "db_write_failed"
    (_call Demo.store_down_mail_rejects Demo.addr Demo.whole_msg Demo.w0).2
  = 1 ∧
  (_call Demo.store_down_mail_rejects Demo.addr Demo.whole_msg Demo.w0).1
  = Raise Demo.smtp_refused ∧
  indexed (journal (__call__ Demo.store_down_mail_rejects Demo.addr
                      Demo.whole_msg Demo.w0).2) = [] ∧
  counter "callback-failure"
    (__call__ Demo.store_down_mail_rejects Demo.addr Demo.whole_msg
       Demo.w0).2 = 1.
Proof.
  split.
  { exists Demo.trap0. split; [split; [done|]|]; vm_compute; reflexivity. }
  split_and!; vm_compute; reflexivity.
Qed.

(** ** C5: a duplicate *)

(** C5, as amended.  When the write of an accepted trap violates the
    uniqueness constraint ([IntegrityError]), the session is rolled back
    once in the whole invocation, ["db_write_duplicate"] goes up by 1 while
    ["db_write_failed"] and ["db_write_successful"] stay, and the fan-out is
    entered with [duplicate = True].  If the policy's [mail_on_duplicate]
    flag is off, alerting does nothing (the transport is not called, no mail
    counter moves) and the document of the trap is handed to the index.  If
    the flag is on, the due mail is handed to the transport, and the
    document is handed to the index when alerting returns; when alerting
    raises, the pipeline raises with it and the duplicate is not indexed. *)
Theorem duplicate_then_fan_out env addr msg w handler trap err :
  resolved env addr msg w handler trap ->
  blackholed handler = false ->
  write_outcome env trap = Raise err ->
  exn_cls err = IntegrityError ->
  let w2 :=
    bump ["traps_received"; "traps_accepted"; "db_write_attempted";
          "db_write_duplicate"]
      (received_line env addr trap
         :: write_events env trap
         ++ ConnRollback :: duplicate_lines env addr trap err) w in
  let run := _call env addr msg w in
  at_fan_out env addr msg w handler trap true w2 ∧
  run = fan_out env handler trap true w2 ∧
  rollbacks (journal run.2) = S (rollbacks (journal w)) ∧
  counter "db_write_duplicate" run.2 = counter "db_write_duplicate" w + 1 ∧
  counter "db_write_failed" run.2 = counter "db_write_failed" w ∧
  counter "db_write_successful" run.2 = counter "db_write_successful" w ∧
  (mail_on_duplicate handler = false ->
     run = _index_to_elasticsearch env trap w2 ∧
     sent_mails (journal run.2) = sent_mails (journal w) ∧
     (∀ name, name ∈ mail_counters -> counter name run.2 = counter name w) ∧
     (∀ doc, index_document env trap = Some doc ->
             indexed (journal run.2) = indexed (journal w) ++ [doc])) ∧
  (mail_on_duplicate handler = true ->
     sent_mails (journal run.2)
     = sent_mails (journal w) ++ mails_due env handler trap false) ∧
  (alerting_returns env handler trap true = true ->
   ∀ doc, index_document env trap = Some doc ->
          indexed (journal run.2) = indexed (journal w) ++ [doc]) ∧
  (alerting_returns env handler trap true = false ->
   mail_on_duplicate handler = true ∧
   run.1 ≠ Return tt ∧ indexed (journal run.2) = indexed (journal w)).
Proof.
  intros Hr Hb Hw Hc w2 run.
  assert (at_fan_out env addr msg w handler trap true w2) as Hat.
  { exists trap. split_and!; [done..|].
    rewrite (persist_duplicate _ _ _ _ _ _ Hw Hc).
    unfold accepted_world. by rewrite bump_bump. }
  pose proof (_call_at_fan_out _ _ _ _ _ _ _ _ Hat) as Hcall.
  fold run in Hcall.
  destruct (_call_fans_out _ _ _ _ _ _ _ _ Hat)
    as (Hs & Hi & Ho & Ha & Hrb & Hcnt).
  fold run in Hs, Hi, Ho, Ha, Hrb, Hcnt.
  assert (journal w2
          = journal w ++ [received_line env addr trap]
            ++ write_events env trap
            ++ ConnRollback :: duplicate_lines env addr trap err) as Hj
    by done.
  assert (∀ name, name ∉ mail_counters -> counter name run.2
            = counter name w
              + tally ["traps_received"; "traps_accepted";
                       "db_write_attempted"; "db_write_duplicate"] name)
    as Hcnt'.
  { intros name Hn. rewrite (Hcnt _ Hn). subst w2. by rewrite counter_bump. }
  assert (sent_mails (journal w2) = sent_mails (journal w)) as Hs2.
  { rewrite Hj, !sent_mails_app, sent_mails_write_events. simpl.
    by rewrite app_nil_r. }
  assert (indexed (journal w2) = indexed (journal w)) as Hi2.
  { rewrite Hj, !indexed_app, indexed_write_events. simpl.
    by rewrite app_nil_r. }
  assert (∀ name, name ∈ mail_counters -> counter name w2 = counter name w)
    as Hquiet.
  { intros name Hin. subst w2. rewrite counter_bump, tally_notin; [lia|].
    intros Hin'. apply list_elem_of_In in Hin, Hin'. simpl in *.
    destruct Hin as [<-|[<-|[<-|[]]]];
      destruct Hin' as [?|[?|[?|[?|[]]]]]; done. }
  split_and!.
  - done.
  - done.
  - rewrite Hrb, Hj, !rollbacks_app, rollbacks_write_events.
    unfold rollbacks; simpl; lia.
  - rewrite Hcnt' by notin_lists.
    unfold tally; simpl; lia.
  - rewrite Hcnt' by notin_lists.
    unfold tally; simpl; lia.
  - rewrite Hcnt' by notin_lists.
    unfold tally; simpl; lia.
  - intros Hoff.
    pose proof (_send_mail_suppressed env handler trap w2 Hoff) as Hm.
    assert (run = _index_to_elasticsearch env trap w2) as Hrun
      by (by rewrite Hcall, (fan_out_indexes _ _ _ _ _ _ Hm)).
    assert (mail_due handler true = None) as Hdue
      by (unfold mail_due; by rewrite Hoff).
    split_and!.
    + done.
    + rewrite Hs, Hs2. unfold mails_due. by rewrite Hdue, app_nil_r.
    + intros name Hin. rewrite Hrun.
      destruct (_index_to_elasticsearch_frame env trap w2)
        as (o & evs & -> & _). cbn [snd].
      rewrite counter_bump, (Hquiet _ Hin). unfold tally; simpl; lia.
    + intros doc Hdoc. rewrite Hi, Hi2. unfold alerting_returns.
      by rewrite Hdue, Hdoc.
  - intros Hon. rewrite Hs, Hs2. f_equal.
    unfold mails_due, mail_due. by rewrite Hon.
  - intros Hret doc Hdoc. by rewrite Hi, Hi2, Hret, Hdoc.
  - intros Hret. split_and!.
    + destruct (mail_on_duplicate handler) eqn:Hflag; [done|].
      unfold alerting_returns, mail_due in Hret. by rewrite Hflag in Hret.
    + by apply Ho.
    + by rewrite Hi, Hi2, Hret, app_nil_r.
Qed.

Lemma duplicate_then_fan_out_witness :
  (sent_mails (journal (_call Demo.peer_was_first Demo.addr Demo.whole_msg
                          Demo.w0).2) = [] ∧
   indexed (journal (_call Demo.peer_was_first Demo.addr Demo.whole_msg
                       Demo.w0).2)
   = [finish_index Demo.peer_was_first Demo.trap1
        (merged_fields Demo.peer_was_first Demo.trap1) VNone]) ∧
  (sent_mails (journal (_call Demo.duplicate_mailed Demo.addr Demo.whole_msg
                          Demo.w0).2)
   = [(["noc@example.com"], Demo.trap1)] ∧
   indexed (journal (_call Demo.duplicate_mailed Demo.addr Demo.whole_msg
                       Demo.w0).2)
   = [finish_index Demo.duplicate_mailed Demo.trap1
        (merged_fields Demo.duplicate_mailed Demo.trap1) VNone]).
Proof.
  split.
  - destruct (duplicate_then_fan_out Demo.peer_was_first
                Demo.addr Demo.whole_msg Demo.w0 Demo.policy Demo.trap1
                Demo.unique_violation)
      as (_ & _ & _ & _ & _ & _ & Hoff & _).
    + exists Demo.trap0. split; [split; [done|]|]; vm_compute; reflexivity.
    + reflexivity.
    + reflexivity.
    + reflexivity.
    + destruct Hoff as (_ & Hs & _ & Hi); [reflexivity|].
      split; [exact Hs|]. apply Hi.
      apply index_document_id. vm_compute. reflexivity.
  - destruct (duplicate_then_fan_out Demo.duplicate_mailed
                Demo.addr Demo.whole_msg Demo.w0 Demo.insistent Demo.trap1
                Demo.unique_violation)
      as (_ & _ & _ & _ & _ & _ & _ & Hon & Hi & _).
    + exists Demo.trap0. split; [split; [done|]|]; vm_compute; reflexivity.
    + reflexivity.
    + reflexivity.
    + reflexivity.
    + split; [exact (Hon eq_refl)|]. apply Hi; [reflexivity|].
      apply index_document_id. vm_compute. reflexivity.
Defined.

(** The claim of C5 fails for a duplicate whose policy mails duplicates
    when the transport refuses the recipients with an error that is no
    [socket.error]: the write is rolled back and counted as a duplicate, the
    mail is handed to the transport, the pipeline raises the transport's
    error, and the duplicate is never handed to the index. *)
Lemma duplicate_can_skip_indexing :
  resolved Demo.duplicate_mail_rejects Demo.addr Demo.whole_msg Demo.w0
    Demo.insistent Demo.trap1 ∧
  write_outcome Demo.duplicate_mail_rejects Demo.trap1
  = Raise Demo.unique_violation ∧
  exn_cls Demo.unique_violation = IntegrityError ∧
  mail_on_duplicate Demo.insistent = true ∧
  rollbacks (journal (_call Demo.duplicate_mail_rejects Demo.addr
                        Demo.whole_msg Demo.w0).2) = 1%nat ∧
  counter "db_write_duplicate"
    (_call Demo.duplicate_mail_rejects Demo.addr Demo.whole_msg Demo.w0).2
  = 1 ∧
  (_call Demo.duplicate_mail_rejects Demo.addr Demo.whole_msg Demo.w0).1
  = Raise Demo.smtp_refused ∧
  indexed (journal (__call__ Demo.duplicate_mail_rejects Demo.addr
                      Demo.whole_msg Demo.w0).2) = [] ∧
  counter "callback-failure"
    (__call__ Demo.duplicate_mail_rejects Demo.addr Demo.whole_msg
       Demo.w0).2 = 1.
Proof.
  split.
  { exists Demo.trap0. split; [split; [done|]|]; vm_compute; reflexivity. }
  split_and!; vm_compute; reflexivity.
Qed.

(** ** C7: a failing mail transport *)




(** ** The policy applied to a trap *)

Lemma apply_policy_unconfigured env h t :
  expiration_configured h = None ->
  apply_policy env h t
  = Return (set_manager (hostname env) (set_severity (severity h) t)).
Proof. intros H. unfold apply_policy. by rewrite H. Qed.

Lemma apply_policy_configured env h t s kw D :
  expiration_configured h = Some s ->
  parse_time_string env s = Return kw ->
  timedelta kw = Return D ->
  apply_policy env h t
  = if bool_decide (0 <= n_sent t + D < datetime_end)
    then Return (set_expires (n_sent t + D)
                   (set_manager (hostname env)
                      (set_severity (severity h) t)))
    else Raise (Exn OverflowError "date value out of range").
Proof.
  intros Hs Hp Ht. unfold apply_policy. rewrite Hs, Hp, Ht.
  unfold datetime_add. simpl. by case_bool_decide.
Qed.

(** The policy sets the severity and the manager and nothing but these and
    the expiry. *)
Lemma apply_policy_fields env h t t' :
  apply_policy env h t = Return t' ->
  n_severity t' = Some (severity h) ∧
  n_manager t' = Some (hostname env) ∧
  n_sent t' = n_sent t ∧ n_oid t' = n_oid t ∧ n_host t' = n_host t ∧
  n_varbinds t' = n_varbinds t ∧ n_id t' = n_id t.
Proof.
  unfold apply_policy, datetime_add. intros H.
  repeat (branch; simpl in *; simplify_eq; try done).
Qed.

(** ** C3: no policy for the OID *)

(** The write hands on what [handed_on] says, having called [conn.add]
    once and neither the mail transport nor the index. *)
Lemma persist_handed_on env host name trap w dup trap' :
  handed_on env trap = Some (dup, trap') ->
  ∃ names evs,
    persist env host name trap w
    = (Return (dup, trap'), bump ("db_write_attempted" :: names) evs w) ∧
    conn_adds evs = [trap] ∧ sent_mails evs = [] ∧ indexed evs = [].
Proof.
  unfold handed_on. intros H.
  pose proof (conn_adds_write_events env trap) as Ha.
  pose proof (sent_mails_write_events env trap) as Hs.
  pose proof (indexed_write_events env trap) as Hi.
  destruct (write_outcome env trap) as [i|e|b] eqn:Hw; [| |done].
  { simplify_eq. rewrite (persist_committed _ _ _ _ _ _ Hw).
    by eexists _, _. }
  destruct (isinstance e [OperationalError; InvalidRequestError]) eqn:Ht.
  { simplify_eq. apply bool_decide_eq_true in Ht.
    rewrite (persist_transient _ _ _ _ _ _ Hw Ht).
    eexists _, _. split; [done|].
    rewrite conn_adds_app, sent_mails_app, indexed_app, Ha, Hs, Hi.
    unfold transient_line. by case_bool_decide. }
  destruct (isinstance e [IntegrityError]) eqn:Hd; [|done].
  simplify_eq. apply bool_decide_eq_true in Hd.
  rewrite elem_of_cons, elem_of_nil in Hd. destruct Hd as [Hd|[]].
  rewrite (persist_duplicate _ _ _ _ _ _ Hw Hd).
  eexists _, _. split; [done|].
  by rewrite conn_adds_app, sent_mails_app, indexed_app, Ha, Hs, Hi.
Qed.

(** A deployment whose table and default policy answer every lookup as
    those of [env] do runs as [env] does. *)
Lemma _call_with_policies env tbl fallback addr msg w :
  (∀ oid, handlers_getitem (with_policies tbl fallback env) oid
          = handlers_getitem env oid) ->
  _call (with_policies tbl fallback env) addr msg w = _call env addr msg w.
Proof.
  intros H. unfold _call. case_bool_decide; [done|].
  change (validate (with_policies tbl fallback env))
    with (validate env).
  unfold bind at 1 2.
  destruct (validate env addr msg w) as [[[t|]|e|b] w1]; try done.
  unfold process, resolve_policy. rewrite H. reflexivity.
Qed.

(** C3, as amended.  When the policy table has no entry for the OID of an
    admitted trap, the lookup yields the default policy instead of failing:
    the enrichment hook is called with the trap and the default policy, and
    the whole run is the run of a deployment whose table lists the OID with
    the default policy.  How far the trap gets is then decided as for any
    policy.  When the hook returns and the policy it leaves applies and is
    not a blackhole, the trap gets that policy's severity and this manager,
    is counted as accepted and is handed to the store.  When the write
    commits or fails in one of the three ways the callback handles, the
    fan-out runs: the due mail is handed to the transport and, when alerting
    returns, the document of the trap is handed to the index. *)
Theorem missing_policy_uses_default env addr msg w trap0 :
  admitted env addr msg w trap0 ->
  handlers env !! n_oid trap0 = None ->
  let run := _call env addr msg w in
  handlers_getitem env (n_oid trap0) = default_handler env ∧
  dde_of env trap0
  = {| dde_notification := trap0; dde_handler := default_handler env |} ∧
  run = _call (with_policies
                 (<[n_oid trap0 := default_handler env]> (handlers env))
                 (default_handler env) env) addr msg w ∧
  ∀ d trap,
    dde_run env (dde_of env trap0) = Return d ->
    apply_policy env (dde_handler d) (dde_notification d) = Return trap ->
    blackholed (dde_handler d) = false ->
    n_severity trap = Some (severity (dde_handler d)) ∧
    n_manager trap = Some (hostname env) ∧
    counter "traps_accepted" run.2 = counter "traps_accepted" w + 1 ∧
    conn_adds (journal run.2) = conn_adds (journal w) ++ [trap] ∧
    ∀ dup trap',
      handed_on env trap = Some (dup, trap') ->
      sent_mails (journal run.2)
      = sent_mails (journal w) ++ mails_due env (dde_handler d) trap' dup ∧
      (alerting_returns env (dde_handler d) trap' dup = true ->
       ∀ doc, index_document env trap' = Some doc ->
              indexed (journal run.2) = indexed (journal w) ++ [doc]).
Proof.
  intros Ha Hmiss run.
  assert (handlers_getitem env (n_oid trap0) = default_handler env) as Hget.
  { unfold handlers_getitem. by rewrite Hmiss. }
  split_and!.
  - done.
  - unfold dde_of. by rewrite Hget.
  - subst run. symmetry. apply _call_with_policies.
    intros oid. unfold handlers_getitem. cbn [handlers default_handler
      with_policies].
    destruct (decide (oid = n_oid trap0)) as [->|Hne].
    + by rewrite lookup_insert_eq, Hmiss.
    + by rewrite lookup_insert_ne.
  - intros d trap Hhook Hap Hb.
    assert (resolved env addr msg w (dde_handler d) trap) as Hr.
    { exists trap0. split; [done|].
      by rewrite (resolve_policy_run _ _ _ _ Hhook), Hap. }
    destruct (apply_policy_fields _ _ _ _ Hap) as (Hsev & Hman & _).
    destruct (accepted_trap_written _ _ _ _ _ _ Hr Hb) as (Hadd & Hacc & _).
    split_and!; [done..|].
    intros dup trap' Hon.
    destruct (persist_handed_on env addr.1 (ObjectId_name env (n_oid trap))
                trap (accepted_world env addr trap w) dup trap' Hon)
      as (names & evs & Hp & _ & Hs & Hi).
    assert (at_fan_out env addr msg w (dde_handler d) trap' dup
              (bump ("db_write_attempted" :: names) evs
                 (accepted_world env addr trap w))) as Hat
      by (by exists trap).
    destruct (_call_fans_out _ _ _ _ _ _ _ _ Hat) as (Hs' & Hi' & _).
    fold run in Hs', Hi'.
    rewrite journal_bump in Hs', Hi'. unfold accepted_world in Hs', Hi'.
    rewrite journal_bump, !sent_mails_app, Hs in Hs'.
    rewrite journal_bump, !indexed_app, Hi in Hi'.
    simpl in Hs', Hi'. rewrite !app_nil_r in Hs', Hi'.
    split; [done|]. intros Hret doc Hdoc.
    by rewrite Hi', Hret, Hdoc.
Qed.

Lemma missing_policy_uses_default_witness :
  handlers_getitem Demo.unlisted_alerting Demo.linkDown = Demo.policy ∧
  conn_adds (journal (_call Demo.unlisted_alerting Demo.addr Demo.whole_msg
                        Demo.w0).2) = [Demo.trap1] ∧
  sent_mails (journal (_call Demo.unlisted_alerting Demo.addr Demo.whole_msg
                         Demo.w0).2)
  = [(["noc@example.com"], set_id 40 Demo.trap1)] ∧
  indexed (journal (_call Demo.unlisted_alerting Demo.addr Demo.whole_msg
                      Demo.w0).2)
  = [finish_index Demo.unlisted_alerting (set_id 40 Demo.trap1)
       (merged_fields Demo.unlisted_alerting (set_id 40 Demo.trap1))
       (VInt 40)].
Proof.
  destruct (missing_policy_uses_default Demo.unlisted_alerting Demo.addr
              Demo.whole_msg Demo.w0 Demo.trap0)
    as (Hget & _ & _ & Hrun).
  - split; [done | vm_compute; reflexivity].
  - reflexivity.
  - destruct (Hrun (dde_of Demo.unlisted_alerting Demo.trap0) Demo.trap1)
      as (_ & _ & _ & Hadd & Hfan); [reflexivity..|].
    destruct (Hfan false (set_id 40 Demo.trap1)) as (Hs & Hi);
      [reflexivity|].
    split_and!; [exact Hget | exact Hadd | exact Hs |].
    apply Hi; [reflexivity|].
    apply index_document_id. vm_compute. reflexivity.
Defined.

(** The claim of C3 fails when the default policy is a blackhole: the trap
    of an OID without an entry gets the default policy, its severity and
    this manager, and is then dropped as the policy demands; it is not
    counted as accepted, the store is not called, no mail is sent and
    nothing is indexed. *)
Lemma missing_policy_can_be_dropped :
  admitted Demo.unlisted_dropping Demo.addr Demo.whole_msg Demo.w0
    Demo.trap0 ∧
  handlers Demo.unlisted_dropping !! n_oid Demo.trap0 = None ∧
  handlers_getitem Demo.unlisted_dropping (n_oid Demo.trap0) = Demo.sink ∧
  _call Demo.unlisted_dropping Demo.addr Demo.whole_msg Demo.w0
  = (Return tt,
     bump ["traps_received"; "traps_blackholed"]
       [Log debug "Blackholed %s from %s"
          [AStr "IF-MIB::linkDown"; AStr "192.0.2.7"]] Demo.w0) ∧
  conn_adds (journal (_call Demo.unlisted_dropping Demo.addr Demo.whole_msg
                        Demo.w0).2) = [] ∧
  sent_mails (journal (_call Demo.unlisted_dropping Demo.addr
                         Demo.whole_msg Demo.w0).2) = [] ∧
  indexed (journal (_call Demo.unlisted_dropping Demo.addr Demo.whole_msg
                      Demo.w0).2) = [] ∧
  counter "traps_accepted"
    (_call Demo.unlisted_dropping Demo.addr Demo.whole_msg Demo.w0).2 = 0.
Proof.
  split.
  { split; [done | vm_compute; reflexivity]. }
  split_and!; vm_compute; reflexivity.
Qed.

(** ** C8: the expiry *)

(** C8.  Let the hook return for an admitted trap, leaving the trap with
    sent time [T] and the policy [handler].  If the policy configures an
    expiration whose duration is [D], then every notification this
    invocation hands to the store has [expires = T + D]; and when [T + D] is
    a [datetime], the resolver ends with exactly that expiry set and, unless
    the policy is a blackhole, the trap is handed to the store in this
    state.  If no expiration is configured, the resolver leaves [expires] as
    it found it, and the trap reaches the store in that state. *)
Theorem expires_is_sent_plus_duration env addr msg w trap0 d :
  admitted env addr msg w trap0 ->
  dde_run env (dde_of env trap0) = Return d ->
  let handler := dde_handler d in
  let T := n_sent (dde_notification d) in
  (∀ s kw D,
     expiration_configured handler = Some s ->
     parse_time_string env s = Return kw ->
     timedelta kw = Return D ->
     (∀ t, t ∈ conn_adds (journal (_call env addr msg w).2) ->
           t ∈ conn_adds (journal w) ∨ n_expires t = Some (T + D)) ∧
     (0 <= T + D < datetime_end ->
      ∃ trap, resolved env addr msg w handler trap ∧
              n_expires trap = Some (T + D) ∧
              (blackholed handler = false ->
               conn_adds (journal (_call env addr msg w).2)
               = conn_adds (journal w) ++ [trap]))) ∧
  (expiration_configured handler = None ->
   ∃ trap, resolved env addr msg w handler trap ∧
           n_expires trap = n_expires (dde_notification d) ∧
           (blackholed handler = false ->
            conn_adds (journal (_call env addr msg w).2)
            = conn_adds (journal w) ++ [trap])).
Proof.
  intros Ha Hd handler T.
  pose proof (resolve_policy_run _ _ _ w Hd) as Hrun.
  split.
  - intros s kw D Hs Hp Ht.
    rewrite (apply_policy_configured _ _ _ _ _ _ Hs Hp Ht) in Hrun.
    fold T in Hrun.
    destruct (decide (0 <= T + D < datetime_end)) as [Hin|Hout].
    + rewrite bool_decide_eq_true_2 in Hrun by done.
      assert (resolved env addr msg w handler
                (set_expires (T + D)
                   (set_manager (hostname env)
                      (set_severity (severity (dde_handler d))
                         (dde_notification d))))) as Hr
        by (by exists trap0).
      split.
      * intros t Hin'. destruct (blackholed handler) eqn:Hb.
        -- left. rewrite (_call_resolved _ _ _ _ _ _ Hr), Hb in Hin'.
           cbn [snd] in Hin'.
           rewrite journal_bump, conn_adds_app in Hin'. simpl in Hin'.
           by rewrite app_nil_r in Hin'.
        -- destruct (accepted_trap_written _ _ _ _ _ _ Hr Hb) as (Hadd & _).
           rewrite Hadd, elem_of_app, list_elem_of_singleton in Hin'.
           destruct Hin' as [?| ->]; [by left | by right].
      * intros _. eexists. split; [exact Hr|]. split; [done|].
        intros Hb. by destruct (accepted_trap_written _ _ _ _ _ _ Hr Hb).
    + rewrite bool_decide_eq_false_2 in Hrun by done.
      split; [|done].
      intros t Hin'. left.
      rewrite (_call_admitted _ _ _ _ _ Ha) in Hin'. unfold process in Hin'.
      by rewrite (bind_raise _ _ _ _ _ Hrun) in Hin'.
  - intros Hs. rewrite (apply_policy_unconfigured _ _ _ Hs) in Hrun.
    assert (resolved env addr msg w handler
              (set_manager (hostname env)
                 (set_severity (severity (dde_handler d))
                    (dde_notification d)))) as Hr
      by (by exists trap0).
    eexists. split; [exact Hr|]. split; [done|].
    intros Hb. by destruct (accepted_trap_written _ _ _ _ _ _ Hr Hb).
Qed.

Lemma expires_is_sent_plus_duration_witness :
  ∃ trap,
    resolved Demo.plain Demo.addr Demo.whole_msg Demo.w0 Demo.policy trap ∧
    n_expires trap = Some (63900000000000000 + 900000000) ∧
    conn_adds (journal (_call Demo.plain Demo.addr Demo.whole_msg
                          Demo.w0).2) = [trap].
Proof.
  destruct (expires_is_sent_plus_duration Demo.plain Demo.addr
              Demo.whole_msg Demo.w0 Demo.trap0
              (dde_of Demo.plain Demo.trap0)) as [Hset _].
  - split; [done | vm_compute; reflexivity].
  - reflexivity.
  - destruct (Hset "15m" [("minutes", 15)] 900000000) as [_ Hin];
      [reflexivity..|].
    destruct Hin as (trap & Hr & He & Hadd); [by vm_compute|].
    exists trap. split_and!; [exact Hr | exact He |].
    apply Hadd. reflexivity.
Defined.

(** ** C9: the index document *)

Lemma append_type_ne (s : string) : s ≠ s +:+ ":type".
Proof. induction s as [|a s IH]; simpl; [done|]. by intros [= H]. Qed.

Lemma transform_varbind_lookup_None vb k :
  k ∉ varbind_keys vb -> transform_varbind vb !! k = None.
Proof.
  unfold varbind_keys, transform_varbind. rewrite !not_elem_of_cons.
  intros (H1 & H2 & H3 & _).
  rewrite (right_id_L ∅ (∪)).
  by rewrite !lookup_insert_ne, lookup_empty.
Qed.

Lemma transform_varbind_lookup_is_Some vb k :
  is_Some (transform_varbind vb !! k) -> k ∈ varbind_keys vb.
Proof.
  intros Hs. destruct (decide (k ∈ varbind_keys vb)) as [|Hn]; [done|].
  rewrite (transform_varbind_lookup_None _ _ Hn) in Hs. by destruct Hs.
Qed.

(** A binding whose OID is neither its name nor its type key yields its
    three entries. *)
Lemma transform_varbind_carries vb :
  vb_oid vb ≠ vb_name vb ->
  vb_oid vb ≠ vb_name vb +:+ ":type" ->
  carries_varbind (transform_varbind vb) vb.
Proof.
  intros H1 H2. pose proof (append_type_ne (vb_name vb)) as H3.
  unfold carries_varbind, transform_varbind.
  rewrite (right_id_L ∅ (∪)). split_and!.
  - rewrite lookup_insert_ne by done.
    rewrite lookup_insert_ne by done. by rewrite lookup_insert_eq.
  - rewrite lookup_insert_ne by done. by rewrite lookup_insert_eq.
  - by rewrite lookup_insert_eq.
Qed.

Lemma update_varbinds_app m vbs1 vbs2 :
  update_varbinds m (vbs1 ++ vbs2)
  = update_varbinds (update_varbinds m vbs1) vbs2.
Proof. revert m. induction vbs1 as [|vb vbs1 IH]; intros m; simpl; auto. Qed.

(** A key no binding writes keeps the value it had. *)
Lemma update_varbinds_lookup_other m vbs k :
  (∀ vb, vb ∈ vbs -> k ∉ varbind_keys vb) ->
  update_varbinds m vbs !! k = m !! k.
Proof.
  revert m. induction vbs as [|vb vbs IH]; intros m H; simpl; [done|].
  rewrite IH by (intros vb' Hin; apply H; by right).
  apply lookup_union_r, transform_varbind_lookup_None, H. by left.
Qed.

(** Every key of the merged mapping is a base field or a key of some
    binding. *)
Lemma update_varbinds_lookup_is_Some m vbs k :
  is_Some (update_varbinds m vbs !! k) ->
  is_Some (m !! k) ∨ ∃ vb, vb ∈ vbs ∧ k ∈ varbind_keys vb.
Proof.
  revert m. induction vbs as [|vb vbs IH]; intros m H; simpl in *; [by left|].
  destruct (IH _ H) as [Hs|(vb' & Hin & Hk)].
  - destruct Hs as [v Hv]. apply lookup_union_Some_raw in Hv.
    destruct Hv as [Hv|[_ Hv]]; [right|by left; eexists].
    exists vb. split; [by left|].
    apply transform_varbind_lookup_is_Some. by eexists.
  - right. exists vb'. split; [by right | done].
Qed.

Lemma finish_index_lookup_other env trap m idv k :
  k ∉ reserved_keys -> finish_index env trap m idv !! k = m !! k.
Proof.
  unfold reserved_keys, finish_index. rewrite !not_elem_of_cons.
  intros (H1 & H2 & H3 & _).
  by rewrite lookup_delete_ne, !lookup_insert_ne.
Qed.

(** C9, as amended.  The document dispatched to the index is the base
    fields overlaid, in order, by the three derived entries of every
    variable binding (name to pretty value, OID to raw value, name:type to
    value kind), a later write replacing an earlier one under the same key,
    with the value found under ["id"] moved to ["notification_id"],
    ["mib_name"] set to the resolved name of the trap OID and ["id"]
    removed.  Hence: a binding none of whose keys is written again (by
    itself, by a later binding or by the renaming) has exactly its three
    entries in the document; a base field other than the reserved keys that
    no binding writes keeps its value; ["notification_id"] holds the stored
    identifier unless a binding wrote ["id"]; and the document has no other
    keys than these. *)
Theorem index_document_contents env trap doc :
  index_document env trap = Some doc ->
  (∀ pre vb later,
     n_varbinds trap = pre ++ vb :: later ->
     unshadowed vb later -> carries_varbind doc vb) ∧
  (∀ k, k ∉ reserved_keys ->
        (∀ vb, vb ∈ n_varbinds trap -> k ∉ varbind_keys vb) ->
        doc !! k = to_dict env trap !! k) ∧
  doc !! "id" = None ∧
  doc !! "mib_name" = Some (VStr (ObjectId_name env (n_oid trap))) ∧
  doc !! "notification_id" = merged_fields env trap !! "id" ∧
  ((∀ vb, vb ∈ n_varbinds trap -> "id" ∉ varbind_keys vb) ->
   doc !! "notification_id" = to_dict env trap !! "id") ∧
  (∀ k, is_Some (doc !! k) ->
        k = "notification_id" ∨ k = "mib_name" ∨
        is_Some (to_dict env trap !! k) ∨
        ∃ vb, vb ∈ n_varbinds trap ∧ k ∈ varbind_keys vb) ∧
  (∀ w, indexed (journal (_index_to_elasticsearch env trap w).2)
        = indexed (journal w) ++ [doc]).
Proof.
  unfold index_document. intros Hdoc.
  destruct (merged_fields env trap !! "id") as [idv|] eqn:Hid; [|done].
  injection Hdoc as <-. split_and!.
  - intros pre vb later Hvbs (Ho1 & Ho2 & Hres & Hlater).
    assert (∀ k, k ∈ varbind_keys vb ->
              finish_index env trap (merged_fields env trap) idv !! k
              = transform_varbind vb !! k) as Hk.
    { intros k Hin. rewrite finish_index_lookup_other by auto.
      unfold merged_fields. rewrite Hvbs, update_varbinds_app. simpl.
      rewrite update_varbinds_lookup_other by eauto.
      apply lookup_union_l'.
      destruct (transform_varbind_carries vb Ho1 Ho2) as (H1 & H2 & H3).
      unfold varbind_keys in Hin. rewrite !elem_of_cons in Hin.
      destruct Hin as [->|[->|[->|Hin]]]; [by eexists..|].
      by apply elem_of_nil in Hin. }
    destruct (transform_varbind_carries vb Ho1 Ho2) as (H1 & H2 & H3).
    unfold carries_varbind, varbind_keys in *.
    rewrite !Hk by (rewrite !elem_of_cons; tauto). done.
  - intros k Hres Hvb. rewrite finish_index_lookup_other by done.
    unfold merged_fields. rewrite update_varbinds_lookup_other by done.
    by rewrite (right_id_L ∅ (∪)).
  - unfold finish_index. by rewrite lookup_delete_eq.
  - unfold finish_index.
    by rewrite lookup_delete_ne, lookup_insert_eq.
  - unfold finish_index.
    by rewrite lookup_delete_ne, lookup_insert_ne, lookup_insert_eq.
  - intros Hvb. unfold finish_index.
    rewrite lookup_delete_ne, lookup_insert_ne, lookup_insert_eq by done.
    rewrite <- Hid. unfold merged_fields.
    rewrite update_varbinds_lookup_other by done.
    by rewrite (right_id_L ∅ (∪)).
  - intros k Hs.
    destruct (decide (k = "notification_id")) as [|H1]; [by left|].
    destruct (decide (k = "mib_name")) as [|H2]; [by right; left|].
    right; right.
    destruct (decide (k = "id")) as [->|H3].
    { unfold finish_index in Hs. rewrite lookup_delete_eq in Hs.
      by destruct Hs. }
    rewrite finish_index_lookup_other in Hs
      by (unfold reserved_keys; rewrite !not_elem_of_cons;
          split_and!; [done..|apply not_elem_of_nil]).
    apply update_varbinds_lookup_is_Some in Hs.
    by rewrite (right_id_L ∅ (∪)) in Hs.
  - intros w. rewrite _index_to_elasticsearch_run.
    unfold index_document. rewrite Hid. cbn [snd].
    by rewrite journal_bump, indexed_app, indexed_index_events.
Qed.

(** The example of the spec: one binding of [sysLocation.0]. *)
Lemma index_document_contents_witness :
  ∃ doc,
    indexed (journal (_index_to_elasticsearch Demo.plain
                        (set_id 40 Demo.trap1) Demo.w0).2) = [doc] ∧
    doc !! "sysLocation.0" = Some (VStr "Lab-1") ∧
    doc !! "1.3.6.1.2.1.1.6.0" = Some (VStr "Lab-1") ∧
    doc !! "sysLocation.0:type" = Some (VStr "octet") ∧
    doc !! "notification_id" = Some (VInt 40) ∧
    doc !! "id" = None ∧
    doc !! "mib_name" = Some (VStr "IF-MIB::linkDown").
Proof.
  eexists.
  destruct (index_document_contents Demo.plain (set_id 40 Demo.trap1)
              (finish_index Demo.plain (set_id 40 Demo.trap1)
                 (merged_fields Demo.plain (set_id 40 Demo.trap1))
                 (VInt 40)))
    as (Hvb & _ & Hid & Hmib & _ & Hnid & _ & Hrun).
  - apply index_document_id. vm_compute. reflexivity.
  - destruct (Hvb [] Demo.sysLocation []) as (H1 & H2 & H3).
    + reflexivity.
    + split_and!; [done..| |].
      * intros k Hk Hr. apply list_elem_of_In in Hk, Hr. simpl in *.
        destruct Hk as [<-|[<-|[<-|[]]]];
          destruct Hr as [?|[?|[?|[]]]]; done.
      * intros k vb' _ Hin. by apply elem_of_nil in Hin.
    + split_and!; [exact (Hrun Demo.w0) | exact H1 | exact H2 | exact H3
                  | | exact Hid | exact Hmib].
      rewrite Hnid; [vm_compute; reflexivity|].
      intros vb Hin Hk. apply list_elem_of_In in Hin, Hk. simpl in *.
      destruct Hin as [<-|[]]. destruct Hk as [?|[?|[?|[]]]]; done.
Defined.

(** The claim of C9 fails when two bindings share a key: of two bindings
    of [sysLocation.0] the document dispatched to the index keeps only the
    entries of the second one, and nothing of the first one's values. *)
Lemma shadowed_varbind_is_lost :
  index_document Demo.plain Demo.trap_twice = Some Demo.doc_twice ∧
  indexed (journal (_index_to_elasticsearch Demo.plain Demo.trap_twice
                      Demo.w0).2) = [Demo.doc_twice] ∧
  Demo.sysLocation ∈ n_varbinds Demo.trap_twice ∧
  ¬ carries_varbind Demo.doc_twice Demo.sysLocation ∧
  Demo.doc_twice !! "sysLocation.0" = Some (VStr "Lab-2") ∧
  Demo.doc_twice !! "1.3.6.1.2.1.1.6.0" = Some (VStr "Lab-2").
Proof.
  assert (index_document Demo.plain Demo.trap_twice = Some Demo.doc_twice)
    as Hdoc by (apply index_document_id; vm_compute; reflexivity).
  assert (Demo.doc_twice !! "sysLocation.0" = Some (VStr "Lab-2")) as Hname
    by (vm_compute; reflexivity).
  split_and!; [done| |by left| |done|vm_compute; reflexivity].
  - rewrite _index_to_elasticsearch_run, Hdoc. cbn [snd].
    by rewrite journal_bump, indexed_app, indexed_index_events.
  - intros (H & _).
    assert (Some (VStr "Lab-2") = Some (VStr "Lab-1")) as Habs
      by (rewrite <- Hname; exact H).
    discriminate Habs.
Qed.

(** * More of the callback: the validator *)

Lemma _call_validate env addr msg w :
  msg ≠ [] ->
  _call env addr msg w
  = match validate env addr msg w with
    | (Return (Some trap), w1) => process env addr.1 trap w1
    | (Return None, w1) => (Return tt, w1)
    | (Raise e, w1) => (Raise e, w1)
    | (RaiseBase b, w1) => (RaiseBase b, w1)
    end.
Proof.
  intros Hne. unfold _call. rewrite bool_decide_eq_false_2 by done.
  unfold bind at 1.
  by destruct (validate env addr msg w) as [[[t|]|e|b] w1].
Qed.

Lemma __call___run env addr msg w :
  __call__ env addr msg w
  = match _call env addr msg w with
    | (Return _, w1) => (Return tt, w1)
    | (Raise e, w1) =>
        (Return tt,
         bump ["callback-failure"]
           [Log exception "Callback Failed: %s" [AExn e]] w1)
    | (RaiseBase b, w1) => (RaiseBase b, w1)
    end.
Proof.
  unfold __call__, try_except_Exception.
  destruct (_call env addr msg w) as [[[]|e|b] w1]; [done| |done].
  by steps.
Qed.

Lemma admit_decoded_run env host v pm vs req w :
  admit_decoded env host v pm vs req w
  = if negb (bool_decide (community env = ""))
       && negb (bool_decide (msg_community req = community env))
    then
      (Return None,
       bump ["unauthenticated-notification"]
         [Log warning
            "Received trap from %s with invalid community: %s... discarding"
            [AStr host; AStr (msg_community req)]] w)
    else if negb (bool_decide (pdu_tag (msg_pdu req) = pm_TrapPDU pm))
    then
      (Return None,
       bump ["unsupported-notification"]
         [Log warning "Received non-trap notification from %s"
            [AStr host]] w)
    else if negb (bool_decide (v ∈ [protoVersion1 env; protoVersion2c env]))
    then
      (Return None,
       bump ["unsupported-notification"]
         [Log warning "Received trap not in v1 or v2c" []] w)
    else
      match from_pdu env host pm vs (msg_pdu req) with
      | Return (Some trap) => (Return (Some trap), w)
      | Return None =>
          (Return None,
           bump ["unsupported-notification"]
             [Log warning "Invalid trap from %s: %s"
                [AStr host; APdu (msg_pdu req)]] w)
      | Raise e => (Raise e, w)
      | RaiseBase b => (RaiseBase b, w)
      end.
Proof.
  unfold admit_decoded.
  repeat (case_match; [by steps|]).
  steps. by repeat case_match; steps.
Qed.

Lemma validate_run env addr msg w :
  validate env addr msg w
  = match decodeMessageVersion env msg with
    | Raise e => (Raise e, w)
    | RaiseBase b => (RaiseBase b, w)
    | Return v =>
        match protoModules env !! v with
        | None =>
            (Return None,
             bump ["unsupported-notification"]
               [Log error "Unsupported SNMP version %s" [AInt v]] w)
        | Some pm =>
            match SNMP_VERSIONS env !! v with
            | None => (Raise (Exn KeyError (pretty v)), w)
            | Some vs =>
                match decode env msg pm with
                | Return (req, _) => admit_decoded env addr.1 v pm vs req w
                | Raise e =>
                    if isinstance e [ProtocolError; ValueConstraintError]
                    then
                      (Return None,
                       bump ["unsupported-notification"]
                         [Log warning
                            "Failed to receive trap (%s) from %s: %s"
                            [AStr vs; AStr addr.1; AExn e]] w)
                    else (Raise e, w)
                | RaiseBase b => (RaiseBase b, w)
                end
            end
        end
    end.
Proof.
  unfold validate. rewrite bind_call.
  destruct (decodeMessageVersion env msg) as [v|e|b]; [|done..].
  destruct (protoModules env !! v) as [pm|]; [|by steps].
  rewrite bind_call. unfold getitem_int.
  destruct (SNMP_VERSIONS env !! v) as [vs|]; [|done].
  unfold bind at 1, try_except. rewrite bind_call.
  destruct (decode env msg pm) as [[req rest]|e|b]; [done| |done].
  unfold select_clause.
  destruct (isinstance e [ProtocolError; ValueConstraintError]); [|done].
  by steps.
Qed.

Lemma _call_decodable env addr msg w v pm vs :
  decodable env msg v pm vs ->
  _call env addr msg w
  = match decode env msg pm with
    | Return (req, _) =>
        match admit_decoded env addr.1 v pm vs req w with
        | (Return (Some trap), w1) => process env addr.1 trap w1
        | (Return None, w1) => (Return tt, w1)
        | (Raise e, w1) => (Raise e, w1)
        | (RaiseBase b, w1) => (RaiseBase b, w1)
        end
    | Raise e =>
        if isinstance e [ProtocolError; ValueConstraintError]
        then
          (Return tt,
           bump ["unsupported-notification"]
             [Log warning "Failed to receive trap (%s) from %s: %s"
                [AStr vs; AStr addr.1; AExn e]] w)
        else (Raise e, w)
    | RaiseBase b => (RaiseBase b, w)
    end.
Proof.
  intros (Hne & Hv & Hpm & Hvs).
  rewrite (_call_validate _ _ _ _ Hne), validate_run, Hv, Hpm, Hvs.
  destruct (decode env msg pm) as [[req rest]|e|b]; [done| |done].
  by destruct (isinstance e [ProtocolError; ValueConstraintError]).
Qed.

Lemma _call_decoded env addr msg w v pm vs req :
  decoded env msg v pm vs req ->
  _call env addr msg w
  = match admit_decoded env addr.1 v pm vs req w with
    | (Return (Some trap), w1) => process env addr.1 trap w1
    | (Return None, w1) => (Return tt, w1)
    | (Raise e, w1) => (Raise e, w1)
    | (RaiseBase b, w1) => (RaiseBase b, w1)
    end.
Proof.
  intros (Hd & rest & Hdec). by rewrite (_call_decodable _ _ _ _ _ _ _ Hd), Hdec.
Qed.

(** X1. A message whose version pysnmp has no module for is discarded
    without being decoded: [_call] returns, ["unsupported-notification"]
    goes up by 1 and one error line carrying the version is logged; nothing
    else changes. *)
Theorem unknown_version_discarded env addr msg w v :
  msg ≠ [] ->
  decodeMessageVersion env msg = Return v ->
  protoModules env !! v = None ->
  _call env addr msg w
  = (Return tt,
     bump ["unsupported-notification"]
       [Log error "Unsupported SNMP version %s" [AInt v]] w).
Proof.
  intros Hne Hv Hpm.
  by rewrite (_call_validate _ _ _ _ Hne), validate_run, Hv, Hpm.
Qed.

Lemma unknown_version_discarded_witness :
  _call (Lab.front (Return 3) Lab.mods Lab.names
           (Return (Lab.public_trap, [])) "public"
           (Return (Some Demo.trap0)))
    Demo.addr Demo.whole_msg Demo.w0
  = (Return tt,
     bump ["unsupported-notification"]
       [Log error "Unsupported SNMP version %s" [AInt 3]] Demo.w0).
Proof.
  apply unknown_version_discarded; [done | reflexivity | reflexivity].
Defined.

(** X2. A version pysnmp has a module for but [SNMP_VERSIONS] has no name
    for makes [_call] raise [KeyError] before anything is decoded, counted
    or logged; the top-level boundary turns it into one
    ["callback-failure"]. *)
Theorem missing_version_name_is_key_error env addr msg w v pm :
  msg ≠ [] ->
  decodeMessageVersion env msg = Return v ->
  protoModules env !! v = Some pm ->
  SNMP_VERSIONS env !! v = None ->
  _call env addr msg w = (Raise (Exn KeyError (pretty v)), w) ∧
  __call__ env addr msg w
  = (Return tt,
     bump ["callback-failure"]
       [Log exception "Callback Failed: %s"
          [AExn (Exn KeyError (pretty v))]] w).
Proof.
  intros Hne Hv Hpm Hvs.
  assert (_call env addr msg w = (Raise (Exn KeyError (pretty v)), w)) as Hc
    by (by rewrite (_call_validate _ _ _ _ Hne), validate_run, Hv, Hpm, Hvs).
  split; [done|]. by rewrite __call___run, Hc.
Qed.

Lemma missing_version_name_is_key_error_witness :
  (_call (Lab.front (Return 1) Lab.mods {[ 0 := "1" ]}
            (Return (Lab.public_trap, [])) "public"
            (Return (Some Demo.trap0)))
     Demo.addr Demo.whole_msg Demo.w0).1
  = Raise (Exn KeyError "1").
Proof.
  destruct (missing_version_name_is_key_error
              (Lab.front (Return 1) Lab.mods {[ 0 := "1" ]}
                 (Return (Lab.public_trap, [])) "public"
                 (Return (Some Demo.trap0)))
              Demo.addr Demo.whole_msg Demo.w0 1 Demo.v2c) as [H _];
    [done | reflexivity | reflexivity | reflexivity |].
  by rewrite H.
Defined.

(** X3. When [decoder.decode] raises [ProtocolError] or
    [ValueConstraintError], the message is discarded: [_call] returns,
    ["unsupported-notification"] goes up by 1 and one warning carrying the
    version name, the sender and the error is logged; nothing else
    changes. *)
Theorem undecodable_message_discarded env addr msg w v pm vs err :
  decodable env msg v pm vs ->
  decode env msg pm = Raise err ->
  exn_cls err ∈ [ProtocolError; ValueConstraintError] ->
  _call env addr msg w
  = (Return tt,
     bump ["unsupported-notification"]
       [Log warning "Failed to receive trap (%s) from %s: %s"
          [AStr vs; AStr addr.1; AExn err]] w).
Proof.
  intros Hd Hdec Hc. rewrite (_call_decodable _ _ _ _ _ _ _ Hd), Hdec.
  unfold isinstance. by rewrite bool_decide_eq_true_2.
Qed.

Lemma undecodable_message_discarded_witness :
  _call (Lab.front (Return 1) Lab.mods Lab.names (Raise Lab.truncated)
           "public" (Return (Some Demo.trap0)))
    Demo.addr Demo.whole_msg Demo.w0
  = (Return tt,
     bump ["unsupported-notification"]
       [Log warning "Failed to receive trap (%s) from %s: %s"
          [AStr "2c"; AStr "192.0.2.7"; AExn Lab.truncated]] Demo.w0).
Proof.
  apply (undecodable_message_discarded
           (Lab.front (Return 1) Lab.mods Lab.names (Raise Lab.truncated)
              "public" (Return (Some Demo.trap0)))
           Demo.addr Demo.whole_msg Demo.w0 1 Demo.v2c "2c" Lab.truncated).
  - split_and!; [done | reflexivity..].
  - reflexivity.
  - apply elem_of_cons. by left.
Defined.



(** X5. With a community configured, a decoded message carrying another
    community is discarded whatever its PDU, its version and its content:
    [_call] returns, ["unauthenticated-notification"] goes up by 1 and one
    warning carrying the sender and the offered community is logged; the PDU
    is never converted. *)
Theorem community_mismatch_discarded env addr msg w v pm vs req :
  decoded env msg v pm vs req ->
  community env ≠ "" ->
  msg_community req ≠ community env ->
  _call env addr msg w
  = (Return tt,
     bump ["unauthenticated-notification"]
       [Log warning
          "Received trap from %s with invalid community: %s... discarding"
          [AStr addr.1; AStr (msg_community req)]] w).
Proof.
  intros Hd Hc Hm. rewrite (_call_decoded _ _ _ _ _ _ _ _ Hd).
  rewrite admit_decoded_run.
  by rewrite !bool_decide_eq_false_2 by done.
Qed.

Lemma community_mismatch_discarded_witness :
  _call (Lab.front (Return 1) Lab.mods Lab.names
           (Return (Lab.private_response, [])) "public" (Return None))
    Demo.addr Demo.whole_msg Demo.w0
  = (Return tt,
     bump ["unauthenticated-notification"]
       [Log warning
          "Received trap from %s with invalid community: %s... discarding"
          [AStr "192.0.2.7"; AStr "private"]] Demo.w0).
Proof.
  apply (community_mismatch_discarded
           (Lab.front (Return 1) Lab.mods Lab.names
              (Return (Lab.private_response, [])) "public" (Return None))
           Demo.addr Demo.whole_msg Demo.w0 1 Demo.v2c "2c"
           Lab.private_response).
  - split; [split_and!; [done | reflexivity..] | by exists []].
  - done.
  - done.
Defined.

(** X6. With no community configured (the empty string) the community of
    a message plays no part: two decoded messages that differ in their
    community only are treated alike. *)
Theorem no_secret_ignores_community env host v pm vs pdu c1 c2 w :
  community env = "" ->
  admit_decoded env host v pm vs {| msg_community := c1; msg_pdu := pdu |} w
  = admit_decoded env host v pm vs {| msg_community := c2; msg_pdu := pdu |} w.
Proof.
  intros Hc. rewrite !admit_decoded_run. simpl.
  by rewrite !bool_decide_eq_true_2 by done.
Qed.

Lemma no_secret_ignores_community_witness :
  admit_decoded
    (Lab.front (Return 1) Lab.mods Lab.names
       (Return (Lab.private_trap, [])) "" (Return (Some Demo.trap0)))
    "192.0.2.7" 1 Demo.v2c "2c" Lab.private_trap Demo.w0
  = (Return (Some Demo.trap0), Demo.w0).
Proof.
  unfold Lab.private_trap.
  rewrite (no_secret_ignores_community _ _ _ _ _ _ "private" "public");
    [|reflexivity].
  vm_compute. reflexivity.
Defined.

(** X7. A decoded message that passes the community check is discarded
    as unsupported, with one count and one warning, for exactly three
    reasons tried in this order: its PDU is not a trap PDU of its protocol
    module; its version is neither v1 nor v2c; the PDU does not convert to
    a notification. *)
Theorem unsupported_pdu_discarded env addr msg w v pm vs req :
  decoded env msg v pm vs req ->
  community env = "" ∨ msg_community req = community env ->
  (pdu_tag (msg_pdu req) ≠ pm_TrapPDU pm ->
   _call env addr msg w
   = (Return tt,
      bump ["unsupported-notification"]
        [Log warning "Received non-trap notification from %s"
           [AStr addr.1]] w)) ∧
  (pdu_tag (msg_pdu req) = pm_TrapPDU pm ->
   v ∉ [protoVersion1 env; protoVersion2c env] ->
   _call env addr msg w
   = (Return tt,
      bump ["unsupported-notification"]
        [Log warning "Received trap not in v1 or v2c" []] w)) ∧
  (pdu_tag (msg_pdu req) = pm_TrapPDU pm ->
   v ∈ [protoVersion1 env; protoVersion2c env] ->
   from_pdu env addr.1 pm vs (msg_pdu req) = Return None ->
   _call env addr msg w
   = (Return tt,
      bump ["unsupported-notification"]
        [Log warning "Invalid trap from %s: %s"
           [AStr addr.1; APdu (msg_pdu req)]] w)).
Proof.
  intros Hd Hc. rewrite (_call_decoded _ _ _ _ _ _ _ _ Hd), admit_decoded_run.
  replace (negb (bool_decide (community env = ""))
           && negb (bool_decide (msg_community req = community env)))
    with false
    by (destruct Hc as [Hc|Hc]; rewrite (bool_decide_eq_true_2 _ Hc);
        [done | by rewrite andb_false_r]).
  split_and!.
  - intros Ht. by rewrite bool_decide_eq_false_2.
  - intros Ht Hv. rewrite bool_decide_eq_true_2 by done.
    by rewrite bool_decide_eq_false_2.
  - intros Ht Hv Hconv. rewrite !bool_decide_eq_true_2 by done.
    by rewrite Hconv.
Qed.

Lemma unsupported_pdu_discarded_witness :
  _call (Lab.front (Return 1) Lab.mods Lab.names
           (Return (Lab.public_response, [])) "public"
           (Return (Some Demo.trap0)))
    Demo.addr Demo.whole_msg Demo.w0
  = (Return tt,
     bump ["unsupported-notification"]
       [Log warning "Received non-trap notification from %s"
          [AStr "192.0.2.7"]] Demo.w0) ∧
  _call (Lab.front (Return 3) (<[3 := Lab.v3]> Lab.mods)
           (<[3 := "3"]> Lab.names)
           (Return (Lab.public_trap, [])) "public"
           (Return (Some Demo.trap0)))
    Demo.addr Demo.whole_msg Demo.w0
  = (Return tt,
     bump ["unsupported-notification"]
       [Log warning "Received trap not in v1 or v2c" []] Demo.w0).
Proof.
  split.
  - destruct (unsupported_pdu_discarded
                (Lab.front (Return 1) Lab.mods Lab.names
                   (Return (Lab.public_response, [])) "public"
                   (Return (Some Demo.trap0)))
                Demo.addr Demo.whole_msg Demo.w0 1 Demo.v2c "2c"
                Lab.public_response) as (H & _).
    + split; [split_and!; [done | reflexivity..] | by exists []].
    + by right.
    + by apply H.
  - destruct (unsupported_pdu_discarded
                (Lab.front (Return 3) (<[3 := Lab.v3]> Lab.mods)
                   (<[3 := "3"]> Lab.names)
                   (Return (Lab.public_trap, [])) "public"
                   (Return (Some Demo.trap0)))
                Demo.addr Demo.whole_msg Demo.w0 3 Lab.v3 "3"
                Lab.public_trap) as (_ & H & _).
    + split; [split_and!; [done | reflexivity..] | by exists []].
    + by right.
    + apply H; [reflexivity|].
      intros Hin. apply list_elem_of_In in Hin. simpl in Hin.
      destruct Hin as [?|[?|[]]]; discriminate.
Defined.

(** X8. A message is admitted, and then leaves no trace in the counters
    and the journal, exactly when: its version has a protocol module and a
    name, it decodes, its community is the configured one (or none is
    configured), its PDU is a trap PDU of its module, its version is v1 or
    v2c, and the PDU converts to a notification. *)
Theorem admission_characterised env addr msg w trap :
  admitted env addr msg w trap ↔
  ∃ v pm vs req,
    decoded env msg v pm vs req ∧
    (community env = "" ∨ msg_community req = community env) ∧
    pdu_tag (msg_pdu req) = pm_TrapPDU pm ∧
    v ∈ [protoVersion1 env; protoVersion2c env] ∧
    from_pdu env addr.1 pm vs (msg_pdu req) = Return (Some trap).
Proof.
  unfold admitted, decoded, decodable. rewrite validate_run. split.
  - intros [Hne Hv].
    destruct (decodeMessageVersion env msg) as [v| |] eqn:Hver; [|done..].
    destruct (protoModules env !! v) as [pm|] eqn:Hpm; [|done].
    destruct (SNMP_VERSIONS env !! v) as [vs|] eqn:Hvs; [|done].
    destruct (decode env msg pm) as [[req rest]|e|b] eqn:Hdec;
      [|by destruct (isinstance e _)|done].
    rewrite admit_decoded_run in Hv.
    destruct (negb (bool_decide (community env = ""))
              && negb (bool_decide (msg_community req = community env)))
      eqn:Hc; [done|].
    case_bool_decide as Ht; [|done]. simpl in Hv.
    case_bool_decide as Hin; [|done]. simpl in Hv.
    destruct (from_pdu env addr.1 pm vs (msg_pdu req)) as [[t|]| |] eqn:Hf;
      [|done..].
    injection Hv as ->.
    exists v, pm, vs, req.
    split; [split; [done | by exists rest]|]. split; [|done].
    apply andb_false_iff in Hc. rewrite !negb_false_iff in Hc.
    destruct Hc as [Hc|Hc]; apply bool_decide_eq_true_1 in Hc; auto.
  - intros (v & pm & vs & req & ((Hne & -> & -> & ->) & rest & ->)
            & Hc & Ht & Hin & Hf).
    split; [done|]. rewrite admit_decoded_run.
    replace (negb (bool_decide (community env = ""))
             && negb (bool_decide (msg_community req = community env)))
      with false
      by (destruct Hc as [Hc|Hc]; rewrite (bool_decide_eq_true_2 _ Hc);
          [done | by rewrite andb_false_r]).
    by rewrite !bool_decide_eq_true_2, Hf by done.
Qed.

(** * More of the callback: what one invocation adds up to *)

Lemma write_events_committed env trap i :
  write_outcome env trap = Return i ->
  write_events env trap = [ConnAdd trap; ConnCommit].
Proof.
  unfold write_outcome, write_events. by destruct (conn_add env trap).
Qed.

(** The four ways the write can end. *)
Lemma persist_shape env host name trap w :
  ∃ o names evs,
    persist env host name trap w
    = (o, bump ("db_write_attempted" :: names) evs w) ∧
    conn_adds evs = [trap] ∧ sent_mails evs = [] ∧ indexed evs = [] ∧
    (commits evs <= 1)%nat ∧
    ((names = ["db_write_successful"] ∧ rollbacks evs = 0%nat ∧
      commits evs = 1%nat ∧ ∃ i, o = Return (false, set_id i trap)) ∨
     (names = ["db_write_failed"] ∧ rollbacks evs = 1%nat ∧
      o = Return (false, trap)) ∨
     (names = ["db_write_duplicate"] ∧ rollbacks evs = 1%nat ∧
      o = Return (true, trap)) ∨
     (names = [] ∧ rollbacks evs = 0%nat ∧
      ((∃ e, o = Raise e) ∨ ∃ b, o = RaiseBase b))).
Proof.
  pose proof (conn_adds_write_events env trap) as Ha.
  pose proof (commits_write_events env trap) as Hc.
  pose proof (sent_mails_write_events env trap) as Hm.
  pose proof (indexed_write_events env trap) as Hi.
  pose proof (rollbacks_write_events env trap) as Hr.
  destruct (write_outcome env trap) as [i|e|b] eqn:Hw; cycle 2.
  { rewrite (persist_exits _ _ _ _ _ _ Hw).
    exists (RaiseBase b), [], (write_events env trap).
    split; [done|]. split_and!; [done..|].
    right; right; right. split_and!; [done..|]. right. by eexists. }
  { rewrite (persist_committed _ _ _ _ _ _ Hw).
    eexists _, _, _. split; [done|]. split_and!; [done..|].
    left. split_and!; [done..| |by eexists].
    by rewrite (write_events_committed _ _ _ Hw). }
  destruct (decide (exn_cls e ∈ [OperationalError; InvalidRequestError]))
    as [Ht|Ht].
  { rewrite (persist_transient _ _ _ _ _ _ Hw Ht).
    assert (∀ l, l = [ConnRollback; transient_line e] ->
              conn_adds l = [] ∧ sent_mails l = [] ∧ indexed l = [] ∧
              commits l = 0%nat ∧ rollbacks l = 1%nat) as Hl
      by (intros l ->; unfold transient_line; by case_bool_decide).
    destruct (Hl _ eq_refl) as (H1 & H2 & H3 & H4 & H5).
    eexists _, _, _. split; [done|].
    rewrite conn_adds_app, sent_mails_app, indexed_app, commits_app,
      rollbacks_app, Ha, Hm, Hi, Hr, H1, H2, H3, H4, H5.
    split_and!; [done..|lia|]. right; left. done. }
  destruct (decide (exn_cls e = IntegrityError)) as [Hd|Hd].
  { rewrite (persist_duplicate _ _ _ _ _ _ Hw Hd).
    eexists _, _, _. split; [done|].
    rewrite conn_adds_app, sent_mails_app, indexed_app, commits_app,
      rollbacks_app, Ha, Hm, Hi, Hr.
    split_and!; [done..|unfold commits at 2; simpl; lia|].
    right; right; left. done. }
  rewrite (persist_unhandled _ _ _ _ _ _ Hw)
    by (rewrite !elem_of_cons, elem_of_nil in *; tauto).
  exists (Raise e), [], (write_events env trap).
  split; [done|]. split_and!; [done..|].
  right; right; right. split_and!; [done..|]. left. by eexists.
Qed.


(** The ways the fan-out can end: at most one mail, with its attempt
    counted, and at most one document. *)
Lemma fan_out_shape env h trap dup w :
  ∃ o names evs,
    fan_out env h trap dup w = (o, bump names evs w) ∧
    store_free evs ∧ (length (indexed evs) <= 1)%nat ∧
    ((names = [] ∧ sent_mails evs = []) ∨
     (names ∈ [["mail_sent_attempted"; "mail_sent_successful"];
               ["mail_sent_attempted"; "mail_sent_failed"];
               ["mail_sent_attempted"]] ∧
      length (sent_mails evs) = 1%nat)).
Proof.
  assert (∀ names evs w1 (o : outcome unit),
    store_free evs -> indexed evs = [] ->
    ((names = [] ∧ sent_mails evs = []) ∨
     (names ∈ [["mail_sent_attempted"; "mail_sent_successful"];
               ["mail_sent_attempted"; "mail_sent_failed"];
               ["mail_sent_attempted"]] ∧
      length (sent_mails evs) = 1%nat)) ->
    w1 = bump names evs w ->
    ∃ o' names' evs',
      _index_to_elasticsearch env trap w1 = (o', bump names' evs' w) ∧
      store_free evs' ∧ (length (indexed evs') <= 1)%nat ∧
      ((names' = [] ∧ sent_mails evs' = []) ∨
       (names' ∈ [["mail_sent_attempted"; "mail_sent_successful"];
                  ["mail_sent_attempted"; "mail_sent_failed"];
                  ["mail_sent_attempted"]] ∧
        length (sent_mails evs') = 1%nat))) as Hindex.
  { intros names evs w1 o Hf Hi Hm ->.
    rewrite _index_to_elasticsearch_run.
    destruct (index_document env trap) as [doc|];
      rewrite bump_bump, app_nil_r; eexists _, _, _; (split; [done|]).
    - split; [apply store_free_app;
                [done | apply index_events_store_free]|].
      rewrite indexed_app, Hi, indexed_index_events, sent_mails_app,
        (proj2 (index_events_sent_mails env trap doc)), app_nil_r.
      split; [simpl; lia | done].
    - split; [apply store_free_app;
                [done | apply (index_events_store_free env trap ∅)]|].
      rewrite indexed_app, Hi, indexed_index_prologue, sent_mails_app,
        (proj1 (index_events_sent_mails env trap ∅)), !app_nil_r.
      split; [simpl; lia | done]. }
  assert (∀ w1, w1 = w ->
            ∃ o' names' evs',
              _index_to_elasticsearch env trap w1 = (o', bump names' evs' w) ∧
              store_free evs' ∧ (length (indexed evs') <= 1)%nat ∧
              ((names' = [] ∧ sent_mails evs' = []) ∨
               (names' ∈ [["mail_sent_attempted"; "mail_sent_successful"];
                          ["mail_sent_attempted"; "mail_sent_failed"];
                          ["mail_sent_attempted"]] ∧
                length (sent_mails evs') = 1%nat))) as Hskip.
  { intros w1 ->. apply (Hindex [] [] _ (Return tt));
      [constructor | done | by left | by rewrite bump_nil]. }
  unfold fan_out, bind at 1.
  destruct (dup && negb (mail_on_duplicate h)) eqn:Hd.
  { unfold _send_mail. rewrite Hd. by apply Hskip. }
  destruct (mail h) as [rule|] eqn:Hm; cycle 1.
  { rewrite _send_mail_unconfigured by (by rewrite Hm). by apply Hskip. }
  destruct (decide (recipients rule = [])) as [Hr|Hr].
  { rewrite _send_mail_unconfigured by (by rewrite Hm). by apply Hskip. }
  destruct (percent_format env (subject rule) (subject_mapping env trap))
    as [subj|e|b] eqn:Hs; cycle 1.
  { unfold _send_mail.
    rewrite Hd, Hm, bool_decide_eq_false_2, bind_call, Hs by done.
    exists (Raise e), [], []. rewrite bump_nil.
    split_and!; [done | constructor | simpl; lia | by left]. }
  { unfold _send_mail.
    rewrite Hd, Hm, bool_decide_eq_false_2, bind_call, Hs by done.
    exists (RaiseBase b), [], []. rewrite bump_nil.
    split_and!; [done | constructor | simpl; lia | by left]. }
  erewrite _send_mail_due;
    [|by destruct dup, (mail_on_duplicate h); auto | done..].
  destruct (mail_answer env rule subj trap) as [[]|e|b];
    [|destruct (isinstance e [socket_error])|].
  - eapply (Hindex _ _ _ (Return tt)); [| | |reflexivity];
      [repeat constructor | done |].
    right. split; [|done]. apply elem_of_cons. by left.
  - eapply (Hindex _ _ _ (Return tt)); [| | |reflexivity];
      [repeat constructor | done |].
    right. split; [|done].
    apply elem_of_cons. right. apply elem_of_cons. by left.
  - eexists _, _, _. split; [done|].
    split_and!; [repeat constructor | simpl; lia |].
    right. split; [|done].
    do 2 (apply elem_of_cons; right). apply elem_of_cons. by left.
  - eexists _, _, _. split; [done|].
    split_and!; [repeat constructor | simpl; lia |].
    right. split; [|done].
    do 2 (apply elem_of_cons; right). apply elem_of_cons. by left.
Qed.

Lemma validate_cases env addr msg w :
  (∃ trap, validate env addr msg w = (Return (Some trap), w)) ∨
  (∃ err, validate env addr msg w = (Raise err, w)) ∨
  (∃ b, validate env addr msg w = (RaiseBase b, w)) ∨
  (∃ c line,
     validate env addr msg w = (Return None, bump [c] [line] w) ∧
     c ∈ rejection_counters ∧ is_log line = true).
Proof.
  assert (∀ c line, c ∈ rejection_counters -> is_log line = true ->
            ∃ c' line',
              (@Return (option Notification) None, bump [c] [line] w)
              = (Return None, bump [c'] [line'] w) ∧
              c' ∈ rejection_counters ∧ is_log line' = true) as Hrej
    by (intros c line ??; by exists c, line).
  assert ("unsupported-notification" ∈ rejection_counters) as Hu
    by (apply elem_of_cons; by left).
  assert ("unauthenticated-notification" ∈ rejection_counters) as Ha
    by (apply elem_of_cons; right; apply elem_of_cons; by left).
  rewrite validate_run.
  destruct (decodeMessageVersion env msg) as [v|e|b];
    [|right; left; eauto|right; right; left; eauto].
  destruct (protoModules env !! v) as [pm|];
    [|right; right; right; by apply Hrej].
  destruct (SNMP_VERSIONS env !! v) as [vs|]; [|right; left; eauto].
  destruct (decode env msg pm) as [[req rest]|e|b]; cycle 1.
  { destruct (isinstance e _); [right; right; right; by apply Hrej|].
    right; left; eauto. }
  { right; right; left; eauto. }
  rewrite admit_decoded_run.
  repeat (case_match; [right; right; right; by apply Hrej|]).
  destruct (from_pdu env addr.1 pm vs (msg_pdu req)) as [[t|]|e|b].
  - left; eauto.
  - right; right; right; by apply Hrej.
  - right; left; eauto.
  - right; right; left; eauto.
Qed.

(** Evaluates the tallies of counter lists written out in full. *)
Ltac tallies :=
  repeat match goal with
         | |- context [tally ?l ?c] =>
             let v := eval vm_compute in (tally l c) in
             change (tally l c) with v
         end.

Lemma run_shape_nil : run_shape [] [].
Proof.
  unfold run_shape. cbn zeta. tallies. unfold rollbacks, commits. simpl. lia.
Qed.

Lemma _call_shape env addr msg w :
  ∃ o names evs,
    _call env addr msg w = (o, bump names evs w) ∧ run_shape names evs.
Proof.
  destruct (decide (msg = [])) as [->|Hne].
  { exists (Return tt), [], []. rewrite bump_nil.
    split; [done | apply run_shape_nil]. }
  rewrite (_call_validate _ _ _ _ Hne).
  destruct (validate_cases env addr msg w)
    as [[trap0 ->]|[[err ->]|[[b ->]|(c & line & -> & Hc & Hl)]]].
  2: { exists (Raise err), [], []. rewrite bump_nil.
       split; [done | apply run_shape_nil]. }
  2: { exists (RaiseBase b), [], []. rewrite bump_nil.
       split; [done | apply run_shape_nil]. }
  2: { exists (Return tt), [c], [line]. split; [done|].
       destruct line; try discriminate Hl.
       unfold rejection_counters in Hc. rewrite !elem_of_cons in Hc.
       destruct Hc as [->|[->|Hc]]; [| |by apply elem_of_nil in Hc];
         unfold run_shape; cbn zeta; tallies; unfold rollbacks, commits;
         simpl; lia. }
  destruct (resolve_policy env trap0 w) as [[[h trap]|e|b] w1] eqn:Hres;
    pose proof (resolve_policy_world _ _ _ _ _ Hres) as ->; cycle 1.
  { exists (Raise e), [], []. rewrite bump_nil. unfold process.
    rewrite (bind_raise _ _ _ _ _ Hres).
    split; [done | apply run_shape_nil]. }
  { exists (RaiseBase b), [], []. rewrite bump_nil. unfold process.
    rewrite (bind_raise_base _ _ _ _ _ Hres).
    split; [done | apply run_shape_nil]. }
  rewrite (process_resolved _ _ _ _ _ _ Hres).
  destruct (blackholed h).
  { eexists _, _, _. split; [done|].
    unfold run_shape; cbn zeta; tallies; unfold rollbacks, commits;
    simpl; lia. }
  match goal with
  | |- context [bind (persist ?e ?a ?n ?t) _ ?w0] =>
      destruct (persist_shape e a n t w0)
        as (o & names & evs & Hp & Ha & Hm & Hi & Hc & Hcases)
  end.
  unfold bind. rewrite Hp, bump_bump. simpl app.
  assert (∀ fnames fevs,
    store_free fevs -> (length (indexed fevs) <= 1)%nat ->
    ((fnames = [] ∧ sent_mails fevs = []) ∨
     (fnames ∈ [["mail_sent_attempted"; "mail_sent_successful"];
                ["mail_sent_attempted"; "mail_sent_failed"];
                ["mail_sent_attempted"]] ∧
      length (sent_mails fevs) = 1%nat)) ->
    names ≠ [] ->
    run_shape ("traps_received" :: "traps_accepted" :: "db_write_attempted"
                 :: names ++ fnames)
      (Log info "Trap Received (%s) from %s"
         [AStr (ObjectId_name env (n_oid trap)); AStr addr.1]
         :: evs ++ fevs)) as Hshape.
  { intros fnames fevs Hf Hfi Hfm Hnames.
    pose proof (store_free_conn_adds _ Hf) as Hfa.
    pose proof (store_free_rollbacks _ Hf) as Hfr.
    pose proof (store_free_commits _ Hf) as Hfc.
    assert (∀ l, conn_adds (Log info "Trap Received (%s) from %s"
                               [AStr (ObjectId_name env (n_oid trap));
                                AStr addr.1] :: l) = conn_adds l ∧
                 sent_mails (Log info "Trap Received (%s) from %s"
                               [AStr (ObjectId_name env (n_oid trap));
                                AStr addr.1] :: l) = sent_mails l ∧
                 indexed (Log info "Trap Received (%s) from %s"
                            [AStr (ObjectId_name env (n_oid trap));
                             AStr addr.1] :: l) = indexed l ∧
                 rollbacks (Log info "Trap Received (%s) from %s"
                              [AStr (ObjectId_name env (n_oid trap));
                               AStr addr.1] :: l) = rollbacks l ∧
                 commits (Log info "Trap Received (%s) from %s"
                            [AStr (ObjectId_name env (n_oid trap));
                             AStr addr.1] :: l) = commits l) as Hhead
      by done.
    unfold run_shape. cbn zeta.
    destruct (Hhead (evs ++ fevs)) as (-> & -> & -> & -> & ->).
    rewrite conn_adds_app, sent_mails_app, indexed_app, rollbacks_app,
      commits_app, Ha, Hm, Hi, Hfa, Hfr, Hfc, !length_app.
    assert (names = ["db_write_successful"] ∧ rollbacks evs = 0%nat ∧
            commits evs = 1%nat
            ∨ names = ["db_write_failed"] ∧ rollbacks evs = 1%nat
            ∨ names = ["db_write_duplicate"] ∧ rollbacks evs = 1%nat)
      as Hn by (destruct Hcases as [(?&?&?&_)|[(?&?&_)|[(?&?&_)|(?&_)]]];
                auto; done).
    destruct Hfm as [[-> Hfm]|[Hin Hfm]]; rewrite Hfm.
    - destruct Hn as [(-> & -> & ->)|[(-> & ->)|(-> & ->)]];
        tallies; simpl; lia.
    - rewrite !elem_of_cons in Hin.
      destruct Hin as [->|[->|[->|Hin]]]; [| | |by apply elem_of_nil in Hin];
        destruct Hn as [(-> & -> & ->)|[(-> & ->)|(-> & ->)]];
        tallies; simpl; lia. }
  destruct Hcases as [(-> & Hr & Hcm & i & ->)|[(-> & Hr & ->)
                     |[(-> & Hr & ->)|(-> & Hr & [[e ->]|[b ->]])]]]; simpl.
  4,5: eexists _, _, _; (split; [done|]);
       unfold run_shape; cbn zeta;
       change (?x :: evs) with ([x] ++ evs);
       rewrite conn_adds_app, sent_mails_app, indexed_app, rollbacks_app,
         commits_app, Ha, Hm, Hi, Hr;
       tallies; unfold commits at 1; simpl; lia.
  all: match goal with
       | |- context [fan_out ?e ?hh ?t ?d ?w0] =>
           destruct (fan_out_shape e hh t d w0)
             as (fo & fnames & fevs & -> & Hf & Hfi & Hfm)
       end;
    rewrite bump_bump; simpl app; eexists _, _, _; (split; [done|]);
    by apply Hshape.
Qed.

Lemma run_shape_failure names evs e :
  run_shape names evs ->
  let t := tally (names ++ ["callback-failure"]) in
  let evs' := evs ++ [Log exception "Callback Failed: %s" [AExn e]] in
  (∀ c, c ≠ "callback-failure" -> t c = tally names c) ∧
  t "callback-failure" = 1 ∧
  conn_adds evs' = conn_adds evs ∧ sent_mails evs' = sent_mails evs ∧
  indexed evs' = indexed evs ∧ rollbacks evs' = rollbacks evs ∧
  commits evs' = commits evs.
Proof.
  intros Hs t evs'. subst t evs'.
  assert (∀ c, tally (names ++ ["callback-failure"]) c
               = tally names c + tally ["callback-failure"] c) as Happ.
  { intros c. unfold tally. rewrite filter_app, length_app. lia. }
  split_and!.
  - intros c Hc. rewrite Happ, (tally_notin ["callback-failure"]); [lia|].
    rewrite elem_of_cons, elem_of_nil. tauto.
  - rewrite Happ. destruct Hs as (_&_&_&_&_&_&_&_&_&_&_&->).
    by tallies.
  - rewrite conn_adds_app. simpl. by rewrite app_nil_r.
  - rewrite sent_mails_app. simpl. by rewrite app_nil_r.
  - rewrite indexed_app. simpl. by rewrite app_nil_r.
  - rewrite rollbacks_app. unfold rollbacks at 2. simpl. lia.
  - rewrite commits_app. unfold commits at 2. simpl. lia.
Qed.

Lemma __call___summary env addr msg w :
  ∃ names evs names0 evs0,
    (__call__ env addr msg w).2 = bump names evs w ∧
    run_shape names0 evs0 ∧
    (∀ c, c ≠ "callback-failure" -> tally names c = tally names0 c) ∧
    0 <= tally names "callback-failure" <= 1 ∧
    conn_adds evs = conn_adds evs0 ∧ sent_mails evs = sent_mails evs0 ∧
    indexed evs = indexed evs0 ∧ rollbacks evs = rollbacks evs0 ∧
    commits evs = commits evs0.
Proof.
  destruct (_call_shape env addr msg w) as (o & names & evs & Hc & Hs).
  rewrite __call___run, Hc. destruct o as [[]|e|b].
  - exists names, evs, names, evs. split_and!; try done.
    all: destruct Hs as (_&_&_&_&_&_&_&_&_&_&_&->); lia.
  - rewrite bump_bump.
    destruct (run_shape_failure names evs e Hs)
      as (H1 & H2 & H3 & H4 & H5 & H6 & H7).
    eexists _, _, names, evs. split; [done|].
    split_and!; try done. all: rewrite H2; lia.
  - exists names, evs, names, evs. split_and!; try done.
    all: destruct Hs as (_&_&_&_&_&_&_&_&_&_&_&->); lia.
Qed.

(** X10. The counters of one invocation of [__call__] are consistent,
    whatever the message and whatever the collaborators do.  No counter
    decreases.  A message is rejected once, or received once, or neither;
    every received trap is either accepted or blackholed; every accepted
    trap is written once; a write ends in at most one of success, failure
    and duplicate; a mail is attempted only after the write ended in one of
    these, and ends in at most one of success and failure; and at most one
    callback failure is counted. *)
Theorem invocation_counters_consistent env addr msg w :
  let d c := counter c (__call__ env addr msg w).2 - counter c w in
  (∀ c, 0 <= d c) ∧
  d "unsupported-notification" + d "unauthenticated-notification"
    + d "traps_received" <= 1 ∧
  d "traps_received" = d "traps_accepted" + d "traps_blackholed" ∧
  d "traps_accepted" = d "db_write_attempted" ∧
  d "db_write_successful" + d "db_write_failed" + d "db_write_duplicate"
    <= d "db_write_attempted" ∧
  d "mail_sent_attempted"
    <= d "db_write_successful" + d "db_write_failed"
       + d "db_write_duplicate" ∧
  d "mail_sent_successful" + d "mail_sent_failed"
    <= d "mail_sent_attempted" ∧
  d "callback-failure" <= 1.
Proof.
  intros d.
  destruct (__call___summary env addr msg w)
    as (names & evs & names0 & evs0 & Hw & Hs & Hn & Hf & _).
  assert (∀ c, d c = tally names c) as Hd
    by (intros c; unfold d; rewrite Hw, counter_bump; lia).
  destruct Hs as (H1 & H2 & H3 & H4 & H5 & H6 & _).
  rewrite !Hd. rewrite !Hn by done.
  split_and!; try done; try lia.
  intros c. rewrite Hd. unfold tally. lia.
Qed.

(** X11. The counters of one invocation of [__call__] are the numbers of
    the calls it made: [conn.add] is called as often as
    ["db_write_attempted"] rises, the session is rolled back as often as
    ["db_write_failed"] and ["db_write_duplicate"] rise together, the mail
    transport is called as often as ["mail_sent_attempted"] rises, and each
    counted success of the write is a call of [conn.commit].  Each of
    [conn.add], [conn.commit], [conn.rollback], the mail transport and the
    index is called at most once. *)
Theorem counters_match_calls env addr msg w :
  let d c := counter c (__call__ env addr msg w).2 - counter c w in
  ∃ evs,
    journal (__call__ env addr msg w).2 = journal w ++ evs ∧
    Z.of_nat (length (conn_adds evs)) = d "db_write_attempted" ∧
    Z.of_nat (rollbacks evs)
    = d "db_write_failed" + d "db_write_duplicate" ∧
    Z.of_nat (length (sent_mails evs)) = d "mail_sent_attempted" ∧
    d "db_write_successful" <= Z.of_nat (commits evs) ∧
    (length (conn_adds evs) <= 1)%nat ∧ (commits evs <= 1)%nat ∧
    (rollbacks evs <= 1)%nat ∧ (length (sent_mails evs) <= 1)%nat ∧
    (length (indexed evs) <= 1)%nat.
Proof.
  intros d.
  destruct (__call___summary env addr msg w)
    as (names & evs & names0 & evs0 & Hw & Hs & Hn & Hf
        & Ha & Hm & Hi & Hr & Hc).
  assert (∀ c, d c = tally names c) as Hd
    by (intros c; unfold d; rewrite Hw, counter_bump; lia).
  assert (∀ c, 0 <= tally names0 c) as Hpos
    by (intros c; unfold tally; lia).
  exists evs. split; [by rewrite Hw|].
  destruct Hs as (H1 & H2 & H3 & H4 & H5 & H6 & H7 & H8 & H9 & H10 & H11 & _).
  rewrite !Hd, !Hn, Ha, Hm, Hi, Hr, Hc by done.
  pose proof (Hpos "unsupported-notification").
  pose proof (Hpos "unauthenticated-notification").
  pose proof (Hpos "traps_blackholed").
  pose proof (Hpos "db_write_successful").
  pose proof (Hpos "db_write_failed").
  pose proof (Hpos "db_write_duplicate").
  pose proof (Hpos "mail_sent_successful").
  pose proof (Hpos "mail_sent_failed").
  split_and!; lia.
Qed.

(** X9. For a message that is not empty, the validator's outcome
    decides what [_call] does: an admitted message goes on to the policy
    with the world untouched; an exception of the validator, be it an
    instance of [Exception] or not, leaves [_call] with the world untouched;
    a rejected message makes [_call] return with exactly one of the two
    rejection counters up by 1 and exactly one log line written.  There is
    no other outcome. *)
Theorem validator_outcomes env addr msg w :
  msg ≠ [] ->
  (∃ trap, admitted env addr msg w trap ∧
           _call env addr msg w = process env addr.1 trap w) ∨
  (∃ err, validate env addr msg w = (Raise err, w) ∧
          _call env addr msg w = (Raise err, w)) ∨
  (∃ b, validate env addr msg w = (RaiseBase b, w) ∧
        _call env addr msg w = (RaiseBase b, w)) ∨
  (∃ c line,
     validate env addr msg w = (Return None, bump [c] [line] w) ∧
     _call env addr msg w = (Return tt, bump [c] [line] w) ∧
     c ∈ rejection_counters ∧ is_log line = true).
Proof.
  intros Hne. rewrite (_call_validate _ _ _ _ Hne).
  destruct (validate_cases env addr msg w)
    as [[trap Hv]|[[err Hv]|[[b Hv]|(c & line & Hv & Hc & Hl)]]];
    rewrite Hv.
  - left. exists trap. by split.
  - right; left. by exists err.
  - right; right; left. by exists b.
  - right; right; right. by exists c, line.
Qed.

Lemma validator_outcomes_witness :
  (∃ trap, admitted Demo.plain Demo.addr Demo.whole_msg Demo.w0 trap) ∧
  ∃ c line,
    _call (Lab.front (Return 1) Lab.mods Lab.names
             (Return (Lab.private_trap, [])) "public"
             (Return (Some Demo.trap0)))
      Demo.addr Demo.whole_msg Demo.w0
    = (Return tt, bump [c] [line] Demo.w0).
Proof.
  split.
  - destruct (validator_outcomes Demo.plain Demo.addr Demo.whole_msg
                Demo.w0)
      as [(trap & H & _)|[(err & H & _)|[(b & H & _)|(c & l & H & _)]]];
      [done | by exists trap | vm_compute in H; discriminate H
      | vm_compute in H; discriminate H
      | vm_compute in H; discriminate H].
  - destruct (validator_outcomes
                (Lab.front (Return 1) Lab.mods Lab.names
                   (Return (Lab.private_trap, [])) "public"
                   (Return (Some Demo.trap0)))
                Demo.addr Demo.whole_msg Demo.w0)
      as [(trap & [_ H] & _)|[(err & H & _)|[(b & H & _)
                                             |(c & l & _ & H & _)]]];
      [done | vm_compute in H; discriminate H
      | vm_compute in H; discriminate H
      | vm_compute in H; discriminate H | by exists c, l].
Defined.

(** * More of the callback: the policy, the write and the fan-out *)



(** X13. What the enrichment hook returns is what the rest of the
    pipeline works with.  The trap keeps the host, OID, sent time and
    bindings the hook left it with and gets the severity of the hook's
    policy and this manager.  If the hook's policy is a blackhole the trap
    is dropped, whatever the table says; otherwise the trap is handed to the
    store in exactly this state. *)
Theorem hook_result_is_what_is_used env addr msg w trap0 d trap :
  admitted env addr msg w trap0 ->
  dde_run env (dde_of env trap0) = Return d ->
  apply_policy env (dde_handler d) (dde_notification d) = Return trap ->
  resolved env addr msg w (dde_handler d) trap ∧
  n_severity trap = Some (severity (dde_handler d)) ∧
  n_manager trap = Some (hostname env) ∧
  n_host trap = n_host (dde_notification d) ∧
  n_oid trap = n_oid (dde_notification d) ∧
  n_sent trap = n_sent (dde_notification d) ∧
  n_varbinds trap = n_varbinds (dde_notification d) ∧
  (blackholed (dde_handler d) = true ->
   _call env addr msg w
   = (Return tt,
      bump ["traps_received"; "traps_blackholed"]
        [Log debug "Blackholed %s from %s"
           [AStr (ObjectId_name env (n_oid trap)); AStr addr.1]] w)) ∧
  (blackholed (dde_handler d) = false ->
   conn_adds (journal (_call env addr msg w).2)
   = conn_adds (journal w) ++ [trap]).
Proof.
  intros Ha Hd Hap.
  assert (resolved env addr msg w (dde_handler d) trap) as Hr.
  { exists trap0. split; [done|].
    by rewrite (resolve_policy_run _ _ _ _ Hd), Hap. }
  destruct (apply_policy_fields _ _ _ _ Hap) as (H1&H2&H3&H4&H5&H6&_).
  split_and!; [done..| |].
  - intros Hb. by rewrite (_call_resolved _ _ _ _ _ _ Hr), Hb.
  - intros Hb. by destruct (accepted_trap_written _ _ _ _ _ _ Hr Hb).
Qed.

Lemma hook_result_is_what_is_used_witness :
  _call (Lab.back Demo.table
           (fun d => Return {| dde_notification := dde_notification d;
                               dde_handler := Demo.sink |})
           Lab.quarter_hour (Return tt) (Return 40)
           Lab.as_is (Return tt) Demo.fields (Return tt))
    Demo.addr Demo.whole_msg Demo.w0
  = (Return tt,
     bump ["traps_received"; "traps_blackholed"]
       [Log debug "Blackholed %s from %s"
          [AStr "IF-MIB::linkDown"; AStr "192.0.2.7"]] Demo.w0).
Proof.
  destruct (hook_result_is_what_is_used
              (Lab.back Demo.table
                 (fun d => Return {| dde_notification := dde_notification d;
                                     dde_handler := Demo.sink |})
                 Lab.quarter_hour (Return tt) (Return 40)
                 Lab.as_is (Return tt) Demo.fields (Return tt))
              Demo.addr Demo.whole_msg Demo.w0 Demo.trap0
              {| dde_notification := Demo.trap0; dde_handler := Demo.sink |}
              Demo.trap1) as (_&_&_&_&_&_&_& H & _).
  - split; [done | vm_compute; reflexivity].
  - reflexivity.
  - vm_compute. reflexivity.
  - by apply H.
Defined.

(** X14. When [conn.add] and [conn.commit] return for an accepted trap,
    the write counts one attempt and one success, does not roll back, and
    the run continues with the fan-out, with [duplicate = False]. *)
Theorem committed_trap_fans_out env addr msg w handler trap i :
  resolved env addr msg w handler trap ->
  blackholed handler = false ->
  write_outcome env trap = Return i ->
  let w2 :=
    bump ["traps_received"; "traps_accepted"; "db_write_attempted";
          "db_write_successful"]
      [received_line env addr trap; ConnAdd trap; ConnCommit] w in
  at_fan_out env addr msg w handler (set_id i trap) false w2 ∧
  _call env addr msg w = fan_out env handler (set_id i trap) false w2 ∧
  rollbacks (journal (_call env addr msg w).2) = rollbacks (journal w) ∧
  counter "db_write_failed" (_call env addr msg w).2
  = counter "db_write_failed" w ∧
  counter "db_write_duplicate" (_call env addr msg w).2
  = counter "db_write_duplicate" w.
Proof.
  intros Hr Hb Hw w2.
  assert (at_fan_out env addr msg w handler (set_id i trap) false w2) as Hat.
  { exists trap. split_and!; [done..|].
    rewrite (persist_committed _ _ _ _ _ _ Hw).
    rewrite (write_events_committed _ _ _ Hw).
    unfold accepted_world. by rewrite bump_bump. }
  pose proof (_call_at_fan_out _ _ _ _ _ _ _ _ Hat) as Hcall.
  assert (∀ c, c ∉ mail_counters ->
            counter c (_call env addr msg w).2 = counter c w2) as Hkeep.
  { intros c Hc. rewrite Hcall.
    destruct (fan_out_frame env handler (set_id i trap) false w2)
      as (o & names & evs & -> & Hf & Hn). cbn [snd].
    rewrite counter_bump, tally_notin; [lia|]. intros Hin. by apply Hc, Hn. }
  split_and!; [done..| | |].
  - rewrite Hcall.
    destruct (fan_out_frame env handler (set_id i trap) false w2)
      as (o & names & evs & -> & Hf & Hn). cbn [snd].
    rewrite journal_bump, rollbacks_app, (store_free_rollbacks _ Hf).
    subst w2. rewrite journal_bump, rollbacks_app.
    unfold rollbacks at 2. simpl. lia.
  - rewrite Hkeep.
    + subst w2. rewrite counter_bump. tallies. lia.
    + intros Hin. apply list_elem_of_In in Hin. simpl in Hin.
      destruct Hin as [?|[?|[?|[]]]]; done.
  - rewrite Hkeep.
    + subst w2. rewrite counter_bump. tallies. lia.
    + intros Hin. apply list_elem_of_In in Hin. simpl in Hin.
      destruct Hin as [?|[?|[?|[]]]]; done.
Qed.

Lemma committed_trap_fans_out_witness :
  rollbacks (journal (_call Demo.plain Demo.addr Demo.whole_msg Demo.w0).2)
  = 0%nat ∧
  counter "db_write_failed"
    (_call Demo.plain Demo.addr Demo.whole_msg Demo.w0).2 = 0.
Proof.
  destruct (committed_trap_fans_out Demo.plain Demo.addr Demo.whole_msg
              Demo.w0 Demo.policy Demo.trap1 40) as (_ & _ & H1 & H2 & _).
  - exists Demo.trap0. split; [split; [done|]|]; vm_compute; reflexivity.
  - reflexivity.
  - reflexivity.
  - split; [exact H1 | exact H2].
Defined.

(** X15. An exception of the store that is none of [OperationalError],
    [InvalidRequestError] and [IntegrityError] is not handled by the write:
    [_call] raises it after the attempt was counted, the session is not
    rolled back, and neither the mail transport nor the index is called. *)
Theorem unhandled_store_error_aborts env addr msg w handler trap err :
  resolved env addr msg w handler trap ->
  blackholed handler = false ->
  write_outcome env trap = Raise err ->
  exn_cls err ∉ [OperationalError; InvalidRequestError; IntegrityError] ->
  let w2 :=
    bump ["traps_received"; "traps_accepted"; "db_write_attempted"]
      (received_line env addr trap :: write_events env trap) w in
  _call env addr msg w = (Raise err, w2) ∧
  rollbacks (journal w2) = rollbacks (journal w) ∧
  sent_mails (journal w2) = sent_mails (journal w) ∧
  indexed (journal w2) = indexed (journal w).
Proof.
  intros Hr Hb Hw Hc w2.
  split_and!.
  - rewrite (_call_resolved _ _ _ _ _ _ Hr), Hb.
    erewrite bind_raise; [done|].
    rewrite (persist_unhandled _ _ _ _ _ _ Hw Hc).
    unfold accepted_world. by rewrite bump_bump.
  - subst w2. rewrite journal_bump.
    change (?x :: write_events env trap) with ([x] ++ write_events env trap).
    rewrite !rollbacks_app, rollbacks_write_events.
    unfold rollbacks at 2. simpl. lia.
  - subst w2. rewrite journal_bump.
    change (?x :: write_events env trap) with ([x] ++ write_events env trap).
    rewrite !sent_mails_app, sent_mails_write_events. simpl.
    by rewrite app_nil_r.
  - subst w2. rewrite journal_bump.
    change (?x :: write_events env trap) with ([x] ++ write_events env trap).
    rewrite !indexed_app, indexed_write_events. simpl.
    by rewrite app_nil_r.
Qed.

Lemma unhandled_store_error_aborts_witness :
  (_call (Lab.back Demo.table dde_run_noop Lab.quarter_hour (Return tt)
            (Raise Lab.disk_full) Lab.as_is (Return tt) Demo.fields
            (Return tt))
     Demo.addr Demo.whole_msg Demo.w0).1 = Raise Lab.disk_full.
Proof.
  destruct (unhandled_store_error_aborts
              (Lab.back Demo.table dde_run_noop Lab.quarter_hour (Return tt)
                 (Raise Lab.disk_full) Lab.as_is (Return tt) Demo.fields
                 (Return tt))
              Demo.addr Demo.whole_msg Demo.w0 Demo.policy Demo.trap1
              Lab.disk_full) as (H & _).
  - exists Demo.trap0. split; [split; [done|]|]; vm_compute; reflexivity.
  - reflexivity.
  - reflexivity.
  - intros Hin. apply list_elem_of_In in Hin. simpl in Hin.
    destruct Hin as [?|[?|[?|[]]]]; discriminate.
  - by rewrite H.
Defined.

(** X16. A trap whose policy has no mail rule, or a rule without
    recipients, never reaches the mail transport: whatever the store and the
    index answer, the invocation sends no mail and moves no mail counter. *)
Theorem no_recipients_no_mail env addr msg w handler trap :
  resolved env addr msg w handler trap ->
  match mail handler with
  | Some rule => recipients rule = []
  | None => True
  end ->
  sent_mails (journal (_call env addr msg w).2) = sent_mails (journal w) ∧
  ∀ c, c ∈ mail_counters ->
       counter c (_call env addr msg w).2 = counter c w.
Proof.
  intros Hr Hm. rewrite (_call_resolved _ _ _ _ _ _ Hr).
  assert (∀ names evs,
            sent_mails evs = [] ->
            (∀ c, c ∈ mail_counters -> c ∉ names) ->
            sent_mails (journal (bump names evs w)) = sent_mails (journal w) ∧
            ∀ c, c ∈ mail_counters ->
                 counter c (bump names evs w) = counter c w) as Hquiet.
  { intros names evs He Hn. split.
    - by rewrite journal_bump, sent_mails_app, He, app_nil_r.
    - intros c Hc. rewrite counter_bump, tally_notin; [lia | by apply Hn]. }
  assert (∀ (l : list string) c,
            c ∈ mail_counters ->
            l ⊆ ["traps_received"; "traps_accepted"; "traps_blackholed";
                 "db_write_attempted"; "db_write_successful";
                 "db_write_failed"; "db_write_duplicate"] ->
            c ∉ l) as Hother.
  { intros l c Hc Hl Hin. apply Hl in Hin.
    apply list_elem_of_In in Hc, Hin. simpl in *.
    destruct Hc as [<-|[<-|[<-|[]]]];
      destruct Hin as [?|[?|[?|[?|[?|[?|[?|[]]]]]]]]; done. }
  destruct (blackholed handler).
  { cbn [snd]. apply Hquiet; [done|].
    intros c Hc. apply Hother; [done | incl_lists]. }
  unfold accepted_world.
  match goal with
  | |- context [bind (persist ?e ?a ?n ?t) _ ?w0] =>
      destruct (persist_shape e a n t w0)
        as (o & names & evs & Hp & _ & Hpm & _ & _ & Hcases)
  end.
  unfold bind. rewrite Hp, bump_bump. simpl app.
  assert (names ⊆ ["db_write_successful"; "db_write_failed";
                   "db_write_duplicate"]) as Hnames
    by (destruct Hcases as [(->&_)|[(->&_)|[(->&_)|(->&_)]]]; incl_lists).
  assert (∀ o' : outcome unit, 
            let w' := bump ("traps_received" :: "traps_accepted"
                              :: "db_write_attempted" :: names)
                        (Log info "Trap Received (%s) from %s"
                           [AStr (ObjectId_name env (n_oid trap));
                            AStr addr.1] :: evs) w in
            sent_mails (journal w') = sent_mails (journal w) ∧
            ∀ c, c ∈ mail_counters -> counter c w' = counter c w) as Hw2.
  { intros _. apply Hquiet; [exact Hpm|].
    intros c Hc. apply Hother; [done|].
    intros x Hx. apply list_elem_of_In. apply list_elem_of_In in Hx.
    simpl in Hx |- *. destruct Hx as [<-|[<-|[<-|Hx]]]; [tauto..|].
    apply list_elem_of_In, Hnames, list_elem_of_In in Hx.
    simpl in Hx. tauto. }
  destruct o as [[dup t2]|e|b]; [|by apply (Hw2 (Return tt))..]. simpl.
  unfold fan_out. rewrite bind_run with (a := tt)
    (w' := bump ("traps_received" :: "traps_accepted"
                   :: "db_write_attempted" :: names)
             (Log info "Trap Received (%s) from %s"
                [AStr (ObjectId_name env (n_oid trap)); AStr addr.1]
                :: evs) w)
    by (by apply _send_mail_unconfigured).
  destruct (_index_to_elasticsearch_frame env t2
              (bump ("traps_received" :: "traps_accepted"
                       :: "db_write_attempted" :: names)
                 (Log info "Trap Received (%s) from %s"
                    [AStr (ObjectId_name env (n_oid trap)); AStr addr.1]
                    :: evs) w))
    as (o' & evs' & -> & _ & Him). cbn [snd].
  destruct (Hw2 (Return tt)) as [Hs Hc]. split.
  - by rewrite journal_bump, sent_mails_app, Hs, Him, app_nil_r.
  - intros c Hin. rewrite counter_bump, (Hc _ Hin). unfold tally. simpl. lia.
Qed.

Lemma no_recipients_no_mail_witness :
  sent_mails
    (journal (_call (Lab.back {[ Demo.linkDown := Lab.silent ]} dde_run_noop
                       Lab.quarter_hour (Return tt) (Return 40) Lab.as_is
                       (Return tt) Demo.fields (Return tt))
                Demo.addr Demo.whole_msg Demo.w0).2) = [].
Proof.
  destruct (no_recipients_no_mail
              (Lab.back {[ Demo.linkDown := Lab.silent ]} dde_run_noop
                 Lab.quarter_hour (Return tt) (Return 40) Lab.as_is
                 (Return tt) Demo.fields (Return tt))
              Demo.addr Demo.whole_msg Demo.w0 Lab.silent Demo.trap1)
    as [H _].
  - exists Demo.trap0. split; [split; [done|]|]; vm_compute; reflexivity.
  - exact I.
  - exact H.
Defined.

(** X17. When a mail is due and the transport returns, [_send_mail]
    counts one attempt and one success and no failure, hands the transport
    the recipients of the rule, the sender ["trapperkeeper"], the rendered
    subject, the trap and this manager's name, logs nothing, and the run
    continues with the indexing step. *)
Theorem mail_sent_is_counted env addr msg w handler trap dup w2 rule subj :
  at_fan_out env addr msg w handler trap dup w2 ->
  dup = false ∨ mail_on_duplicate handler = true ->
  mail handler = Some rule ->
  recipients rule ≠ [] ->
  percent_format env (subject rule) (subject_mapping env trap) = Return subj ->
  mail_answer env rule subj trap = Return tt ->
  let w3 :=
    bump ["mail_sent_attempted"; "mail_sent_successful"]
      [SendTrapEmail (recipients rule) "trapperkeeper" subj trap
         (hostname env)] w2 in
  _send_mail env handler trap dup w2 = (Return tt, w3) ∧
  counter "mail_sent_attempted" w3 = counter "mail_sent_attempted" w2 + 1 ∧
  counter "mail_sent_successful" w3 = counter "mail_sent_successful" w2 + 1 ∧
  counter "mail_sent_failed" w3 = counter "mail_sent_failed" w2 ∧
  sent_mails (journal w3) = sent_mails (journal w2) ++ [(recipients rule, trap)] ∧
  _call env addr msg w = _index_to_elasticsearch env trap w3.
Proof.
  intros Hat Hd Hm Hr Hs Hans w3.
  assert (_send_mail env handler trap dup w2 = (Return tt, w3)) as Hrun
    by (by rewrite (_send_mail_due _ _ _ _ _ _ _ Hd Hm Hr Hs), Hans).
  split_and!; [done| | | | |].
  - subst w3. rewrite counter_bump. tallies. lia.
  - subst w3. rewrite counter_bump. tallies. lia.
  - subst w3. rewrite counter_bump. tallies. lia.
  - subst w3. by rewrite journal_bump, sent_mails_app.
  - rewrite (_call_at_fan_out _ _ _ _ _ _ _ _ Hat).
    by apply fan_out_indexes.
Qed.

Lemma mail_sent_is_counted_witness :
  counter "mail_sent_successful"
    (_call Demo.plain Demo.addr Demo.whole_msg Demo.w0).2 = 1.
Proof.
  destruct (mail_sent_is_counted Demo.plain Demo.addr Demo.whole_msg Demo.w0
              Demo.policy (set_id 40 Demo.trap1) false
              (bump ["traps_received"; "traps_accepted";
                     "db_write_attempted"; "db_write_successful"]
                 [received_line Demo.plain Demo.addr Demo.trap1;
                  ConnAdd Demo.trap1; ConnCommit] Demo.w0)
              Demo.noc "%(hostname)s: %(trap_name)s")
    as (_ & _ & _ & _ & _ & Hcall).
  - exists Demo.trap1. split_and!; [|reflexivity|vm_compute; reflexivity].
    exists Demo.trap0. split; [split; [done|]|]; vm_compute; reflexivity.
  - by left.
  - reflexivity.
  - done.
  - reflexivity.
  - reflexivity.
  - rewrite Hcall, _index_to_elasticsearch_run. vm_compute. reflexivity.
Defined.

(** X18. When a mail is due but its subject template cannot be
    formatted, the exception leaves [_send_mail] before the attempt is
    counted and before the transport is called, and [_call] raises it
    without running the indexing step. *)
Theorem subject_failure_precedes_attempt env addr msg w handler trap dup w2
    rule err :
  at_fan_out env addr msg w handler trap dup w2 ->
  dup = false ∨ mail_on_duplicate handler = true ->
  mail handler = Some rule ->
  recipients rule ≠ [] ->
  percent_format env (subject rule) (subject_mapping env trap) = Raise err ->
  _send_mail env handler trap dup w2 = (Raise err, w2) ∧
  _call env addr msg w = (Raise err, w2).
Proof.
  intros Hat Hd Hm Hr Hs.
  assert (_send_mail env handler trap dup w2 = (Raise err, w2)) as Hrun.
  { unfold _send_mail.
    replace (dup && negb (mail_on_duplicate handler)) with false
      by (destruct Hd as [-> | ->]; [done | by destruct dup]).
    by rewrite Hm, bool_decide_eq_false_2, bind_call, Hs by done. }
  split; [done|].
  rewrite (_call_at_fan_out _ _ _ _ _ _ _ _ Hat). unfold fan_out.
  by rewrite (bind_raise _ _ _ _ _ Hrun).
Qed.

Lemma subject_failure_precedes_attempt_witness :
  _call (Lab.back Demo.table dde_run_noop Lab.quarter_hour (Return tt)
           (Return 40) (fun _ => Raise Lab.bad_template) (Return tt)
           Demo.fields (Return tt))
    Demo.addr Demo.whole_msg Demo.w0
  = (Raise Lab.bad_template,
     bump ["traps_received"; "traps_accepted"; "db_write_attempted";
           "db_write_successful"]
       [Log info "Trap Received (%s) from %s"
          [AStr "IF-MIB::linkDown"; AStr "192.0.2.7"];
        ConnAdd Demo.trap1; ConnCommit] Demo.w0).
Proof.
  destruct (subject_failure_precedes_attempt
              (Lab.back Demo.table dde_run_noop Lab.quarter_hour (Return tt)
                 (Return 40) (fun _ => Raise Lab.bad_template) (Return tt)
                 Demo.fields (Return tt))
              Demo.addr Demo.whole_msg Demo.w0 Demo.policy
              (set_id 40 Demo.trap1) false
              (bump ["traps_received"; "traps_accepted";
                     "db_write_attempted"; "db_write_successful"]
                 [Log info "Trap Received (%s) from %s"
                    [AStr "IF-MIB::linkDown"; AStr "192.0.2.7"];
                  ConnAdd Demo.trap1; ConnCommit] Demo.w0)
              Demo.noc Lab.bad_template) as [_ H].
  - exists Demo.trap1. split_and!; [|reflexivity|vm_compute; reflexivity].
    exists Demo.trap0. split; [split; [done|]|]; vm_compute; reflexivity.
  - by left.
  - reflexivity.
  - done.
  - reflexivity.
  - exact H.
Defined.

(** * More of the callback: indexing *)

(** X19. When the base fields have no ["id"] and no binding supplies a
    key of that name, [_index_to_elasticsearch] raises [KeyError] for
    ["id"] after its first printouts: no document is printed or handed to
    the index. *)
Theorem missing_id_is_key_error env trap w :
  to_dict env trap !! "id" = None ->
  (∀ vb, vb ∈ n_varbinds trap -> "id" ∉ varbind_keys vb) ->
  _index_to_elasticsearch env trap w
  = (Raise (Exn KeyError "id"), bump [] (index_prologue env trap) w) ∧
  indexed (journal (_index_to_elasticsearch env trap w).2)
  = indexed (journal w).
Proof.
  intros Hid Hvb.
  assert (index_document env trap = None) as Hdoc.
  { unfold index_document, merged_fields.
    rewrite update_varbinds_lookup_other by done.
    by rewrite (right_id_L ∅ (∪)), Hid. }
  rewrite _index_to_elasticsearch_run, Hdoc. split; [done|]. cbn [snd].
  by rewrite journal_bump, indexed_app, indexed_index_prologue, app_nil_r.
Qed.

Lemma missing_id_is_key_error_witness :
  (_index_to_elasticsearch
     (Lab.back Demo.table dde_run_noop Lab.quarter_hour (Return tt)
        (Return 40) Lab.as_is (Return tt) Lab.fields_without_id (Return tt))
     Demo.trap1 Demo.w0).1 = Raise (Exn KeyError "id").
Proof.
  destruct (missing_id_is_key_error
              (Lab.back Demo.table dde_run_noop Lab.quarter_hour (Return tt)
                 (Return 40) Lab.as_is (Return tt) Lab.fields_without_id
                 (Return tt))
              Demo.trap1 Demo.w0) as [H _].
  - vm_compute. reflexivity.
  - intros vb Hin Hk. apply list_elem_of_In in Hin, Hk. simpl in *.
    destruct Hin as [<-|[]]. destruct Hk as [?|[?|[?|[]]]]; done.
  - by rewrite H.
Defined.



(** X21. The indexing step moves no counter, never calls the store and
    never calls the mail transport, and hands the index at most one
    document, whatever the trap and whatever the index answers. *)
Theorem indexing_counts_nothing env trap w :
  let w' := (_index_to_elasticsearch env trap w).2 in
  stats w' = stats w ∧
  conn_adds (journal w') = conn_adds (journal w) ∧
  commits (journal w') = commits (journal w) ∧
  rollbacks (journal w') = rollbacks (journal w) ∧
  sent_mails (journal w') = sent_mails (journal w) ∧
  (length (indexed (journal w')) <= S (length (indexed (journal w))))%nat.
Proof.
  intros w'. subst w'. rewrite _index_to_elasticsearch_run.
  destruct (index_document env trap) as [doc|]; cbn [snd].
  - destruct (index_events_store_free env trap doc) as [_ Hf].
    destruct (index_events_sent_mails env trap doc) as [_ Hm].
    rewrite journal_bump, conn_adds_app, commits_app, rollbacks_app,
      sent_mails_app, indexed_app, indexed_index_events, Hm,
      (store_free_conn_adds _ Hf), (store_free_commits _ Hf),
      (store_free_rollbacks _ Hf), !app_nil_r, length_app.
    split_and!; [done..|lia|lia|done|simpl; lia].
  - destruct (index_events_store_free env trap ∅) as [Hf _].
    destruct (index_events_sent_mails env trap ∅) as [Hm _].
    rewrite journal_bump, conn_adds_app, commits_app, rollbacks_app,
      sent_mails_app, indexed_app, indexed_index_prologue, Hm,
      (store_free_conn_adds _ Hf), (store_free_commits _ Hf),
      (store_free_rollbacks _ Hf), !app_nil_r.
    split_and!; [done..|lia|lia|done|lia].
Qed.

(** X22. The entries [transform_varbind] yields.  The type key always
    holds the value kind.  The OID key holds the raw value unless the OID
    is the type key.  The name key holds the pretty value unless the OID is
    the name, and then it holds the raw value.  There is no other key, so
    the result has two or three entries. *)
Theorem transform_varbind_entries vb :
  transform_varbind vb !! (vb_name vb +:+ ":type") = Some (vb_value_type vb) ∧
  (vb_oid vb ≠ vb_name vb +:+ ":type" ->
   transform_varbind vb !! vb_oid vb = Some (vb_value vb)) ∧
  (vb_oid vb ≠ vb_name vb ->
   transform_varbind vb !! vb_name vb = Some (vb_pretty_value vb)) ∧
  (vb_oid vb = vb_name vb ->
   transform_varbind vb !! vb_name vb = Some (vb_value vb)) ∧
  dom (transform_varbind vb)
  = ({[ vb_name vb; vb_oid vb; vb_name vb +:+ ":type" ]} : gset string) ∧
  (2 <= size (transform_varbind vb) <= 3)%nat.
Proof.
  pose proof (append_type_ne (vb_name vb)) as Hne.
  assert (dom (transform_varbind vb)
          = ({[ vb_name vb; vb_oid vb; vb_name vb +:+ ":type" ]}
             : gset string)) as Hdom.
  { unfold transform_varbind.
    rewrite (right_id_L ∅ (∪)), !dom_insert_L, dom_empty_L.
    apply set_eq. intros k. rewrite !elem_of_union, elem_of_empty. tauto. }
  unfold transform_varbind. rewrite (right_id_L ∅ (∪)).
  split_and!.
  - by rewrite lookup_insert_eq.
  - intros H. rewrite lookup_insert_ne by done. by rewrite lookup_insert_eq.
  - intros H. rewrite lookup_insert_ne by done.
    rewrite lookup_insert_ne by done. by rewrite lookup_insert_eq.
  - intros H. rewrite lookup_insert_ne by done.
    by rewrite H, lookup_insert_eq.
  - unfold transform_varbind in Hdom. by rewrite (right_id_L ∅ (∪)) in Hdom.
  - unfold transform_varbind in Hdom. rewrite (right_id_L ∅ (∪)) in Hdom.
    rewrite <- size_dom, Hdom.
    assert (size ({[vb_name vb]} ∪ {[vb_name vb +:+ ":type"]} : gset string)
            = 2%nat) as <-.
    { rewrite size_union, !size_singleton; [done|].
      by apply disjoint_singleton_l, not_elem_of_singleton. }
    apply subseteq_size. intros k. rewrite !elem_of_union. tauto.
  - unfold transform_varbind in Hdom. rewrite (right_id_L ∅ (∪)) in Hdom.
    rewrite <- size_dom, Hdom.
    assert (∀ X Y : gset string, (size (X ∪ Y) <= size X + size Y)%nat)
      as Hle.
    { intros X Y. rewrite size_union_alt.
      assert (size (Y ∖ X) <= size Y)%nat; [|lia].
      apply subseteq_size. intros k. rewrite elem_of_difference. tauto. }
    etrans; [apply Hle|]. etrans; [apply Nat.add_le_mono_r, Hle|].
    by rewrite !size_singleton.
Qed.

(** X23. Two adjacent bindings that have no key in common can be
    exchanged without changing the merged mapping, and with it the
    document. *)
Theorem disjoint_bindings_commute m vb1 vb2 rest :
  (∀ k, k ∈ varbind_keys vb1 -> k ∉ varbind_keys vb2) ->
  update_varbinds m (vb1 :: vb2 :: rest)
  = update_varbinds m (vb2 :: vb1 :: rest).
Proof.
  intros Hdisj. simpl. f_equal.
  rewrite !(assoc_L (∪)). f_equal.
  apply map_union_comm, map_disjoint_spec.
  intros k v1 v2 H2 H1.
  apply (Hdisj k); apply transform_varbind_lookup_is_Some; by eexists.
Qed.

Lemma disjoint_bindings_commute_witness :
  update_varbinds ∅
    [Demo.sysLocation;
     {| vb_name := "ifIndex.2"; vb_notification_id := VNone;
        vb_oid := "1.3.6.1.2.1.2.2.1.1.2"; vb_pretty_value := VInt 2;
        vb_value := VInt 2; vb_value_type := VStr "integer" |}]
  = update_varbinds ∅
      [{| vb_name := "ifIndex.2"; vb_notification_id := VNone;
          vb_oid := "1.3.6.1.2.1.2.2.1.1.2"; vb_pretty_value := VInt 2;
          vb_value := VInt 2; vb_value_type := VStr "integer" |};
       Demo.sysLocation].
Proof.
  apply disjoint_bindings_commute.
  intros k Hk Hk'. apply list_elem_of_In in Hk, Hk'. simpl in *.
  destruct Hk as [<-|[<-|[<-|[]]]]; destruct Hk' as [?|[?|[?|[]]]]; done.
Defined.

(** * The routing table *)

Module RoutesFacts.
Import Routes.

(** The syntax trees are the patterns of the source. *)
Lemma HANDLERS_source :
  map (fun ph => (render ph.1, ph.2)) HANDLERS
  = [("/", Index); ("/resolve/?", Resolve); ("/resolve_all/?", ResolveAll);
     ("/api/varbinds/(?P<notification_id>\d+)", ApiVarBinds);
     ("/.*", NotFound)].
Proof. reflexivity. Qed.

Lemma first_some_Some {A B} (f : A -> option B) l y :
  first_some f l = Some y -> ∃ x, x ∈ l ∧ f x = Some y.
Proof.
  induction l as [|x l IH]; simpl; [done|].
  destruct (f x) as [y'|] eqn:Hx.
  - intros [= ->]. exists x. split; [by left | done].
  - intros H. destruct (IH H) as (x' & Hin & Hx'). exists x'.
    split; [by right | done].
Qed.

Lemma first_some_is_Some {A B} (f : A -> option B) l x :
  x ∈ l -> is_Some (f x) -> is_Some (first_some f l).
Proof.
  induction l as [|x' l IH]; intros Hin Hs; [by apply elem_of_nil in Hin|].
  simpl. destruct (f x') as [y|] eqn:Hx'; [by eexists|].
  apply elem_of_cons in Hin as [->|Hin]; [|by apply IH].
  rewrite Hx' in Hs. by destruct Hs.
Qed.

Lemma match_lit l p s : match_pat (lit l ++ p) (l +:+ s) = match_pat p s.
Proof.
  induction l as [|c l IH]; [done|].
  change (lit (String c l) ++ p) with (Chr c :: (lit l ++ p)).
  simpl. rewrite Ascii.eqb_refl. simpl. rewrite IH.
  by destruct (match_pat p s).
Qed.

Lemma match_lit_inv l p s kw :
  match_pat (lit l ++ p) s = Some kw ->
  ∃ s', s = l +:+ s' ∧ match_pat p s' = Some kw.
Proof.
  revert s kw. induction l as [|c l IH]; intros s kw H; [by exists s|].
  change (lit (String c l) ++ p) with (Chr c :: (lit l ++ p)) in H.
  simpl in H. destruct s as [|c' s]; [done|].
  destruct (Ascii.eqb c c') eqn:Hc; [|done].
  apply Ascii.eqb_eq in Hc as <-. simpl in H.
  destruct (match_pat (lit l ++ p) s) as [kw'|] eqn:Hm; [|done].
  injection H as <-. destruct (IH _ _ Hm) as (s' & -> & Hs').
  by exists s'.
Qed.

Lemma star_cands_spec k s m r :
  (m, r) ∈ star_cands k s -> s = m +:+ r ∧ all_in k m = true.
Proof.
  revert m r. induction s as [|c s IH]; intros m r; simpl.
  - rewrite list_elem_of_singleton. by intros [= -> ->].
  - destruct (in_cls k c) eqn:Hc.
    + rewrite elem_of_app, list_elem_of_fmap, list_elem_of_singleton.
      intros [([m' r'] & [= -> ->] & Hin)|[= -> ->]]; [|done].
      destruct (IH _ _ Hin) as [-> Hall]. simpl. by rewrite Hc, Hall.
    + rewrite list_elem_of_singleton. by intros [= -> ->].
Qed.

Lemma star_cands_head k s :
  all_in k s = true -> ∃ tl, star_cands k s = (s, "") :: tl.
Proof.
  induction s as [|c s IH]; simpl; [by exists []|].
  intros [Hc Hs]%andb_true_iff. rewrite Hc.
  destruct (IH Hs) as [tl ->]. simpl. by eexists.
Qed.

Lemma at_end_inv s : at_end s = true -> s = "" ∨ s = String newline "".
Proof.
  destruct s as [|c [|c' s]]; simpl; [by left| |done].
  intros ->%Ascii.eqb_eq. by right.
Qed.

(** X24. No request path falls through the table: every path that
    starts with a slash and has no newline in it is given to one of the
    handlers. *)
Theorem every_path_is_routed rest :
  all_in dot rest = true ->
  ∃ h kw, dispatch ("/" +:+ rest) = Some (h, kw).
Proof.
  intros Hall.
  assert (is_Some (dispatch ("/" +:+ rest))) as [[h kw] H]; [|by exists h, kw].
  unfold dispatch.
  apply (first_some_is_Some _ _ (lit "/" ++ [Star dot], NotFound)).
  - unfold HANDLERS. rewrite !elem_of_cons. tauto.
  - cbn [fst snd]. rewrite match_lit.
    destruct (star_cands_head dot rest Hall) as [tl Htl].
    cbn [match_pat cands]. rewrite Htl. by eexists.
Qed.

Lemma every_path_is_routed_witness :
  ∃ h kw, dispatch "/favicon.ico" = Some (h, kw).
Proof. apply (every_path_is_routed "favicon.ico"). reflexivity. Defined.

(** X25. A path made of ["/api/varbinds/"] and a non-empty string of
    decimal digits is given to [ApiVarBinds], with the digits as the keyword
    argument [notification_id]. *)
Theorem varbinds_path_reaches_api ds :
  all_in digit ds = true ->
  ds ≠ "" ->
  dispatch ("/api/varbinds/" +:+ ds)
  = Some (ApiVarBinds, [("notification_id", ds)]).
Proof.
  intros Hall Hne.
  destruct (star_cands_head digit ds Hall) as [tl Htl].
  unfold dispatch, HANDLERS. cbn [first_some fst snd].
  assert (match_pat (lit "/") ("/api/varbinds/" +:+ ds) = None) as ->
    by done.
  assert (match_pat (lit "/resolve" ++ [Opt (Chr slash)])
            ("/api/varbinds/" +:+ ds) = None) as -> by done.
  assert (match_pat (lit "/resolve_all" ++ [Opt (Chr slash)])
            ("/api/varbinds/" +:+ ds) = None) as -> by done.
  rewrite match_lit. cbn [match_pat cands]. rewrite Htl.
  destruct ds as [|c ds]; [done|]. done.
Qed.

Lemma varbinds_path_reaches_api_witness :
  dispatch "/api/varbinds/40"
  = Some (ApiVarBinds, [("notification_id", "40")]).
Proof. apply (varbinds_path_reaches_api "40"); [reflexivity | done]. Defined.

(** X26. [ApiVarBinds] is only ever given a path made of
    ["/api/varbinds/"] and a non-empty string of decimal digits (followed,
    at most, by one newline, which the end anchor lets through), and its
    [notification_id] is exactly that string of digits. *)
Theorem api_only_gets_digits path kw :
  dispatch path = Some (ApiVarBinds, kw) ->
  ∃ ds,
    all_in digit ds = true ∧ ds ≠ "" ∧
    kw = [("notification_id", ds)] ∧
    (path = "/api/varbinds/" +:+ ds ∨
     path = "/api/varbinds/" +:+ ds +:+ String newline "").
Proof.
  unfold dispatch, HANDLERS. cbn [first_some fst snd].
  destruct (match_pat (lit "/") path); [done|].
  destruct (match_pat (lit "/resolve" ++ [Opt (Chr slash)]) path); [done|].
  destruct (match_pat (lit "/resolve_all" ++ [Opt (Chr slash)]) path);
    [done|].
  destruct (match_pat
              (lit "/api/varbinds/" ++ [Group "notification_id" (Plus digit)])
              path) as [kw'|] eqn:H;
    [|by destruct (match_pat (lit "/" ++ [Star dot]) path)].
  intros [= <-].
  apply match_lit_inv in H as (s' & -> & H).
  cbn [match_pat] in H.
  apply first_some_Some in H as ([[m b] r] & Hin & H).
  cbn [cands] in Hin.
  apply list_elem_of_fmap in Hin as ([[m' b'] r'] & [= -> -> ->] & Hin).
  apply list_elem_of_fmap in Hin as ([m r] & [= -> -> ->] & Hin).
  apply list_elem_of_In, filter_In in Hin as [Hin Hm].
  apply list_elem_of_In, star_cands_spec in Hin as [-> Hall].
  cbn [fst snd match_pat] in H.
  destruct (at_end r) eqn:Hend; [|done]. injection H as <-.
  exists m. split_and!; [done | by destruct m | done |].
  apply at_end_inv in Hend as [-> | ->]; [left | by right].
  clear. simpl. do 14 f_equal.
  induction m as [|c m IH]; [done|].
  change (String c (m +:+ "") = String c m). by rewrite IH.
Qed.

Lemma api_only_gets_digits_witness :
  ∃ ds, all_in digit ds = true ∧ ds ≠ "" ∧
        [("notification_id", "007")] = [("notification_id", ds)].
Proof.
  destruct (api_only_gets_digits "/api/varbinds/007"
              [("notification_id", "007")]) as (ds & H1 & H2 & H3 & _);
    [reflexivity|].
  by exists ds.
Defined.

End RoutesFacts.
